(** * Career Pathfinder: the recommendation engine of [src/app/page.tsx]

    A shallow embedding of the engine's functions ([clamp], [daysSince],
    [extractTags], [scoreJob], [reRank], [learnFromFeedback], [fetchJobs])
    and the properties the specification states about them.

    Conventions of the embedding.
    - A JavaScript [number] is an IEEE 754 binary64 value: Rocq's primitive
      [float], with its NaN, infinities and signed zeros.
    - A JavaScript string is a [string]: the bytes of its UTF-8 encoding,
      which for a well-formed string preserve equality, concatenation and
      the substring test. The host's [String.prototype.toLowerCase] is a
      parameter of the development ([JS.toLowerCase], a field of the class
      [JS.Host]); what is known of it is its action on ASCII text, where
      it turns the letters [A]-[Z] into [a]-[z] and leaves every other
      character unchanged.
    - The number of arguments a host can pass in one call is limited and
      the limit differs between hosts: [JS.canSpread n] says whether a call
      with [n] spread arguments goes through; otherwise it throws a
      [RangeError].
    - An optional field ([postedAt?: string]) is an [option].
    - The weight object ([Record<string, number>]) is a finite map from key
      to number; reading an absent key gives [undefined], which every
      arithmetic use in the source turns into NaN.
    - The system clock ([Date.now()]) is an explicit argument [now]; the
      date parser of the platform is a parameter [Date_parse]. *)

From Stdlib Require Import ZArith Lia Floats Ascii String List Permutation Sorted.
From stdpp Require Import gmap strings list fin_maps.

Set Warnings "-inexact-float".

Abbreviation number := float.

(** ** ECMAScript built-ins used by the source *)

Module JS.

  (** The case fold of ASCII text: the letters A-Z become a-z. *)
Definition toLowerCase_ascii (c : ascii) : ascii :=
    let n := nat_of_ascii c in
    if (Nat.leb 65 n && Nat.leb n 90)%bool then ascii_of_nat (n + 32) else c.

Fixpoint foldASCII (s : string) : string :=
    match s with
    | EmptyString => EmptyString
    | String c s' => String (toLowerCase_ascii c) (foldASCII s')
    end.

  (** A string of ASCII characters (code points below 128). *)
Fixpoint isASCII (s : string) : bool :=
    match s with
    | EmptyString => true
    | String c s' => Nat.ltb (nat_of_ascii c) 128 && isASCII s'
    end.

  (** The host. [toLowerCase] is [String.prototype.toLowerCase], the
      default lower-casing of Unicode. Two facts about it are used: on
      ASCII text it is [foldASCII]; and it acts on the two sides of a
      space separately (its one context-sensitive rule, the final sigma,
      does not look across a space). [canSpread n] tells whether a call
      [f(...arr)] with an array of [n] elements goes through; a host
      throws a [RangeError] when it does not. *)
Class Host := {
    toLowerCase : string -> string;
    toLowerCase_ASCII : forall s, isASCII s = true -> toLowerCase s = foldASCII s;
    toLowerCase_space :
      forall a b,
        toLowerCase (a +:+ " " +:+ b) = toLowerCase a +:+ " " +:+ toLowerCase b;
    canSpread : nat -> bool
  }.

  (** [s.startsWith(p)] and [s.includes(sub)] on strings. *)
Fixpoint startsWith (s p : string) : bool :=
    match p, s with
    | EmptyString, _ => true
    | String _ _, EmptyString => false
    | String a p', String b s' => Ascii.eqb a b && startsWith s' p'
    end.

Fixpoint includes (s sub : string) : bool :=
    startsWith s sub
    || match s with
       | EmptyString => false
       | String _ s' => includes s' sub
       end.

  (** [arr.includes(x)] on an array of strings. *)
Definition Array_includes (arr : list string) (x : string) : bool :=
    bool_decide (x ∈ arr).

  (** Truthiness of a number: every number but [0], [-0] and NaN. *)
Definition truthy (x : number) : bool :=
    negb (PrimFloat.is_zero x || PrimFloat.is_nan x).

  (** [a || b] on optional numbers ([undefined] is falsy); the result of the
      source's [job.salaryMax || job.salaryMin || 0] is always a number. *)
Definition or_number (a : option number) (b : number) : number :=
    match a with
    | Some x => if truthy x then x else b
    | None => b
    end.

Definition is_pos_zero (x : number) : bool :=
    PrimFloat.is_zero x && negb (PrimFloat.get_sign x).

Definition is_neg_zero (x : number) : bool :=
    PrimFloat.is_zero x && PrimFloat.get_sign x.

  (** [Math.max] and [Math.min] of two numbers (ECMA-262, 21.3.2.24/25):
      NaN if an argument is NaN; otherwise the arguments are folded from
      -∞ (resp. +∞), +0 counting as larger than -0. *)
Definition max_step (highest x : number) : number :=
    if is_pos_zero x && is_neg_zero highest then x
    else if (highest <? x)%float then x else highest.

Definition min_step (lowest x : number) : number :=
    if is_neg_zero x && is_pos_zero lowest then x
    else if (x <? lowest)%float then x else lowest.

Definition Math_max (a b : number) : number :=
    if PrimFloat.is_nan a || PrimFloat.is_nan b then nan
    else max_step (max_step neg_infinity a) b.

Definition Math_min (a b : number) : number :=
    if PrimFloat.is_nan a || PrimFloat.is_nan b then nan
    else min_step (min_step infinity a) b.

  (** The number of an integer (exact below 2^53, rounded to nearest
      above). *)
Definition of_Z (z : Z) : number :=
    SF2Prim (binary_normalize prec emax z 0 false).

  (** [Math.floor]: the largest integral number not above [x]; NaN, the
      infinities and the zeros are returned as they are. *)
Definition Math_floor (x : number) : number :=
    match Prim2SF x with
    | S754_finite s m e =>
        if (0 <=? e)%Z then x
        else
          let q := Z.shiftr (Zpos m) (- e) in
          let exact := (Z.shiftl q (- e) =? Zpos m)%Z in
          if s then (if exact then - of_Z q else - of_Z (q + 1))%float
          else of_Z q
    | _ => x
    end.

  (** The outcome of a settled promise. *)
Inductive Settled (A : Type) : Type :=
  | fulfilled (value : A)
  | rejected (reason : string).
Arguments fulfilled {A} value.
Arguments rejected {A} reason.

  (** The completion of a statement: normal, or abrupt by a [throw]. *)
Inductive Completion (A : Type) : Type :=
  | normal (value : A)
  | throw (error : string).
Arguments normal {A} value.
Arguments throw {A} error.

  (** [arr.push(...value)]: the elements of [value] are the arguments of
      one call of [push]. *)
Definition Array_push_spread `{Host} {A} (arr value : list A) : Completion (list A) :=
    if canSpread (length value) then normal (arr ++ value) else throw "RangeError".

End JS.

(** ** Data model *)

Module Job.
Record t := mk {
    id : string;
    title : string;
    company : string;
    location : string;
    url : string;
    postedAt : option string;
    description : option string;
    source : string;
    tags : option (list string);
    salaryMin : option number;
    salaryMax : option number;
    workType : option string;
    seniority : option string;
    remote : option bool;
    hybrid : option bool
  }.

Definition with_tags (j : t) (ts : list string) : t :=
    mk (id j) (title j) (company j) (location j) (url j) (postedAt j)
       (description j) (source j) (Some ts) (salaryMin j) (salaryMax j)
       (workType j) (seniority j) (remote j) (hybrid j).
End Job.
Abbreviation Job := Job.t.

Module Preferences.
Record t := mk {
    keywords : list string;
    blockedKeywords : list string;
    preferredLocations : list string;
    excludedLocations : list string;
    minSalary : option number;
    workTypes : list string;
    industries : list string;
    seniority : list string;
    remoteOnly : bool;
    academia : bool;
    consulting : bool;
    publicSector : bool;
    privateSector : bool;
    weights : gmap string number
  }.

  (** Field assignments [p.f = v] as functional updates. *)
Definition set_keywords (p : t) (v : list string) : t :=
    mk v (blockedKeywords p) (preferredLocations p) (excludedLocations p)
       (minSalary p) (workTypes p) (industries p) (seniority p) (remoteOnly p)
       (academia p) (consulting p) (publicSector p) (privateSector p) (weights p).

Definition set_blockedKeywords (p : t) (v : list string) : t :=
    mk (keywords p) v (preferredLocations p) (excludedLocations p)
       (minSalary p) (workTypes p) (industries p) (seniority p) (remoteOnly p)
       (academia p) (consulting p) (publicSector p) (privateSector p) (weights p).

Definition set_academia (p : t) (v : bool) : t :=
    mk (keywords p) (blockedKeywords p) (preferredLocations p) (excludedLocations p)
       (minSalary p) (workTypes p) (industries p) (seniority p) (remoteOnly p)
       v (consulting p) (publicSector p) (privateSector p) (weights p).

Definition set_consulting (p : t) (v : bool) : t :=
    mk (keywords p) (blockedKeywords p) (preferredLocations p) (excludedLocations p)
       (minSalary p) (workTypes p) (industries p) (seniority p) (remoteOnly p)
       (academia p) v (publicSector p) (privateSector p) (weights p).

Definition set_weights (p : t) (v : gmap string number) : t :=
    mk (keywords p) (blockedKeywords p) (preferredLocations p) (excludedLocations p)
       (minSalary p) (workTypes p) (industries p) (seniority p) (remoteOnly p)
       (academia p) (consulting p) (publicSector p) (privateSector p) v.
End Preferences.
Abbreviation Preferences := Preferences.t.

(** Reading a weight, [w.k]: the stored number, or [undefined], which the
    arithmetic of the source turns into NaN. *)
Definition weight (w : gmap string number) (k : string) : number :=
  default nan (w !! k).

(** [newPrefs.weights.k = v]. *)
Definition set_weight (p : Preferences) (k : string) (v : number) : Preferences :=
  Preferences.set_weights p (<[k := v]> (Preferences.weights p)).

(** ** Utilities *)

Definition defaultPreferences : Preferences :=
  Preferences.mk
    [ "organisational psychology"; "behavioural science"; "OD";
      "leadership development"; "culture"; "statistics";
      "program evaluation"; "research methods"; "data analysis" ]
    [ "corruption prevention" ]
    [ "Sydney"; "NSW"; "Hybrid"; "Remote" ]
    []
    (Some 140000%float)
    [ "Full-time"; "Fixed-term"; "Contract" ]
    [ "Consulting"; "Tech"; "Healthcare"; "Higher Education";
      "Financial Services"; "Public Sector" ]
    [ "Senior"; "Lead"; "Manager"; "Director" ]
    false true true true true
    (list_to_map
       [ ("keywordMatch", 1.4%float); ("negativeKeyword", (-2.2)%float);
         ("locationMatch", 0.9%float); ("salary", 1.2%float);
         ("workType", 0.6%float); ("industry", 0.7%float);
         ("seniority", 0.8%float); ("remote", 0.5%float);
         ("recency", 0.6%float) ]).

Definition clamp (n min max : number) : number :=
  JS.Math_max min (JS.Math_min max n).

(** ** Tag extraction *)

Definition picks : list string :=
  [ "organisational psychology"; "behavioural"; "leadership"; "culture";
    "od"; "learning"; "l&d"; "people analytics"; "data"; "statistics";
    "evaluation"; "program"; "policy"; "consulting"; "experimental";
    "research"; "phd"; "doctorate"; "university"; "health"; "clinical";
    "government"; "ethics"; "risk"; "psychometrics"; "survey" ].

Definition extractTags `{JS.Host} (job : Job) : list string :=
  let blob :=
    JS.toLowerCase (Job.title job +:+ " " +:+ default "" (Job.description job)) in
  take 12 (List.filter (fun p => JS.includes blob p) picks).

(** ** The scoring function

    [Date_parse s] stands for [new Date(s).getTime()]: the time value of
    the date string in milliseconds, NaN for an unparsable one. [now] is
    the reading of [Date.now()] at the call. *)

Section Engine.

Context {host : JS.Host}.
Variable Date_parse : string -> number.

Definition daysSince (now : number) (dateIso : option string) : number :=
    match dateIso with
    | None => 999
    | Some EmptyString => 999
    | Some s =>
        let d := Date_parse s in
        let diff := (now - d)%float in
        JS.Math_floor (diff / (1000 * 60 * 60 * 24))%float
    end.

  (** The number of keywords of [kws] occurring in the title or in the
      description: [kws.reduce((acc, kw) => acc + (... ? 1 : 0), 0)]. *)
Definition countHits (title desc : string) (kws : list string) : number :=
    fold_left
      (fun acc kw =>
         (acc + (if JS.includes title (JS.toLowerCase kw)
                    || JS.includes desc (JS.toLowerCase kw)
                 then 1 else 0))%float)
      kws 0%float.

Section Factors.
Variables (now : number) (job : Job) (prefs : Preferences).

Let w := Preferences.weights prefs.
Let title := JS.toLowerCase (Job.title job).
Let desc := JS.toLowerCase (default EmptyString (Job.description job)).

Definition kwScore : number :=
      let kwHits := countHits title desc (Preferences.keywords prefs) in
      (kwHits * weight w "keywordMatch")%float.

Definition negScore : number :=
      let negHits := countHits title desc (Preferences.blockedKeywords prefs) in
      (negHits * weight w "negativeKeyword")%float.

Definition locationScore : number :=
      if existsb
           (fun l => JS.includes (JS.toLowerCase (Job.location job)) (JS.toLowerCase l))
           (Preferences.preferredLocations prefs)
      then weight w "locationMatch" else 0%float.

Definition salaryScore : number :=
      let offered := JS.or_number (Job.salaryMax job) (JS.or_number (Job.salaryMin job) 0) in
      if (JS.or_number (Preferences.minSalary prefs) 0 <=? offered)%float
      then weight w "salary" else 0%float.

Definition workTypeScore : number :=
      match Job.workType job with
      | Some (String _ _ as wt) =>
          if JS.Array_includes (Preferences.workTypes prefs) wt
          then weight w "workType" else 0%float
      | _ => 0%float
      end.

Definition industryScore : number :=
      if existsb
           (fun t =>
              existsb
                (fun i => JS.includes (JS.toLowerCase t) (JS.toLowerCase i))
                (Preferences.industries prefs))
           (default [] (Job.tags job))
      then weight w "industry" else 0%float.

Definition seniorityScore : number :=
      match Job.seniority job with
      | Some (String _ _ as s) =>
          if JS.Array_includes (Preferences.seniority prefs) s
          then weight w "seniority" else 0%float
      | _ => 0%float
      end.

Definition remoteScore : number :=
      if default false (Job.remote job) || default false (Job.hybrid job)
      then weight w "remote" else 0%float.

Definition recencyScore : number :=
      let d := daysSince now (Job.postedAt job) in
      if (d <? 21)%float then (weight w "recency" * ((21 - d) / 21))%float
      else 0%float.

Definition scoreJob : number :=
      (kwScore + negScore + locationScore + salaryScore + workTypeScore
       + industryScore + seniorityScore + remoteScore + recencyScore)%float.
End Factors.

  (** ** The ranker *)

  (** [Array.prototype.sort(comparefn)]: the comparator's NaN counts as +0,
      an element moves in front of another only on a negative result, and
      equal elements keep their order (the sort is stable). For a
      consistent comparator this is the one order ECMA-262 allows. *)
Definition SortCompare {A} (comparefn : A -> A -> number) (x y : A) : number :=
    let v := comparefn x y in
    if PrimFloat.is_nan v then 0%float else v.

Fixpoint sort_insert {A} (comparefn : A -> A -> number) (x : A) (sorted : list A)
    : list A :=
    match sorted with
    | [] => [x]
    | y :: rest =>
        if (SortCompare comparefn y x <? 0)%float
        then y :: sort_insert comparefn x rest
        else x :: y :: rest
    end.

Fixpoint Array_sort {A} (comparefn : A -> A -> number) (arr : list A) : list A :=
    match arr with
    | [] => []
    | x :: rest => sort_insert comparefn x (Array_sort comparefn rest)
    end.

  (** [{ ...j, tags: j.tags?.length ? j.tags : extractTags(j) }] *)
Definition enrich (j : Job) : Job :=
    Job.with_tags j
      (match Job.tags j with
       | Some ((_ :: _) as ts) => ts
       | _ => extractTags j
       end).

Record Scored := { job : Job; score : number }.

Definition byScoreDesc (a b : Scored) : number := (score b - score a)%float.

Definition reRank (now : number) (jobs : list Job) (prefs : Preferences) : list Job :=
    let enriched := map enrich jobs in
    map job
      (Array_sort byScoreDesc
         (map (fun job => {| job := job; score := scoreJob now job prefs |}) enriched)).

End Engine.

(** ** The feedback learner, on profile values

    [learnFromFeedback] builds [newPrefs] as a copy of [prefs] with a copy
    of its weight object and then assigns to fields of the copy only; on
    values this is a chain of functional updates. The same function over a
    store of objects, with the copies and assignments spelled out, is
    [Store.learnFromFeedback] below. *)

(** One round of the [forEach] over the tags to learn from. *)
Definition learnTag `{JS.Host} (liked : bool) (newPrefs : Preferences) (t : string)
  : Preferences :=
  let tLower := JS.toLowerCase t in
  if liked then
    if negb (JS.Array_includes (Preferences.keywords newPrefs) tLower)
    then Preferences.set_keywords newPrefs (Preferences.keywords newPrefs ++ [tLower])
    else newPrefs
  else
    if negb (JS.Array_includes (Preferences.blockedKeywords newPrefs) tLower)
    then Preferences.set_blockedKeywords newPrefs
           (Preferences.blockedKeywords newPrefs ++ [tLower])
    else newPrefs.

(** [selectedTags.length ? selectedTags : job.tags || []] *)
Definition tagsToLearn (job : Job) (selectedTags : list string) : list string :=
  match selectedTags with
  | _ :: _ => selectedTags
  | [] => default [] (Job.tags job)
  end.

(** [newPrefs.weights.k = f(newPrefs.weights.k)] *)
Definition updateWeight (newPrefs : Preferences) (k : string) (f : number -> number)
  : Preferences :=
  set_weight newPrefs k (f (weight (Preferences.weights newPrefs) k)).

Definition learnFromFeedback `{JS.Host}
  (prefs : Preferences) (job : Job) (liked : bool) (notes : string)
  (selectedTags : list string) : Preferences :=
  let delta := if liked then 0.15%float else (-0.12)%float in
  let newPrefs := prefs in
  let newPrefs :=
    if liked
    then updateWeight newPrefs "keywordMatch" (fun x => clamp (x + 0.05) 0.6 2.2)%float
    else newPrefs in
  let newPrefs :=
    if negb liked
    then updateWeight newPrefs "negativeKeyword" (fun x => clamp (x - 0.05) (-3) (-0.6))%float
    else newPrefs in
  let newPrefs := fold_left (learnTag liked) (tagsToLearn job selectedTags) newPrefs in
  let n := JS.toLowerCase notes in
  let newPrefs :=
    if JS.includes n "salary" || JS.includes n "pay"
    then updateWeight newPrefs "salary" (fun x => clamp (x + delta) 0.2 2.4)%float
    else newPrefs in
  let newPrefs :=
    if JS.includes n "remote" || JS.includes n "hybrid"
    then updateWeight newPrefs "remote" (fun x => clamp (x + delta) 0 1.4)%float
    else newPrefs in
  let newPrefs :=
    if JS.includes n "leadership" || JS.includes n "manager" || JS.includes n "director"
    then updateWeight newPrefs "seniority" (fun x => clamp (x + delta) 0.2 2)%float
    else newPrefs in
  let newPrefs :=
    if JS.includes n "consult" then Preferences.set_consulting newPrefs liked
    else newPrefs in
  let newPrefs :=
    if JS.includes n "university" || JS.includes n "academic"
    then Preferences.set_academia newPrefs liked
    else newPrefs in
  newPrefs.

(** A feedback event as the learner receives it, and a run of events, each
    learning from the profile the previous one returned. *)
Record Feedback := {
  fb_job : Job;
  fb_liked : bool;
  fb_notes : string;
  fb_tags : list string
}.

Definition learnAll `{JS.Host} (prefs : Preferences) (events : list Feedback)
  : Preferences :=
  fold_left
    (fun p ev => learnFromFeedback p (fb_job ev) (fb_liked ev) (fb_notes ev) (fb_tags ev))
    events prefs.

(** ** The feedback learner, on a store of objects

    A profile is an object whose array fields and whose weight object are
    references: two profiles may share an array, and an assignment through
    one reference is seen through every other. The store is the list of
    allocated objects, a reference is an index into it, and the source's
    statements become reads, allocations and writes in a state monad that
    fails on a dangling or ill-typed reference. *)

Module Store.

Abbreviation loc := nat.

Record PrefsObj := mkPrefsObj {
    keywords : loc;
    blockedKeywords : loc;
    preferredLocations : loc;
    excludedLocations : loc;
    minSalary : option number;
    workTypes : loc;
    industries : loc;
    seniority : loc;
    remoteOnly : bool;
    academia : bool;
    consulting : bool;
    publicSector : bool;
    privateSector : bool;
    weights : loc
  }.

Definition set_keywords (o : PrefsObj) (v : loc) : PrefsObj :=
    mkPrefsObj v (blockedKeywords o) (preferredLocations o) (excludedLocations o)
      (minSalary o) (workTypes o) (industries o) (seniority o) (remoteOnly o)
      (academia o) (consulting o) (publicSector o) (privateSector o) (weights o).

Definition set_blockedKeywords (o : PrefsObj) (v : loc) : PrefsObj :=
    mkPrefsObj (keywords o) v (preferredLocations o) (excludedLocations o)
      (minSalary o) (workTypes o) (industries o) (seniority o) (remoteOnly o)
      (academia o) (consulting o) (publicSector o) (privateSector o) (weights o).

Definition set_academia (o : PrefsObj) (v : bool) : PrefsObj :=
    mkPrefsObj (keywords o) (blockedKeywords o) (preferredLocations o)
      (excludedLocations o) (minSalary o) (workTypes o) (industries o) (seniority o)
      (remoteOnly o) v (consulting o) (publicSector o) (privateSector o) (weights o).

Definition set_consulting (o : PrefsObj) (v : bool) : PrefsObj :=
    mkPrefsObj (keywords o) (blockedKeywords o) (preferredLocations o)
      (excludedLocations o) (minSalary o) (workTypes o) (industries o) (seniority o)
      (remoteOnly o) (academia o) v (publicSector o) (privateSector o) (weights o).

Definition set_weights (o : PrefsObj) (v : loc) : PrefsObj :=
    mkPrefsObj (keywords o) (blockedKeywords o) (preferredLocations o)
      (excludedLocations o) (minSalary o) (workTypes o) (industries o) (seniority o)
      (remoteOnly o) (academia o) (consulting o) (publicSector o) (privateSector o) v.

Inductive object :=
  | OPrefs (o : PrefsObj)
  | OArray (a : list string)
  | OWeights (w : gmap string number).

Abbreviation heap := (list object).

  (** State and failure. *)
Definition M (A : Type) : Type := heap -> option (A * heap).

#[global] Instance M_ret : MRet M := fun A x h => Some (x, h).
#[global] Instance M_bind : MBind M :=
    fun A B f m h =>
      match m h with
      | Some (x, h') => f x h'
      | None => None
      end.

Definition fail {A} : M A := fun _ => None.

  (** [{ ... }] and [[ ... ]]: a new object at the next free index. *)
Definition alloc (o : object) : M loc := fun h => Some (length h, h ++ [o]).

Definition read (l : loc) : M object :=
    fun h => match h !! l with Some o => Some (o, h) | None => None end.

Definition write (l : loc) (o : object) : M unit :=
    fun h => if decide (l < length h) then Some (tt, <[l := o]> h) else None.

Definition readPrefs (l : loc) : M PrefsObj :=
    o ← read l; match o with OPrefs p => mret p | _ => fail end.

Definition readArray (l : loc) : M (list string) :=
    o ← read l; match o with OArray a => mret a | _ => fail end.

Definition readWeights (l : loc) : M (gmap string number) :=
    o ← read l; match o with OWeights w => mret w | _ => fail end.

Definition when (c : bool) (m : M unit) : M unit := if c then m else mret tt.

Fixpoint forEach {A} (arr : list A) (f : A -> M unit) : M unit :=
    match arr with
    | [] => mret tt
    | x :: rest => f x;; forEach rest f
    end.

  (** [newPrefs.weights.k = f(newPrefs.weights.k)] *)
Definition updateWeight (newPrefs : loc) (k : string) (f : number -> number) : M unit :=
    o ← readPrefs newPrefs;
    w ← readWeights (weights o);
    write (weights o) (OWeights (<[k := f (weight w k)]> w)).

  (** The body of the [forEach] callback. *)
Definition learnTag `{JS.Host} (liked : bool) (newPrefs : loc) (t : string) : M unit :=
    let tLower := JS.toLowerCase t in
    if liked then
      o ← readPrefs newPrefs;
      ks ← readArray (keywords o);
      when (negb (JS.Array_includes ks tLower))
        (a ← alloc (OArray (ks ++ [tLower]));
         o ← readPrefs newPrefs;
         write newPrefs (OPrefs (set_keywords o a)))
    else
      o ← readPrefs newPrefs;
      ks ← readArray (blockedKeywords o);
      when (negb (JS.Array_includes ks tLower))
        (a ← alloc (OArray (ks ++ [tLower]));
         o ← readPrefs newPrefs;
         write newPrefs (OPrefs (set_blockedKeywords o a))).

Definition learnFromFeedback `{JS.Host}
    (prefs : loc) (job : Job) (liked : bool) (notes : string)
    (selectedTags : list string) : M loc :=
    let delta := if liked then 0.15%float else (-0.12)%float in
    (* const newPrefs = { ...prefs, weights: { ...prefs.weights } } *)
    o ← readPrefs prefs;
    w ← readWeights (weights o);
    wcopy ← alloc (OWeights w);
    newPrefs ← alloc (OPrefs (set_weights o wcopy));
    when liked
      (updateWeight newPrefs "keywordMatch" (fun x => clamp (x + 0.05) 0.6 2.2)%float);;
    when (negb liked)
      (updateWeight newPrefs "negativeKeyword"
         (fun x => clamp (x - 0.05) (-3) (-0.6))%float);;
    forEach (tagsToLearn job selectedTags) (learnTag liked newPrefs);;
    let n := JS.toLowerCase notes in
    when (JS.includes n "salary" || JS.includes n "pay")
      (updateWeight newPrefs "salary" (fun x => clamp (x + delta) 0.2 2.4)%float);;
    when (JS.includes n "remote" || JS.includes n "hybrid")
      (updateWeight newPrefs "remote" (fun x => clamp (x + delta) 0 1.4)%float);;
    when (JS.includes n "leadership" || JS.includes n "manager"
          || JS.includes n "director")
      (updateWeight newPrefs "seniority" (fun x => clamp (x + delta) 0.2 2)%float);;
    when (JS.includes n "consult")
      (o ← readPrefs newPrefs; write newPrefs (OPrefs (set_consulting o liked)));;
    when (JS.includes n "university" || JS.includes n "academic")
      (o ← readPrefs newPrefs; write newPrefs (OPrefs (set_academia o liked)));;
    mret newPrefs.

  (** The profile value an object denotes in a store. *)
Definition arrayAt (h : heap) (l : loc) : option (list string) :=
    match h !! l with Some (OArray a) => Some a | _ => None end.

Definition weightsAt (h : heap) (l : loc) : option (gmap string number) :=
    match h !! l with Some (OWeights w) => Some w | _ => None end.

Definition deref (h : heap) (o : PrefsObj) : option Preferences :=
    ks ← arrayAt h (keywords o);
    bs ← arrayAt h (blockedKeywords o);
    pl ← arrayAt h (preferredLocations o);
    el ← arrayAt h (excludedLocations o);
    wt ← arrayAt h (workTypes o);
    ind ← arrayAt h (industries o);
    sen ← arrayAt h (seniority o);
    w ← weightsAt h (weights o);
    Some (Preferences.mk ks bs pl el (minSalary o) wt ind sen (remoteOnly o)
            (academia o) (consulting o) (publicSector o) (privateSector o) w).

Definition snapshot (h : heap) (p : loc) : option Preferences :=
    match h !! p with Some (OPrefs o) => deref h o | _ => None end.

End Store.

(** ** Source aggregation *)

(** [Map<string, V>]: the entries in insertion order; [set] on a key
    already present replaces the value and keeps the entry's position. *)
Module JSMap.
Definition t (V : Type) : Type := list (string * V).

Fixpoint set {V} (m : t V) (k : string) (v : V) : t V :=
    match m with
    | [] => [(k, v)]
    | (k', v') :: m' =>
        if String.eqb k' k then (k', v) :: m' else (k', v') :: set m' k v
    end.

Fixpoint get {V} (m : t V) (k : string) : option V :=
    match m with
    | [] => None
    | (k', v') :: m' => if String.eqb k' k then Some v' else get m' k
    end.

Definition keys {V} (m : t V) : list string := map fst m.

Definition values {V} (m : t V) : list V := map snd m.
End JSMap.

(** An entry of the adapter registry. The promise a fetcher returns is
    represented by the way it settles. *)
Record Adapter := {
  name : string;
  enabled : bool;
  fetcher : string -> string -> JS.Settled (list Job)
}.

(** [Promise.allSettled] is fulfilled with the outcomes of its promises, in
    their order, whether they were fulfilled or rejected. *)
Definition Promise_allSettled {A} (promises : list (JS.Settled A))
  : JS.Settled (list (JS.Settled A)) :=
  JS.fulfilled promises.

(** The key of the de-duplication: [`${j.source}-${j.id}`]. *)
Definition dedupKey (j : Job) : string := Job.source j +:+ "-" +:+ Job.id j.

Definition dedup (jobs : list Job) : list Job :=
  JSMap.values (fold_left (fun m j => JSMap.set m (dedupKey j) j) jobs []).

(** The callback of [batches.forEach], run over the batches in order: a
    fulfilled batch is pushed on [jobs], a rejected one is reported with
    [console.warn]. A [throw] inside the callback ends the loop. *)
Fixpoint collect `{JS.Host} (batches : list (JS.Settled (list Job) * Adapter))
  (jobs : list Job) (console : list string) : JS.Completion (list Job) * list string :=
  match batches with
  | [] => (JS.normal jobs, console)
  | (b, a) :: rest =>
      match b with
      | JS.fulfilled value =>
          match JS.Array_push_spread jobs value with
          | JS.normal jobs' => collect rest jobs' console
          | JS.throw error => (JS.throw error, console)
          end
      | JS.rejected reason =>
          collect rest jobs
            (console ++ ["Adapter failed: " +:+ name a +:+ " " +:+ reason])
      end
  end.

(** The outcome of the promise [fetchJobs] returns, with the lines it wrote
    through [console.warn] (the arguments of a call joined by spaces). An
    [await] of a rejected promise, and a [throw] in the body, reject the
    function's own promise. *)
Definition fetchJobs `{JS.Host}
  (jobAdapters : list Adapter) (query location : string) (enabledOnly : bool)
  : JS.Settled (list Job) * list string :=
  let adapters :=
    List.filter (fun a => if enabledOnly then enabled a else true) jobAdapters in
  match Promise_allSettled (map (fun a => fetcher a query location) adapters) with
  | JS.rejected reason => (JS.rejected reason, [])
  | JS.fulfilled batches =>
      match collect (combine batches adapters) [] [] with
      | (JS.normal jobs, console) => (JS.fulfilled (dedup jobs), console)
      | (JS.throw error, console) => (JS.rejected error, console)
      end
  end.

(** ** A date parser for the simplified ISO 8601 format

    [Date.parse] on strings of the form [YYYY-MM-DDTHH:mm:ss.sssZ], the
    form [Date.prototype.toISOString] produces and the demo adapter
    stores in [postedAt]; every other string is left unparsed (NaN). It
    instantiates [Date_parse] where a concrete date is needed: a string of
    this form denotes the same instant in every time zone. *)

Module ISO.

Definition digit (c : ascii) : option Z :=
    let n := Z.of_nat (nat_of_ascii c) in
    if ((48 <=? n) && (n <=? 57))%Z then Some (n - 48)%Z else None.

Fixpoint numeral (acc : Z) (cs : list ascii) : option Z :=
    match cs with
    | [] => Some acc
    | c :: cs' =>
        match digit c with
        | Some d => numeral (10 * acc + d)%Z cs'
        | None => None
        end
    end.

Definition leap (y : Z) : bool :=
    ((y mod 4 =? 0) && (negb (y mod 100 =? 0) || (y mod 400 =? 0)))%Z.

Definition daysInMonth (y m : Z) : Z :=
    if (m =? 2)%Z then (if leap y then 29 else 28)%Z
    else if ((m =? 4) || (m =? 6) || (m =? 9) || (m =? 11))%Z then 30%Z
    else 31%Z.

  (** Days from 1970-01-01 to the civil date [y-m-d]. *)
Definition daysFromCivil (y m d : Z) : Z :=
    let y' := (if m <=? 2 then y - 1 else y)%Z in
    let era := (y' / 400)%Z in
    let yoe := (y' - era * 400)%Z in
    let mp := ((m + 9) mod 12)%Z in
    let doy := ((153 * mp + 2) / 5 + d - 1)%Z in
    let doe := (yoe * 365 + yoe / 4 - yoe / 100 + doy)%Z in
    (era * 146097 + doe - 719468)%Z.

Definition timeValue (s : string) : option Z :=
    match list_ascii_of_string s with
    | [y1; y2; y3; y4; "-"; m1; m2; "-"; d1; d2; "T";
       h1; h2; ":"; i1; i2; ":"; s1; s2; "."; f1; f2; f3; "Z"]%char =>
        y ← numeral 0 [y1; y2; y3; y4];
        m ← numeral 0 [m1; m2];
        d ← numeral 0 [d1; d2];
        h ← numeral 0 [h1; h2];
        mi ← numeral 0 [i1; i2];
        sec ← numeral 0 [s1; s2];
        ms ← numeral 0 [f1; f2; f3];
        if ((1 <=? m) && (m <=? 12) && (1 <=? d) && (d <=? daysInMonth y m)
            && (h <=? 23) && (mi <=? 59) && (sec <=? 59))%Z
        then Some (daysFromCivil y m d * 86400000 + h * 3600000
                   + mi * 60000 + sec * 1000 + ms)%Z
        else None
    | _ => None
    end.

Definition Date_parse (s : string) : number :=
    match timeValue s with
    | Some t => JS.of_Z t
    | None => nan
    end.

End ISO.

(** ** What the engine asks of its environment

    The code of the page reaches outside its arguments in four ways: it
    makes a [Date] from a string, it reads the clock, it writes a line on
    the console, and it reads and writes the browser's local storage. A
    function that does so is a program of requests: each request is
    answered by the environment, and the answer decides how the program
    goes on. [Ambient.scoreJob] is [scoreJob] written in this form, with
    the two requests of [daysSince] left to the environment. *)

Module Ambient.

  (** [new Date(dateIso).getTime()] (a string without a time zone is read
      in the time zone of the host), [Date.now()],
      [console.warn(line)], [localStorage.getItem(key)] and
      [localStorage.setItem(key, value)]. *)
Inductive request : Type -> Type :=
  | NewDate (dateIso : string) : request number
  | DateNow : request number
  | ConsoleWarn (line : string) : request unit
  | StorageGet (key : string) : request (option string)
  | StorageSet (key value : string) : request unit.

Inductive Prog (A : Type) : Type :=
  | Ret (a : A)
  | Ask {X : Type} (r : request X) (k : X -> Prog A).
Arguments Ret {A} a.
Arguments Ask {A X} r k.

Fixpoint bind {A B} (p : Prog A) (f : A -> Prog B) : Prog B :=
    match p with
    | Ret a => f a
    | Ask r k => Ask r (fun x => bind (k x) f)
    end.








  (** [daysSince]: the date is made first, then the clock is read. *)
Definition daysSince (dateIso : option string) : Prog number :=
    match dateIso with
    | None => Ret 999%float
    | Some EmptyString => Ret 999%float
    | Some s =>
        Ask (NewDate s) (fun d =>
        Ask DateNow (fun now =>
        let diff := (now - d)%float in
        Ret (JS.Math_floor (diff / (1000 * 60 * 60 * 24))%float)))
    end.

  (** [scoreJob]: eight factors computed from the arguments, and the
      recency factor from the age that [daysSince] returns. *)
Definition scoreJob `{JS.Host} (job : Job) (prefs : Preferences) : Prog number :=
    let w := Preferences.weights prefs in
    let kwScore := kwScore job prefs in
    let negScore := negScore job prefs in
    let locationScore := locationScore job prefs in
    let salaryScore := salaryScore job prefs in
    let workTypeScore := workTypeScore job prefs in
    let industryScore := industryScore job prefs in
    let seniorityScore := seniorityScore job prefs in
    let remoteScore := remoteScore job prefs in
    bind (daysSince (Job.postedAt job)) (fun d =>
    let recencyScore :=
      if (d <? 21)%float then (weight w "recency" * ((21 - d) / 21))%float
      else 0%float in
    Ret (kwScore + negScore + locationScore + salaryScore + workTypeScore
         + industryScore + seniorityScore + remoteScore + recencyScore)%float).

End Ambient.

(** ** Notions used to state the properties *)

(** [lo <= x <= hi] on numbers; false when [x] is NaN. *)
Definition inRange (lo hi x : number) : bool :=
  ((lo <=? x) && (x <=? hi))%float.

(** The outcome of a clamped move to [target], in the terms of the
    specification: the result lies within the bounds; it is the target
    when the target lies within them, the upper bound when the target is
    above them and the lower bound when it is below them (as numbers). *)
Definition clampedTo (lo hi target result : number) : Prop :=
  inRange lo hi result = true
  /\ (inRange lo hi target = true -> (result =? target)%float = true)
  /\ ((hi <? target)%float = true -> (result =? hi)%float = true)
  /\ ((target <? lo)%float = true -> (result =? lo)%float = true).

(** The clamp ranges of the five weights the learner adjusts. *)
Definition clampInvariant (p : Preferences) : Prop :=
  let w := Preferences.weights p in
  inRange 0.6 2.2 (weight w "keywordMatch") = true
  /\ inRange (-3) (-0.6) (weight w "negativeKeyword") = true
  /\ inRange 0.2 2.4 (weight w "salary") = true
  /\ inRange 0 1.4 (weight w "remote") = true
  /\ inRange 0.2 2 (weight w "seniority") = true.

(** The statements of [learnFromFeedback] that follow the [forEach], as a
    function of the profile reached there. *)
Definition learnNotes `{JS.Host} (liked : bool) (notes : string) (newPrefs : Preferences)
  : Preferences :=
  let delta := if liked then 0.15%float else (-0.12)%float in
  let n := JS.toLowerCase notes in
  let newPrefs :=
    if JS.includes n "salary" || JS.includes n "pay"
    then updateWeight newPrefs "salary" (fun x => clamp (x + delta) 0.2 2.4)%float
    else newPrefs in
  let newPrefs :=
    if JS.includes n "remote" || JS.includes n "hybrid"
    then updateWeight newPrefs "remote" (fun x => clamp (x + delta) 0 1.4)%float
    else newPrefs in
  let newPrefs :=
    if JS.includes n "leadership" || JS.includes n "manager" || JS.includes n "director"
    then updateWeight newPrefs "seniority" (fun x => clamp (x + delta) 0.2 2)%float
    else newPrefs in
  let newPrefs :=
    if JS.includes n "consult" then Preferences.set_consulting newPrefs liked
    else newPrefs in
  if JS.includes n "university" || JS.includes n "academic"
  then Preferences.set_academia newPrefs liked
  else newPrefs.

(** The learner's adjustments, as the specification tabulates them: the
    move and the clamp bounds an event with the given liked flag and notes
    applies to the weight [k], if it adjusts that weight. *)
Definition adjustment `{JS.Host} (liked : bool) (notes : string) (k : string)
  : option ((number -> number) * number * number) :=
  let n := JS.toLowerCase notes in
  let delta := if liked then 0.15%float else (-0.12)%float in
  if String.eqb k "keywordMatch" then
    if liked then Some (fun x => x + 0.05, 0.6, 2.2)%float else None
  else if String.eqb k "negativeKeyword" then
    if liked then None else Some (fun x => x - 0.05, -3, -0.6)%float
  else if String.eqb k "salary" then
    if JS.includes n "salary" || JS.includes n "pay"
    then Some (fun x => x + delta, 0.2, 2.4)%float else None
  else if String.eqb k "remote" then
    if JS.includes n "remote" || JS.includes n "hybrid"
    then Some (fun x => x + delta, 0, 1.4)%float else None
  else if String.eqb k "seniority" then
    if JS.includes n "leadership" || JS.includes n "manager" || JS.includes n "director"
    then Some (fun x => x + delta, 0.2, 2)%float else None
  else None.

(** The elements of [l] that are not in [seen], each kept once, at its
    first occurrence: what appending "unless already present" adds to a
    list [seen] when the candidates [l] are offered in order. *)
Fixpoint firstOccurrences (seen l : list string) : list string :=
  match l with
  | [] => []
  | x :: l' =>
      if bool_decide (x ∈ seen) then firstOccurrences seen l'
      else x :: firstOccurrences (seen ++ [x]) l'
  end.

(** The postings the fulfilled adapters returned, in adapter order: what
    [fetchJobs] pushes on [jobs] before it de-duplicates. *)
Definition fulfilledJobs (adapters : list Adapter) (query location : string) : list Job :=
  concat
    (map (fun a =>
            match fetcher a query location with
            | JS.fulfilled value => value
            | JS.rejected _ => []
            end)
       adapters).

(** The last posting of [jobs] with the key [k]. *)
Definition lastWithKey (k : string) (jobs : list Job) : option Job :=
  last (List.filter (fun j => String.eqb (dedupKey j) k) jobs).

(** Whether the batch of an adapter can be pushed on [jobs]: a rejected
    adapter has none, a fulfilled one is spread into one call of [push]. *)
Definition batchFits `{JS.Host} (query location : string) (a : Adapter) : bool :=
  match fetcher a query location with
  | JS.fulfilled value => JS.canSpread (length value)
  | JS.rejected _ => true
  end.

(** The adapters in front of the first one whose batch cannot be pushed. *)
Fixpoint beforeOverflow `{JS.Host} (query location : string) (adapters : list Adapter)
  : list Adapter :=
  match adapters with
  | [] => []
  | a :: rest =>
      if batchFits query location a then a :: beforeOverflow query location rest else []
  end.

(** ** Sample inputs *)

(** The first posting of the demo adapter, at a fixed posting date. *)
Definition demoJob1 : Job :=
  Job.mk "1" "Senior People Analytics Consultant" "BrightPath Consulting"
    "Sydney (Hybrid)" "https://example.com/jobs/1"
    (Some "2024-05-01T09:00:00.000Z")
    (Some "Lead organisational psychology projects, design experiments, and partner with clients on leadership and culture programs. Strong statistics + R/Python preferred.")
    "DEMO"
    (Some ["people analytics"; "leadership"; "consulting"; "statistics"])
    (Some 170000%float) (Some 210000%float)
    (Some "Full-time") (Some "Senior") None (Some true).

(** The default profile after the [salary] weight was moved to the upper
    end of its slider in the weights editor (range -2.5 to 2.5). *)
Definition sliderPrefs : Preferences :=
  set_weight defaultPreferences "salary" 2.5%float.

(** A like without notes and without selected tags. *)
Definition plainLike : Feedback :=
  {| fb_job := demoJob1; fb_liked := true; fb_notes := ""; fb_tags := [] |}.

(** A store that holds the default profile: its seven arrays, its weight
    object, and the profile object itself at index 8. *)
Definition defaultStore : list Store.object :=
  [ Store.OArray (Preferences.keywords defaultPreferences);
    Store.OArray (Preferences.blockedKeywords defaultPreferences);
    Store.OArray (Preferences.preferredLocations defaultPreferences);
    Store.OArray (Preferences.excludedLocations defaultPreferences);
    Store.OArray (Preferences.workTypes defaultPreferences);
    Store.OArray (Preferences.industries defaultPreferences);
    Store.OArray (Preferences.seniority defaultPreferences);
    Store.OWeights (Preferences.weights defaultPreferences);
    Store.OPrefs
      (Store.mkPrefsObj 0 1 2 3 (Preferences.minSalary defaultPreferences) 4 5 6
         false true true true true 7) ].

(** Two readings of the clock: three days and sixty days after
    [demoJob1] was posted. *)
Definition threeDaysLater : number := ISO.Date_parse "2024-05-04T09:00:00.000Z".

(** [demoJob1] without a posting date. *)
Definition undatedJob : Job :=
  Job.mk "1" "Senior People Analytics Consultant" "BrightPath Consulting"
    "Sydney (Hybrid)" "https://example.com/jobs/1" None
    (Job.description demoJob1) "DEMO" (Job.tags demoJob1)
    (Some 170000%float) (Some 210000%float)
    (Some "Full-time") (Some "Senior") None (Some true).

(** A posting with the given source, identifier and title and no optional
    field. *)
Definition posting (source id title : string) : Job :=
  Job.mk id title "" "" "" None None source None None None None None None None.

(** An adapter whose request fails, one that returns three postings, and
    one that returns three postings of which two are the same listing
    (same source and identifier), fetched before and after an edit. *)
Definition failingAdapter : Adapter :=
  {| name := "SEEK"; enabled := true;
     fetcher := fun _ _ => JS.rejected "503 Service Unavailable" |}.

Definition threePostings : list Job :=
  [ posting "DEMO" "1" "Senior People Analytics Consultant";
    posting "DEMO" "2" "Director, Behavioural Insights (Health)";
    posting "DEMO" "3" "Head of Organisational Development" ].


Definition repostedPostings : list Job :=
  [ posting "DEMO" "1" "Senior People Analytics Consultant";
    posting "DEMO" "1" "Senior People Analytics Consultant (updated)";
    posting "DEMO" "2" "Director, Behavioural Insights (Health)" ].


(** Postings of two sources, [uni] and [uni-sydney], whose key strings
    coincide although their (source, identifier) pairs differ. *)
Definition collidingPostings : list Job :=
  [ posting "uni" "sydney-42" "Lecturer in Organisational Psychology";
    posting "uni" "sydney-42" "Senior Lecturer in Organisational Psychology";
    posting "uni-sydney" "42" "People Analytics Lead" ].

(** A profile whose stored weight object lacks the [recency] key (reading
    it gives [undefined], NaN in the score of a recent posting), and two
    postings: one dated and recent, one without a date. *)
Definition staleWeightsPrefs : Preferences :=
  Preferences.set_weights defaultPreferences
    (delete "recency" (Preferences.weights defaultPreferences)).

(** Three postings to rank: two with equal scores around a higher one. *)
Definition rankSample : list Job :=
  [ posting "DEMO" "7" "Policy Officer"; demoJob1; posting "DEMO" "9" "Risk Analyst" ].



Definition twentyLikes : list Feedback := List.repeat plainLike 20.



(** ** Saved roles and tag selection

    The state updates of the page component that are plain functions of
    the state: [handleSave] computes the next [saved] list (the value it
    hands to [setSaved] and to [saveState]); the tag badges of the
    feedback form toggle an entry of [selected]; the form shows the
    first twelve tags of the posting. *)

(** [saved.find((j) => j.id === job.id) ? saved : [...saved, job]] *)
Definition handleSave (saved : list Job) (job : Job) : list Job :=
  if existsb (fun j => String.eqb (Job.id j) (Job.id job)) saved
  then saved
  else saved ++ [job].

(** [s.includes(t) ? s.filter((x) => x !== t) : [...s, t]] *)
Definition toggleSelected (s : list string) (t : string) : list string :=
  if JS.Array_includes s t
  then List.filter (fun x => negb (String.eqb x t)) s
  else s ++ [t].

(** [(job.tags || []).slice(0, 12)] *)
Definition shownTags (job : Job) : list string :=
  take 12 (default [] (Job.tags job)).

(** The weight sliders: [{ ...prefs, weights: { ...prefs.weights, [k]: v } }] *)
Definition editWeight (prefs : Preferences) (k : string) (v : number) : Preferences :=
  Preferences.set_weights prefs (<[k := v]> (Preferences.weights prefs)).

(** The step of the notes-driven nudges: [liked ? 0.15 : -0.12]. *)
Definition noteDelta (liked : bool) : number :=
  if liked then 0.15%float else (-0.12)%float.

(** The fields the learner never assigns. *)
Definition sameSettings (p q : Preferences) : Prop :=
  Preferences.preferredLocations p = Preferences.preferredLocations q
  /\ Preferences.excludedLocations p = Preferences.excludedLocations q
  /\ Preferences.minSalary p = Preferences.minSalary q
  /\ Preferences.workTypes p = Preferences.workTypes q
  /\ Preferences.industries p = Preferences.industries q
  /\ Preferences.seniority p = Preferences.seniority q
  /\ Preferences.remoteOnly p = Preferences.remoteOnly q
  /\ Preferences.publicSector p = Preferences.publicSector q
  /\ Preferences.privateSector p = Preferences.privateSector q.


(** The five weight keys the learner assigns, with their clamp ranges. *)
Definition learnedKeys : list string :=
  ["keywordMatch"; "negativeKeyword"; "salary"; "remote"; "seniority"].


(** The lines [fetchJobs] writes with [console.warn]: one for each
    rejected adapter, in adapter order. *)
Definition rejections (adapters : list Adapter) (query location : string) : list string :=
  flat_map
    (fun a =>
       match fetcher a query location with
       | JS.fulfilled _ => []
       | JS.rejected reason => ["Adapter failed: " +:+ name a +:+ " " +:+ reason]
       end)
    adapters.

(** A string without the separator of the de-duplication key. *)
Fixpoint noHyphen (s : string) : bool :=
  match s with
  | EmptyString => true
  | String c s' => negb (Ascii.eqb c "-") && noHyphen s'
  end.

(** Two postings with the same source and the same identifier. *)
Definition samePair (a b : Job) : bool :=
  String.eqb (Job.source a) (Job.source b) && String.eqb (Job.id a) (Job.id b).

(** ** A host for the worked examples

    The examples are ASCII text, on which [foldASCII] is the platform's
    [toLowerCase]; the argument limit is that of a host which passes up to
    65535 arguments. *)

Lemma foldASCII_space (a b : string) :
  JS.foldASCII (a +:+ " " +:+ b) = JS.foldASCII a +:+ " " +:+ JS.foldASCII b.
Proof.
  induction a as [|c a IH]; [reflexivity|].
  change (String (JS.toLowerCase_ascii c) (JS.foldASCII (a +:+ " " +:+ b))
          = String (JS.toLowerCase_ascii c) (JS.foldASCII a +:+ " " +:+ JS.foldASCII b)).
  now rewrite IH.
Qed.

#[global] Instance exampleHost : JS.Host := {|
  JS.toLowerCase := JS.foldASCII;
  JS.toLowerCase_ASCII := fun s _ => eq_refl;
  JS.toLowerCase_space := foldASCII_space;
  JS.canSpread := fun n => (N.of_nat n <=? 65535)%N
|}.

(** * Properties *)

(** ** Facts about binary64 numbers

    The comparisons and operations of [float] are specified by the
    standard library against [spec_float]; the facts below are proved on
    that specification and carried over. *)

Section SpecFloatFacts.

Lemma SFcompare_antisym (a b : spec_float) :
    SFcompare a b = option_map CompOpp (SFcompare b a).
Proof.
    destruct a as [[]|[]| |[] ma ea], b as [[]|[]| |[] mb eb]; simpl; try reflexivity.
    - rewrite (Z.compare_antisym ea eb).
      destruct (ea ?= eb)%Z; simpl; try reflexivity.
      rewrite (Pos.compare_cont_antisym mb ma Eq). simpl.
      now destruct (Pos.compare_cont Eq ma mb).
    - rewrite (Z.compare_antisym ea eb).
      destruct (ea ?= eb)%Z; simpl; try reflexivity.
      now rewrite (Pos.compare_cont_antisym mb ma Eq).
Qed.

Lemma SFcompare_refl (a : spec_float) :
    a <> S754_nan -> SFcompare a a = Some Eq.
Proof.
    destruct a as [[]|[]| |[] m e]; simpl; intros H; try reflexivity; try congruence.
    - rewrite Z.compare_refl. now rewrite Pos.compare_cont_refl.
    - rewrite Z.compare_refl. now rewrite Pos.compare_cont_refl.
Qed.

Lemma SFcompare_None (a b : spec_float) :
    SFcompare a b = None <-> a = S754_nan \/ b = S754_nan.
Proof.
    destruct a as [[]|[]| |[] ma ea], b as [[]|[]| |[] mb eb]; simpl;
      split; intros H; try discriminate; try (destruct H; discriminate);
      auto.
Qed.

End SpecFloatFacts.

Section FloatFacts.

Local Open Scope float_scope.

Lemma is_nan_spec (x : float) :
    PrimFloat.is_nan x = true <-> Prim2SF x = S754_nan.
Proof.
    unfold PrimFloat.is_nan. rewrite FloatAxioms.eqb_spec. unfold SFeqb. split.
    - intros H. destruct (Prim2SF x) eqn:E; try reflexivity;
        rewrite SFcompare_refl in H by discriminate; discriminate.
    - intros ->. reflexivity.
Qed.

Lemma is_nan_false (x : float) :
    PrimFloat.is_nan x = false <-> Prim2SF x <> S754_nan.
Proof.
    rewrite <- is_nan_spec. destruct (PrimFloat.is_nan x); split; congruence.
Qed.

Lemma ltb_leb (x y : float) : (x <? y) = true -> (x <=? y) = true.
Proof.
    rewrite FloatAxioms.ltb_spec, FloatAxioms.leb_spec. unfold SFltb, SFleb.
    now destruct (SFcompare (Prim2SF x) (Prim2SF y)) as [[]|].
Qed.

Lemma leb_refl (x : float) : PrimFloat.is_nan x = false -> (x <=? x) = true.
Proof.
    rewrite is_nan_false, FloatAxioms.leb_spec. unfold SFleb. intros H.
    now rewrite SFcompare_refl.
Qed.

Lemma leb_not_nan (x y : float) :
    (x <=? y) = true -> PrimFloat.is_nan x = false /\ PrimFloat.is_nan y = false.
Proof.
    rewrite FloatAxioms.leb_spec, !is_nan_false. unfold SFleb. intros H.
    split; intros E; rewrite E in H; simpl in H; try discriminate.
    now destruct (Prim2SF x).
Qed.

Lemma leb_ltb_false (x y : float) : (x <=? y) = true -> (y <? x) = false.
Proof.
    rewrite FloatAxioms.leb_spec, FloatAxioms.ltb_spec. unfold SFleb, SFltb.
    rewrite (SFcompare_antisym (Prim2SF y) (Prim2SF x)).
    now destruct (SFcompare (Prim2SF x) (Prim2SF y)) as [[]|].
Qed.

Lemma ltb_false_leb (x y : float) :
    PrimFloat.is_nan x = false -> PrimFloat.is_nan y = false ->
    (x <? y) = false -> (y <=? x) = true.
Proof.
    rewrite !is_nan_false, FloatAxioms.leb_spec, FloatAxioms.ltb_spec. unfold SFleb, SFltb.
    intros Hx Hy. rewrite (SFcompare_antisym (Prim2SF y) (Prim2SF x)).
    destruct (SFcompare (Prim2SF x) (Prim2SF y)) as [[]|] eqn:E; simpl; try easy.
    apply SFcompare_None in E. tauto.
Qed.

Lemma is_zero_spec (x : float) :
    PrimFloat.is_zero x = true -> exists s, Prim2SF x = S754_zero s.
Proof.
    unfold PrimFloat.is_zero. rewrite FloatAxioms.eqb_spec. unfold SFeqb.
    change (Prim2SF PrimFloat.zero) with (S754_zero false).
    destruct (Prim2SF x) as [s|[]| |[] m e]; simpl; try discriminate.
    intros _. now exists s.
Qed.

Lemma zero_leb_zero (x y : float) :
    PrimFloat.is_zero x = true -> PrimFloat.is_zero y = true -> (x <=? y) = true.
Proof.
    intros [sx Hx]%is_zero_spec [sy Hy]%is_zero_spec.
    rewrite FloatAxioms.leb_spec, Hx, Hy. reflexivity.
Qed.

Lemma is_zero_not_nan (x : float) :
    PrimFloat.is_zero x = true -> PrimFloat.is_nan x = false.
Proof.
    intros [s H]%is_zero_spec. apply is_nan_false. rewrite H. discriminate.
Qed.

  (** Folding from the infinities: the first step of [Math.max] and
      [Math.min] returns the first argument. *)
Lemma max_step_neg_infinity (a : float) :
    PrimFloat.is_nan a = false -> JS.max_step neg_infinity a = a.
Proof.
    intros Ha. unfold JS.max_step, JS.is_neg_zero.
    change (PrimFloat.is_zero neg_infinity) with false.
    rewrite andb_false_r. simpl.
    destruct (neg_infinity <? a) eqn:E; [reflexivity|].
    apply Prim2SF_inj. apply is_nan_false in Ha.
    rewrite FloatAxioms.ltb_spec in E. change (Prim2SF neg_infinity) with (S754_infinity true) in *.
    unfold SFltb in E.
    destruct (Prim2SF a) as [[]|[]| |[] m e]; simpl in E; congruence.
Qed.

Lemma min_step_infinity (a : float) :
    PrimFloat.is_nan a = false -> JS.min_step infinity a = a.
Proof.
    intros Ha. unfold JS.min_step, JS.is_pos_zero.
    change (PrimFloat.is_zero infinity) with false.
    rewrite andb_false_r. simpl.
    destruct (a <? infinity) eqn:E; [reflexivity|].
    apply Prim2SF_inj. apply is_nan_false in Ha.
    rewrite FloatAxioms.ltb_spec in E. change (Prim2SF infinity) with (S754_infinity false) in *.
    unfold SFltb in E.
    destruct (Prim2SF a) as [[]|[]| |[] m e]; simpl in E; congruence.
Qed.

Lemma Math_max_not_nan (a b : float) :
    PrimFloat.is_nan a = false -> PrimFloat.is_nan b = false ->
    JS.Math_max a b = JS.max_step a b.
Proof.
    intros Ha Hb. unfold JS.Math_max. rewrite Ha, Hb. simpl.
    now rewrite max_step_neg_infinity.
Qed.

Lemma Math_min_not_nan (a b : float) :
    PrimFloat.is_nan a = false -> PrimFloat.is_nan b = false ->
    JS.Math_min a b = JS.min_step a b.
Proof.
    intros Ha Hb. unfold JS.Math_min. rewrite Ha, Hb. simpl.
    now rewrite min_step_infinity.
Qed.

  (** A clamped number lies between the bounds, unless it is NaN. *)
Lemma clamp_inRange (n lo hi : float) :
    (lo <=? hi) = true -> PrimFloat.is_nan n = false ->
    inRange lo hi (clamp n lo hi) = true.
Proof.
    intros Hlh Hn. destruct (leb_not_nan _ _ Hlh) as [Hlo Hhi].
    unfold clamp. rewrite (Math_min_not_nan hi n) by assumption.
    assert (Hm : PrimFloat.is_nan (JS.min_step hi n) = false
                 /\ (JS.min_step hi n <=? hi) = true).
    { unfold JS.min_step.
      destruct (JS.is_neg_zero n && JS.is_pos_zero hi) eqn:Z.
      - split; [assumption|]. apply andb_true_iff in Z as [Z1 Z2].
        apply andb_true_iff in Z1 as [Z1 _]. apply andb_true_iff in Z2 as [Z2 _].
        now apply zero_leb_zero.
      - destruct (n <? hi) eqn:L.
        + split; [assumption|]. now apply ltb_leb.
        + split; [assumption|]. now apply leb_refl. }
    destruct Hm as [Hm1 Hm2]. set (m := JS.min_step hi n) in *.
    rewrite (Math_max_not_nan lo m) by assumption.
    unfold inRange, JS.max_step.
    destruct (JS.is_pos_zero m && JS.is_neg_zero lo) eqn:Z.
    - rewrite Hm2, andb_true_r. apply andb_true_iff in Z as [Z1 Z2].
      apply andb_true_iff in Z1 as [Z1 _]. apply andb_true_iff in Z2 as [Z2 _].
      now apply zero_leb_zero.
    - destruct (lo <? m) eqn:L.
      + rewrite Hm2, andb_true_r. now apply ltb_leb.
      + rewrite Hlh, andb_true_r. now apply leb_refl.
Qed.

Lemma clamp_nan (lo hi : float) : clamp nan lo hi = nan.
Proof.
    unfold clamp, JS.Math_min.
    change (PrimFloat.is_nan nan) with true. rewrite orb_true_r.
    unfold JS.Math_max. change (PrimFloat.is_nan nan) with true.
    now rewrite orb_true_r.
Qed.

End FloatFacts.

(** Rounding never produces NaN: the mantissa stays non-negative through
    the shifts and the rounding. *)
Section RoundingFacts.

Lemma iter_pos_invariant {A} (P : A -> Prop) (f : A -> A) :
    (forall x, P x -> P (f x)) -> forall p x, P x -> P (SpecFloat.iter_pos f p x).
Proof.
    intros Hf. induction p as [p IH|p IH|]; intros x Hx; simpl; auto.
Qed.

Lemma shr_1_nonneg (mrs : shr_record) :
    (0 <= shr_m mrs)%Z -> (0 <= shr_m (shr_1 mrs))%Z.
Proof.
    destruct mrs as [[|[p|p|]|p] r s]; simpl; lia.
Qed.

Lemma shr_nonneg (mrs : shr_record) (e n : Z) :
    (0 <= shr_m mrs)%Z -> (0 <= shr_m (fst (shr mrs e n)))%Z.
Proof.
    intros H. destruct n as [|p|p]; simpl; try assumption.
    now apply (iter_pos_invariant (fun r => (0 <= shr_m r)%Z) shr_1 shr_1_nonneg).
Qed.

Lemma shr_m_of_loc (m : Z) (l : location) : shr_m (shr_record_of_loc m l) = m.
Proof. now destruct l as [|[]]. Qed.

Lemma shr_fexp_nonneg (m e : Z) (l : location) :
    (0 <= m)%Z -> (0 <= shr_m (fst (shr_fexp prec emax m e l)))%Z.
Proof.
    intros H. unfold shr_fexp. apply shr_nonneg. now rewrite shr_m_of_loc.
Qed.

Lemma round_nearest_even_nonneg (m : Z) (l : location) :
    (0 <= m)%Z -> (0 <= round_nearest_even m l)%Z.
Proof.
    intros H. destruct l as [|[]]; simpl; try lia. destruct (Z.even m); lia.
Qed.

Lemma binary_round_aux_not_nan (s : bool) (m e : Z) (l : location) :
    (0 <= m)%Z -> binary_round_aux prec emax s m e l <> S754_nan.
Proof.
    intros H. unfold binary_round_aux.
    pose proof (shr_fexp_nonneg m e l H) as H1.
    destruct (shr_fexp prec emax m e l) as [mrs' e'] eqn:E1. simpl in H1.
    pose proof (shr_fexp_nonneg _ e' loc_Exact
                  (round_nearest_even_nonneg _ (loc_of_shr_record mrs') H1)) as H2.
    destruct (shr_fexp prec emax
                (round_nearest_even (shr_m mrs') (loc_of_shr_record mrs')) e' loc_Exact)
      as [mrs'' e''] eqn:E2. simpl in H2.
    destruct (shr_m mrs'') as [|p|p]; try discriminate; try lia.
    now destruct (e'' <=? emax - prec)%Z.
Qed.

Lemma binary_round_not_nan (s : bool) (m : positive) (e : Z) :
    binary_round prec emax s m e <> S754_nan.
Proof.
    unfold binary_round.
    destruct (shl_align m e (fexp prec emax (Z.pos (digits2_pos m) + e))) as [mz ez].
    apply binary_round_aux_not_nan. lia.
Qed.

Lemma binary_normalize_not_nan (m e : Z) (sz : bool) :
    binary_normalize prec emax m e sz <> S754_nan.
Proof.
    destruct m; simpl; try discriminate; apply binary_round_not_nan.
Qed.

  (** A number that is neither NaN nor infinite. *)
Definition SFfinite (x : spec_float) : bool :=
    match x with
    | S754_zero _ | S754_finite _ _ _ => true
    | _ => false
    end.

Lemma SF64add_not_nan (x c : spec_float) :
    x <> S754_nan -> SFfinite c = true -> SF64add x c <> S754_nan.
Proof.
    intros Hx Hc. unfold SF64add.
    destruct x as [[]|[]| |sx mx ex], c as [[]|[]| |sc mc ec];
      simpl in *; try discriminate; try congruence;
      apply binary_normalize_not_nan.
Qed.

Lemma SF64sub_not_nan (x c : spec_float) :
    x <> S754_nan -> SFfinite c = true -> SF64sub x c <> S754_nan.
Proof.
    intros Hx Hc. unfold SF64sub.
    destruct x as [[]|[]| |sx mx ex], c as [[]|[]| |sc mc ec];
      simpl in *; try discriminate; try congruence;
      apply binary_normalize_not_nan.
Qed.

Lemma add_not_nan (x c : float) :
    PrimFloat.is_nan x = false -> SFfinite (Prim2SF c) = true ->
    PrimFloat.is_nan (x + c) = false.
Proof.
    rewrite !is_nan_false, add_spec. apply SF64add_not_nan.
Qed.

Lemma sub_not_nan (x c : float) :
    PrimFloat.is_nan x = false -> SFfinite (Prim2SF c) = true ->
    PrimFloat.is_nan (x - c) = false.
Proof.
    rewrite !is_nan_false, sub_spec. apply SF64sub_not_nan.
Qed.

End RoundingFacts.

(** The sign of a difference. A subtraction of two numbers rounds, but it
    never rounds a non-zero difference to zero (gradual underflow), so the
    difference is negative exactly when the first number is the smaller
    one. *)
Section DifferenceSign.

Local Open Scope Z_scope.

Lemma digits2_lower (p : positive) : 2 ^ (Z.pos (digits2_pos p) - 1) <= Z.pos p.
Proof.
    induction p as [p IH|p IH|]; simpl digits2_pos.
    - rewrite Pos2Z.inj_succ.
      replace (Z.succ (Z.pos (digits2_pos p)) - 1)
        with (Z.succ (Z.pos (digits2_pos p) - 1)) by lia.
      rewrite Z.pow_succ_r by lia. lia.
    - rewrite Pos2Z.inj_succ.
      replace (Z.succ (Z.pos (digits2_pos p)) - 1)
        with (Z.succ (Z.pos (digits2_pos p) - 1)) by lia.
      rewrite Z.pow_succ_r by lia. lia.
    - simpl. lia.
Qed.

Lemma digits2_upper (p : positive) : Z.pos p < 2 ^ Z.pos (digits2_pos p).
Proof.
    induction p as [p IH|p IH|]; simpl digits2_pos.
    - rewrite Pos2Z.inj_succ, Z.pow_succ_r by lia. lia.
    - rewrite Pos2Z.inj_succ, Z.pow_succ_r by lia. lia.
    - simpl. lia.
Qed.

Lemma shr_1_half (k : Z) (mrs : shr_record) :
    0 <= k -> 2 ^ (k + 1) <= shr_m mrs -> 2 ^ k <= shr_m (shr_1 mrs).
Proof.
    intros Hk H. rewrite Z.pow_add_r, Z.pow_1_r in H by lia.
    assert (0 < 2 ^ k) by (apply Z.pow_pos_nonneg; lia).
    destruct mrs as [[|[p|p|]|p] r s]; simpl in *; lia.
Qed.

Lemma shr_iter_lower (n : positive) :
    forall (k : Z) (mrs : shr_record),
      0 <= k -> 2 ^ (k + Z.pos n) <= shr_m mrs ->
      2 ^ k <= shr_m (SpecFloat.iter_pos shr_1 n mrs).
Proof.
    induction n as [n IH|n IH|]; intros k mrs Hk H; simpl.
    - apply IH; [assumption|]. apply IH; [lia|].
      apply shr_1_half; [lia|].
      replace (k + Z.pos n + Z.pos n + 1) with (k + Z.pos n~1) by lia. assumption.
    - apply IH; [assumption|]. apply IH; [lia|].
      replace (k + Z.pos n + Z.pos n) with (k + Z.pos n~0) by lia. assumption.
    - now apply shr_1_half.
Qed.

  (** Shifting a positive mantissa at an exponent not below [emin] to its
      canonical exponent leaves it positive. *)
Lemma shr_fexp_pos (m : positive) (e : Z) (l : location) :
    emin <= e ->
    0 < shr_m (fst (shr_fexp prec emax (Z.pos m) e l))
    /\ emin <= snd (shr_fexp prec emax (Z.pos m) e l).
Proof.
    intros He. unfold shr_fexp, shr. simpl Zdigits2.
    destruct (fexp prec emax (Z.pos (digits2_pos m) + e) - e) as [|n|n] eqn:En;
      simpl; rewrite ?shr_m_of_loc; try (split; lia).
    unfold fexp in En. fold emin in En.
    assert (Hn : Z.pos n = Z.pos (digits2_pos m) - prec) by lia.
    split; [|lia].
    assert (H : 2 ^ 0 <= shr_m (SpecFloat.iter_pos shr_1 n (shr_record_of_loc (Z.pos m) l))).
    { apply shr_iter_lower; [lia|]. rewrite shr_m_of_loc.
      etransitivity; [|apply digits2_lower].
      apply Z.pow_le_mono_r; [lia|]. unfold prec in Hn. lia. }
    simpl in H. lia.
Qed.

Lemma round_nearest_even_pos (m : Z) (l : location) :
    0 < m -> 0 < round_nearest_even m l.
Proof.
    intros H. destruct l as [|[]]; simpl; try lia. destruct (Z.even m); lia.
Qed.

  (** Rounding a positive mantissa at an exponent not below [emin] gives
      a finite number or an infinity of the given sign, never a zero. *)
Definition SFnonzero (s : bool) (x : spec_float) : Prop :=
    (exists m e, x = S754_finite s m e) \/ x = S754_infinity s.

Lemma binary_round_aux_nonzero (s : bool) (m : positive) (e : Z) (l : location) :
    emin <= e -> SFnonzero s (binary_round_aux prec emax s (Z.pos m) e l).
Proof.
    intros He. unfold binary_round_aux.
    destruct (shr_fexp_pos m e l He) as [H1 H1e].
    destruct (shr_fexp prec emax (Z.pos m) e l) as [mrs' e'] eqn:E1. simpl in H1, H1e.
    pose proof (round_nearest_even_pos _ (loc_of_shr_record mrs') H1) as H2.
    destruct (round_nearest_even (shr_m mrs') (loc_of_shr_record mrs')) as [|m2|m2];
      try lia.
    destruct (shr_fexp_pos m2 e' loc_Exact H1e) as [H3 _].
    destruct (shr_fexp prec emax (Z.pos m2) e' loc_Exact) as [mrs'' e''] eqn:E2.
    simpl in H3.
    destruct (shr_m mrs'') as [|m3|m3]; try lia.
    destruct (e'' <=? emax - prec); [left; eauto|now right].
Qed.

Lemma binary_round_nonzero (s : bool) (m : positive) (e : Z) :
    emin <= e -> SFnonzero s (binary_round prec emax s m e).
Proof.
    intros He. unfold binary_round, shl_align.
    destruct (fexp prec emax (Z.pos (digits2_pos m) + e) - e) as [|d|d] eqn:Ed;
      try (now apply binary_round_aux_nonzero).
    apply binary_round_aux_nonzero. unfold fexp. fold emin. lia.
Qed.

Lemma binary_normalize_sign (d e : Z) :
    emin <= e ->
    SFltb (binary_normalize prec emax d e false) (S754_zero false) = (d <? 0).
Proof.
    intros He. destruct d as [|p|p]; simpl binary_normalize.
    - reflexivity.
    - destruct (binary_round_nonzero false p e He) as [(m' & e' & ->)| ->]; reflexivity.
    - destruct (binary_round_nonzero true p e He) as [(m' & e' & ->)| ->]; reflexivity.
Qed.

Lemma shl_align_value (m : positive) (e e' : Z) :
    e' <= e -> Z.pos (fst (shl_align m e e')) = Z.pos m * 2 ^ (e - e').
Proof.
    intros H. unfold shl_align.
    destruct (e' - e) as [|d|d] eqn:Ed; simpl fst.
    - replace (e - e') with 0 by lia. simpl. lia.
    - lia.
    - replace (e - e') with (Z.pos d) by lia.
      rewrite (Pos.iter_swap_gen _ _ Z.pos xO (Z.mul 2)) by reflexivity.
      change (Pos.iter (Z.mul 2) (Z.pos m) d) with (Z.shiftl (Z.pos m) (Z.pos d)).
      apply Z.shiftl_mul_pow2. lia.
Qed.

  (** A canonical mantissa has at most [prec] digits, exactly [prec]
      above the smallest exponent. *)
Lemma bounded_canonical (m : positive) (e : Z) :
    bounded prec emax m e = true ->
    emin <= e /\ Z.pos (digits2_pos m) <= prec
    /\ (emin < e -> Z.pos (digits2_pos m) = prec).
Proof.
    unfold bounded, canonical_mantissa, fexp. fold emin.
    intros [H _]%andb_true_iff. apply Z.eqb_eq in H. lia.
Qed.

  (** Comparing two canonical mantissas aligned at the smaller exponent
      is comparing the exponents first and the mantissas next. *)
Lemma aligned_compare (mx my : positive) (ex ey : Z) :
    bounded prec emax mx ex = true -> bounded prec emax my ey = true ->
    (Z.pos mx * 2 ^ (ex - Z.min ex ey) ?= Z.pos my * 2 ^ (ey - Z.min ex ey))
    = match ex ?= ey with
      | Lt => Lt
      | Gt => Gt
      | Eq => Pos.compare_cont Eq mx my
      end.
Proof.
    intros (Hex & Hdx & Hnx)%bounded_canonical (Hey & Hdy & Hny)%bounded_canonical.
    pose proof (digits2_lower mx) as Lx. pose proof (digits2_upper mx) as Ux.
    pose proof (digits2_lower my) as Ly. pose proof (digits2_upper my) as Uy.
    assert (Hp : forall d, Z.pos d <= prec -> 2 ^ Z.pos d <= 2 ^ prec)
      by (intros d Hd; apply Z.pow_le_mono_r; lia).
    destruct (Z.compare_spec ex ey) as [->|Hlt|Hgt].
    - rewrite Z.min_id, Z.sub_diag. simpl (2 ^ 0). rewrite !Z.mul_1_r. reflexivity.
    - rewrite Z.min_l, Z.sub_diag by lia. simpl (2 ^ 0). rewrite Z.mul_1_r.
      apply Z.compare_lt_iff.
      assert (Hy : Z.pos (digits2_pos my) = prec) by (apply Hny; lia).
      rewrite Hy in Ly.
      assert (2 ^ 1 <= 2 ^ (ey - ex)) by (apply Z.pow_le_mono_r; lia).
      assert (2 ^ prec = 2 * 2 ^ (prec - 1)).
      { replace prec with (Z.succ (prec - 1)) at 1 by lia.
        apply Z.pow_succ_r. unfold prec. lia. }
      pose proof (Hp _ Hdx). simpl (2 ^ 1) in *. nia.
    - rewrite Z.min_r, Z.sub_diag by lia. simpl (2 ^ 0). rewrite Z.mul_1_r.
      apply Z.compare_gt_iff.
      assert (Hx : Z.pos (digits2_pos mx) = prec) by (apply Hnx; lia).
      rewrite Hx in Lx.
      assert (2 ^ 1 <= 2 ^ (ex - ey)) by (apply Z.pow_le_mono_r; lia).
      assert (2 ^ prec = 2 * 2 ^ (prec - 1)).
      { replace prec with (Z.succ (prec - 1)) at 1 by lia.
        apply Z.pow_succ_r. unfold prec. lia. }
      pose proof (Hp _ Hdy). simpl (2 ^ 1) in *. nia.
Qed.

Lemma SF64sub_sign (x y : spec_float) :
    valid_binary x = true -> valid_binary y = true ->
    x <> S754_nan -> y <> S754_nan ->
    SFltb (SF64sub x y) (S754_zero false) = SFltb x y.
Proof.
    intros Vx Vy Hx Hy. unfold SF64sub.
    destruct x as [sx|sx| |sx mx ex], y as [sy|sy| |sy my ey];
      try congruence;
      try (destruct sx, sy; reflexivity);
      try (destruct sx; reflexivity);
      try (destruct sy; reflexivity).
    simpl in Vx, Vy. unfold SFsub.
    destruct (bounded_canonical _ _ Vx) as (Hex & _).
    destruct (bounded_canonical _ _ Vy) as (Hey & _).
    rewrite binary_normalize_sign by lia.
    rewrite !shl_align_value by lia.
    pose proof (aligned_compare mx my ex ey Vx Vy) as Hc.
    assert (0 < Z.pos mx * 2 ^ (ex - Z.min ex ey))
      by (apply Z.mul_pos_pos; [lia|apply Z.pow_pos_nonneg; lia]).
    assert (0 < Z.pos my * 2 ^ (ey - Z.min ex ey))
      by (apply Z.mul_pos_pos; [lia|apply Z.pow_pos_nonneg; lia]).
    set (ax := Z.pos mx * 2 ^ (ex - Z.min ex ey)) in *.
    set (ay := Z.pos my * 2 ^ (ey - Z.min ex ey)) in *.
    unfold SFltb, SFcompare.
    destruct sx, sy; simpl cond_Zopp.
    - (* both negative *)
      destruct (Z.compare_spec ax ay) as [E|L|G];
        destruct (ex ?= ey); try discriminate; rewrite <- ?Hc; simpl;
        lia.
    - destruct (Z.ltb_spec (- ax - ay) 0); [reflexivity|lia].
    - destruct (Z.ltb_spec (ax - - ay) 0); [lia|reflexivity].
    - (* both positive *)
      destruct (Z.compare_spec ax ay) as [E|L|G];
        destruct (ex ?= ey); try discriminate; rewrite <- ?Hc; simpl;
        lia.
Qed.

End DifferenceSign.

Section OrderFacts.

Lemma compare_cont_spec (p q : positive) :
    CompareSpec (p = q) (p < q)%positive (q < p)%positive
      (PosDef.Pos.compare_cont Eq p q).
Proof. exact (Pos.compare_spec p q). Qed.

Lemma SFleb_trans (a b c : spec_float) :
    SFleb a b = true -> SFleb b c = true -> SFleb a c = true.
Proof.
    unfold SFleb.
    destruct a as [sa|sa| |sa ma ea], b as [sb|sb| |sb mb eb], c as [sc|sc| |sc mc ec];
      try destruct sa; try destruct sb; try destruct sc; simpl; try easy;
      destruct (Z.compare_spec ea eb), (Z.compare_spec eb ec), (Z.compare_spec ea ec);
      subst; try lia; try easy;
      destruct (compare_cont_spec ma mb), (compare_cont_spec mb mc),
        (compare_cont_spec ma mc); subst; simpl; try lia; try easy.
Qed.

Local Open Scope float_scope.

Lemma leb_trans (x y z : float) :
    (x <=? y) = true -> (y <=? z) = true -> (x <=? z) = true.
Proof. rewrite !FloatAxioms.leb_spec. apply SFleb_trans. Qed.

Lemma eqb_leb (x y : float) :
    (x =? y) = true -> (x <=? y) = true /\ (y <=? x) = true.
Proof.
    rewrite FloatAxioms.eqb_spec, !FloatAxioms.leb_spec. unfold SFeqb, SFleb.
    rewrite (SFcompare_antisym (Prim2SF y) (Prim2SF x)).
    now destruct (SFcompare (Prim2SF x) (Prim2SF y)) as [[]|].
Qed.

  (** Two numbers equal to a third are not strictly ordered. *)
Lemma eqb_ltb_false (x y v : float) :
    (x =? v) = true -> (y =? v) = true -> (x <? y) = false.
Proof.
    intros [_ Hx]%eqb_leb [Hy _]%eqb_leb.
    apply leb_ltb_false. now apply (leb_trans y v x).
Qed.

Lemma ltb_nan_l (y : float) : (nan <? y) = false.
Proof. rewrite FloatAxioms.ltb_spec. reflexivity. Qed.

  (** The difference of two numbers is negative exactly when the first is
      the smaller. *)
Lemma sub_ltb_zero (x y : float) :
    PrimFloat.is_nan x = false -> PrimFloat.is_nan y = false ->
    (x - y <? 0) = (x <? y).
Proof.
    rewrite !is_nan_false. intros Hx Hy.
    rewrite !FloatAxioms.ltb_spec, sub_spec.
    change (Prim2SF 0) with (S754_zero false).
    apply SF64sub_sign; auto using Prim2SF_valid.
Qed.

  (** The test of [sort_insert] under the comparator [b.score - a.score]. *)
Lemma SortCompare_difference {A} (key : A -> number) (y x : A) :
    PrimFloat.is_nan (key x) = false -> PrimFloat.is_nan (key y) = false ->
    (SortCompare (fun a b => key b - key a) y x <? 0) = (key x <? key y).
Proof.
    intros Hx Hy. unfold SortCompare.
    rewrite <- (sub_ltb_zero (key x) (key y)) by assumption.
    destruct (PrimFloat.is_nan (key x - key y)) eqn:E; [|reflexivity].
    apply is_nan_spec in E. rewrite !FloatAxioms.ltb_spec, E. reflexivity.
Qed.

End OrderFacts.

(** ** Facts about [clamp] *)

Section ClampFacts.

Local Open Scope float_scope.

Lemma leb_ltb_false_eqb (x y : float) :
    (x <=? y) = true -> (x <? y) = false -> (x =? y) = true.
Proof.
    rewrite FloatAxioms.leb_spec, FloatAxioms.ltb_spec, FloatAxioms.eqb_spec.
    unfold SFleb, SFltb, SFeqb.
    now destruct (SFcompare (Prim2SF x) (Prim2SF y)) as [[]|].
Qed.

Lemma leb_antisym_eqb (x y : float) :
    (x <=? y) = true -> (y <=? x) = true -> (x =? y) = true.
Proof.
    intros H1 H2. apply leb_ltb_false_eqb; [assumption|]. now apply leb_ltb_false.
Qed.

Lemma eqb_sym (x y : float) : (x =? y) = true -> (y =? x) = true.
Proof. intros [H1 H2]%eqb_leb. now apply leb_antisym_eqb. Qed.

Lemma eqb_trans (x y z : float) :
    (x =? y) = true -> (y =? z) = true -> (x =? z) = true.
Proof.
    intros [H1 H2]%eqb_leb [H3 H4]%eqb_leb.
    apply leb_antisym_eqb; [now apply (leb_trans x y z)|now apply (leb_trans z y x)].
Qed.

Lemma eqb_refl_number (x : float) : PrimFloat.is_nan x = false -> (x =? x) = true.
Proof. intros H. apply leb_antisym_eqb; now apply leb_refl. Qed.

Lemma is_nan_Math_min (a b : float) :
    PrimFloat.is_nan a || PrimFloat.is_nan b = true -> JS.Math_min a b = nan.
Proof. intros H. unfold JS.Math_min. now rewrite H. Qed.

Lemma is_nan_Math_max (a b : float) :
    PrimFloat.is_nan a || PrimFloat.is_nan b = true -> JS.Math_max a b = nan.
Proof. intros H. unfold JS.Math_max. now rewrite H. Qed.

Lemma min_step_not_nan (a b : float) :
    PrimFloat.is_nan a = false -> PrimFloat.is_nan b = false ->
    PrimFloat.is_nan (JS.min_step a b) = false.
Proof.
    intros Ha Hb. unfold JS.min_step.
    destruct (JS.is_neg_zero b && JS.is_pos_zero a); [assumption|].
    now destruct (b <? a).
Qed.

Lemma max_step_not_nan (a b : float) :
    PrimFloat.is_nan a = false -> PrimFloat.is_nan b = false ->
    PrimFloat.is_nan (JS.max_step a b) = false.
Proof.
    intros Ha Hb. unfold JS.max_step.
    destruct (JS.is_pos_zero b && JS.is_neg_zero a); [assumption|].
    now destruct (a <? b).
Qed.

Lemma ltb_asym (x y : float) : (x <? y) = true -> (y <? x) = false.
Proof. intros H. now apply leb_ltb_false, ltb_leb. Qed.

Lemma ltb_not_nan (x y : float) :
    (x <? y) = true -> PrimFloat.is_nan x = false /\ PrimFloat.is_nan y = false.
Proof. intros H. now apply leb_not_nan, ltb_leb. Qed.

Lemma zero_ltb_zero (x y : float) :
    PrimFloat.is_zero x = true -> PrimFloat.is_zero y = true -> (x <? y) = false.
Proof. intros Hx Hy. now apply leb_ltb_false, zero_leb_zero. Qed.

Lemma ltb_leb_trans (x y z : float) :
    (x <? y) = true -> (y <=? z) = true -> (x <? z) = true.
Proof.
    intros H1 H2. destruct (x <? z) eqn:E; [reflexivity|].
    destruct (ltb_not_nan _ _ H1) as [Hx _]. destruct (leb_not_nan _ _ H2) as [_ Hz].
    pose proof (ltb_false_leb x z Hx Hz E) as H3.
    pose proof (leb_trans y z x H2 H3) as H4.
    apply leb_ltb_false in H4. congruence.
Qed.

  (** What [clamp] returns, by the position of the number: within the
      bounds the number itself, above them the upper bound, below them the
      lower bound (as numbers: a zero may come back with the other sign). *)
Lemma clamp_unchanged (n lo hi : float) :
    (lo <=? n) = true -> (n <=? hi) = true -> (clamp n lo hi =? n) = true.
Proof.
    intros Hl Hh.
    destruct (leb_not_nan _ _ Hl) as [Hlo Hn]. destruct (leb_not_nan _ _ Hh) as [_ Hhi].
    unfold clamp. rewrite (Math_min_not_nan hi n Hhi Hn).
    assert (Hm : (JS.min_step hi n =? n) = true).
    { unfold JS.min_step. destruct (JS.is_neg_zero n && JS.is_pos_zero hi).
      - now apply eqb_refl_number.
      - destruct (n <? hi) eqn:E; [now apply eqb_refl_number|].
        apply eqb_sym. now apply leb_ltb_false_eqb. }
    pose proof (min_step_not_nan hi n Hhi Hn) as Hmn.
    set (m := JS.min_step hi n) in *.
    rewrite (Math_max_not_nan lo m Hlo Hmn). unfold JS.max_step.
    destruct (JS.is_pos_zero m && JS.is_neg_zero lo); [assumption|].
    destruct (lo <? m) eqn:E; [assumption|].
    apply (eqb_trans lo m n); [|assumption].
    apply leb_ltb_false_eqb; [|assumption].
    destruct (eqb_leb _ _ Hm) as [_ Hnm]. now apply (leb_trans lo n m).
Qed.

Lemma clamp_above (n lo hi : float) :
    (lo <=? hi) = true -> (hi <? n) = true -> (clamp n lo hi =? hi) = true.
Proof.
    intros Hb Hn.
    destruct (leb_not_nan _ _ Hb) as [Hlo Hhi]. destruct (ltb_not_nan _ _ Hn) as [_ Hnn].
    unfold clamp. rewrite (Math_min_not_nan hi n Hhi Hnn).
    assert (Hm : JS.min_step hi n = hi).
    { unfold JS.min_step.
      destruct (JS.is_neg_zero n && JS.is_pos_zero hi) eqn:Z.
      - apply andb_true_iff in Z as [Z1 Z2].
        apply andb_true_iff in Z1 as [Z1 _]. apply andb_true_iff in Z2 as [Z2 _].
        rewrite (zero_ltb_zero hi n Z2 Z1) in Hn. discriminate.
      - now rewrite (ltb_asym hi n Hn). }
    rewrite Hm, (Math_max_not_nan lo hi Hlo Hhi). unfold JS.max_step.
    destruct (JS.is_pos_zero hi && JS.is_neg_zero lo); [now apply eqb_refl_number|].
    destruct (lo <? hi) eqn:E; [now apply eqb_refl_number|].
    now apply leb_ltb_false_eqb.
Qed.

Lemma clamp_below (n lo hi : float) :
    (lo <=? hi) = true -> (n <? lo) = true -> (clamp n lo hi =? lo) = true.
Proof.
    intros Hb Hn.
    destruct (leb_not_nan _ _ Hb) as [Hlo Hhi]. destruct (ltb_not_nan _ _ Hn) as [Hnn _].
    unfold clamp. rewrite (Math_min_not_nan hi n Hhi Hnn).
    assert (Hm : JS.min_step hi n = n).
    { unfold JS.min_step. destruct (JS.is_neg_zero n && JS.is_pos_zero hi); [reflexivity|].
      now rewrite (ltb_leb_trans n lo hi Hn Hb). }
    rewrite Hm, (Math_max_not_nan lo n Hlo Hnn). unfold JS.max_step.
    destruct (JS.is_pos_zero n && JS.is_neg_zero lo) eqn:Z.
    - apply andb_true_iff in Z as [Z1 Z2].
      apply andb_true_iff in Z1 as [Z1 _]. apply andb_true_iff in Z2 as [Z2 _].
      rewrite (zero_ltb_zero n lo Z1 Z2) in Hn. discriminate.
    - rewrite (ltb_asym n lo Hn). now apply eqb_refl_number.
Qed.

Lemma clamp_clampedTo (n lo hi : float) :
    (lo <=? hi) = true -> PrimFloat.is_nan n = false ->
    clampedTo lo hi n (clamp n lo hi).
Proof.
    intros Hb Hn. split; [now apply clamp_inRange|]. split; [|split].
    - unfold inRange. intros [H1 H2]%andb_true_iff. now apply clamp_unchanged.
    - now apply clamp_above.
    - now apply clamp_below.
Qed.

End ClampFacts.

(** ** The feedback learner *)

Section LearnerFacts.

Context {host : JS.Host}.

Local Open Scope float_scope.

Lemma weight_insert (w : gmap string number) (k k' : string) (v : number) :
    weight (<[k := v]> w) k' = if decide (k = k') then v else weight w k'.
Proof.
    unfold weight. rewrite lookup_insert. now destruct (decide (k = k')).
Qed.

Lemma weights_learnTag (liked : bool) (p : Preferences) (t : string) :
    Preferences.weights (learnTag liked p t) = Preferences.weights p.
Proof.
    unfold learnTag.
    destruct liked;
      [destruct (JS.Array_includes (Preferences.keywords p) _)
      |destruct (JS.Array_includes (Preferences.blockedKeywords p) _)];
      reflexivity.
Qed.

Lemma weights_learnTags (liked : bool) (ts : list string) (p : Preferences) :
    Preferences.weights (fold_left (learnTag liked) ts p) = Preferences.weights p.
Proof.
    revert p. induction ts as [|t ts IH]; intros p; simpl; [reflexivity|].
    now rewrite IH, weights_learnTag.
Qed.

Lemma learnFromFeedback_unfold prefs job liked notes selectedTags :
    learnFromFeedback prefs job liked notes selectedTags
    = learnNotes liked notes
        (fold_left (learnTag liked) (tagsToLearn job selectedTags)
           (if liked
            then updateWeight prefs "keywordMatch" (fun x => clamp (x + 0.05) 0.6 2.2)
            else updateWeight prefs "negativeKeyword"
                   (fun x => clamp (x - 0.05) (-3) (-0.6)))).
Proof. now destruct liked. Qed.

  (** The notes touch the [salary], [remote] and [seniority] weights only. *)
Lemma learnNotes_weights_other liked notes p (k : string) :
    k <> "salary" -> k <> "remote" -> k <> "seniority" ->
    Preferences.weights (learnNotes liked notes p) !! k = Preferences.weights p !! k.
Proof.
    intros H1 H2 H3. unfold learnNotes.
    repeat match goal with
           | |- context [if ?c then _ else _] => destruct c
           end;
      unfold updateWeight, set_weight; simpl;
      rewrite ?lookup_insert_ne by congruence; reflexivity.
Qed.

Lemma learnNotes_keywords liked notes p :
    Preferences.keywords (learnNotes liked notes p) = Preferences.keywords p
    /\ Preferences.blockedKeywords (learnNotes liked notes p)
       = Preferences.blockedKeywords p.
Proof.
    unfold learnNotes.
    repeat match goal with
           | |- context [if ?c then _ else _] => destruct c
           end; now split.
Qed.

  (** Empty notes trigger nothing. *)
Lemma learnNotes_empty liked p : learnNotes liked "" p = p.
Proof.
    unfold learnNotes. now rewrite (JS.toLowerCase_ASCII "" eq_refl).
Qed.

  (** The entries of the weight object after the notes were parsed. *)
Lemma learnNotes_weights liked notes p :
    let n := JS.toLowerCase notes in
    let w := Preferences.weights p in
    let w' := Preferences.weights (learnNotes liked notes p) in
    w' !! "salary"
      = (if JS.includes n "salary" || JS.includes n "pay"
         then Some (clamp (weight w "salary" + noteDelta liked) 0.2 2.4)
         else w !! "salary")
    /\ w' !! "remote"
       = (if JS.includes n "remote" || JS.includes n "hybrid"
          then Some (clamp (weight w "remote" + noteDelta liked) 0 1.4)
          else w !! "remote")
    /\ w' !! "seniority"
       = (if JS.includes n "leadership" || JS.includes n "manager"
             || JS.includes n "director"
          then Some (clamp (weight w "seniority" + noteDelta liked) 0.2 2)
          else w !! "seniority").
Proof.
    intros n w w'. subst w' w n. unfold learnNotes, noteDelta. cbv zeta.
    set (n := JS.toLowerCase notes).
    destruct (JS.includes n "salary" || JS.includes n "pay");
      destruct (JS.includes n "remote" || JS.includes n "hybrid");
      destruct (JS.includes n "leadership" || JS.includes n "manager"
                || JS.includes n "director");
      destruct (JS.includes n "consult");
      destruct (JS.includes n "university" || JS.includes n "academic");
      unfold updateWeight, set_weight, weight; simpl;
      repeat split;
      repeat first [ rewrite lookup_insert_eq
                   | rewrite lookup_insert_ne by discriminate ];
      reflexivity.
Qed.

Lemma learnAll_snoc prefs (before : list Feedback) (ev : Feedback) :
    learnAll prefs (before ++ [ev])
    = learnFromFeedback (learnAll prefs before) (fb_job ev) (fb_liked ev) (fb_notes ev)
        (fb_tags ev).
Proof. unfold learnAll. now rewrite fold_left_app. Qed.

  (** Every entry of the weight object after an event, by the table of
      adjustments. *)
Lemma weights_learnFromFeedback prefs job liked notes selectedTags (k : string) :
    let w := Preferences.weights prefs in
    Preferences.weights (learnFromFeedback prefs job liked notes selectedTags) !! k
    = match adjustment liked notes k with
      | Some (move, lo, hi) => Some (clamp (move (weight w k)) lo hi)
      | None => w !! k
      end.
Proof.
    intros w. subst w. rewrite learnFromFeedback_unfold.
    set (p0 := if liked then _ else _).
    set (p1 := fold_left (learnTag liked) (tagsToLearn job selectedTags) p0).
    assert (Hw1 : Preferences.weights p1 = Preferences.weights p0)
      by (subst p1; apply weights_learnTags).
    assert (H0 : forall k', k' <> "keywordMatch" -> k' <> "negativeKeyword" ->
                   Preferences.weights p0 !! k' = Preferences.weights prefs !! k').
    { intros k' K1 K2. subst p0.
      destruct liked; unfold updateWeight, set_weight; simpl;
        now rewrite lookup_insert_ne by congruence. }
    destruct (learnNotes_weights liked notes p1) as (Hs & Hr & Hn).
    unfold adjustment. cbv zeta. fold (noteDelta liked).
    destruct (String.eqb_spec k "keywordMatch") as [->|K1].
    { rewrite learnNotes_weights_other, Hw1 by discriminate. subst p0.
      destruct liked; unfold updateWeight, set_weight; simpl.
      - now rewrite lookup_insert_eq.
      - now rewrite lookup_insert_ne by discriminate. }
    destruct (String.eqb_spec k "negativeKeyword") as [->|K2].
    { rewrite learnNotes_weights_other, Hw1 by discriminate. subst p0.
      destruct liked; unfold updateWeight, set_weight; simpl.
      - now rewrite lookup_insert_ne by discriminate.
      - now rewrite lookup_insert_eq. }
    destruct (String.eqb_spec k "salary") as [->|K3].
    { rewrite Hs. unfold weight. rewrite Hw1, H0 by discriminate.
      now destruct (JS.includes _ "salary" || JS.includes _ "pay"). }
    destruct (String.eqb_spec k "remote") as [->|K4].
    { rewrite Hr. unfold weight. rewrite Hw1, H0 by discriminate.
      now destruct (JS.includes _ "remote" || JS.includes _ "hybrid"). }
    destruct (String.eqb_spec k "seniority") as [->|K5].
    { rewrite Hn. unfold weight. rewrite Hw1, H0 by discriminate.
      now destruct (JS.includes _ "leadership" || JS.includes _ "manager"
                    || JS.includes _ "director"). }
    rewrite learnNotes_weights_other, Hw1 by assumption. now apply H0.
Qed.

  (** An adjusted weight is the clamped move of its old value; a weight
      that is not adjusted keeps its entry. *)
Lemma adjustment_clampedTo prefs job liked notes selectedTags (k : string) :
    let w := Preferences.weights prefs in
    let w' := Preferences.weights (learnFromFeedback prefs job liked notes selectedTags) in
    match adjustment liked notes k with
    | Some (move, lo, hi) =>
        PrimFloat.is_nan (weight w k) = false ->
        clampedTo lo hi (move (weight w k)) (weight w' k)
    | None => w' !! k = w !! k
    end.
Proof.
    intros w w'. subst w'.
    pose proof (weights_learnFromFeedback prefs job liked notes selectedTags k) as E.
    cbv zeta in E. fold w in E.
    assert (Hd : SFfinite (Prim2SF (noteDelta liked)) = true) by now destruct liked.
    unfold adjustment in *. cbv zeta in *. fold (noteDelta liked) in *.
    repeat match goal with
           | |- context [if ?c then _ else _] => destruct c
           end;
      try exact E;
      intros Hnan; unfold weight at 2; rewrite E; simpl;
      apply clamp_clampedTo; try reflexivity;
      first [ now apply add_not_nan | now apply sub_not_nan ].
Qed.

End LearnerFacts.




(** C10. With empty notes, no selected tag and a posting that carries no
    tags, the learner changes one weight and nothing else: the result is
    the input profile with the [keywordMatch] weight (liked) or the
    [negativeKeyword] weight (disliked) replaced; every keyword list, every
    flag and every other weight is the input's. *)
Theorem learnFromFeedback_plain_event {host : JS.Host} :
  forall (prefs : Preferences) (job : Job) (liked : bool),
    Job.tags job = None \/ Job.tags job = Some [] ->
    let w := Preferences.weights prefs in
    let k := if liked then "keywordMatch" else "negativeKeyword" in
    let v :=
      (if liked then clamp (weight w "keywordMatch" + 0.05) 0.6 2.2
       else clamp (weight w "negativeKeyword" - 0.05) (-3) (-0.6))%float in
    let prefs' := learnFromFeedback prefs job liked "" [] in
    prefs' = Preferences.set_weights prefs (<[k := v]> w)
    /\ Preferences.keywords prefs' = Preferences.keywords prefs
    /\ Preferences.blockedKeywords prefs' = Preferences.blockedKeywords prefs
    /\ Preferences.consulting prefs' = Preferences.consulting prefs
    /\ Preferences.academia prefs' = Preferences.academia prefs
    /\ forall k', k' <> k ->
         Preferences.weights prefs' !! k' = Preferences.weights prefs !! k'.
Proof.
  intros prefs job liked Htags w k v prefs'.
  assert (E : prefs' = Preferences.set_weights prefs (<[k := v]> w)).
  { subst prefs' k v w. rewrite learnFromFeedback_unfold.
    assert (Ht : tagsToLearn job [] = []).
    { unfold tagsToLearn. now destruct Htags as [-> | ->]. }
    rewrite Ht, learnNotes_empty. now destruct liked. }
  rewrite E. repeat split; try reflexivity.
  intros k' Hk'. simpl. now apply lookup_insert_ne.
Qed.

Lemma learnFromFeedback_plain_event_witness :
  Preferences.weights (learnFromFeedback defaultPreferences
                         (Job.with_tags demoJob1 []) true "" [])
    !! "keywordMatch" = Some 1.45%float.
Proof.
  destruct (learnFromFeedback_plain_event defaultPreferences
              (Job.with_tags demoJob1 []) true (or_intror eq_refl))
    as [E _].
  rewrite E. vm_compute. reflexivity.
Defined.

(** *** The clamp ranges *)

Section ClampInvariant.

Context {host : JS.Host}.

Local Open Scope float_scope.

Lemma clampInvariant_weights (p q : Preferences) :
    Preferences.weights p = Preferences.weights q ->
    clampInvariant p -> clampInvariant q.
Proof. unfold clampInvariant. now intros ->. Qed.

Lemma inRange_not_nan (lo hi x : number) :
    inRange lo hi x = true -> PrimFloat.is_nan x = false.
Proof.
    unfold inRange. intros [H _]%andb_true_iff.
    now destruct (leb_not_nan _ _ H).
Qed.

  (** A clamped update of a weight that is in its range stays in it. *)
Lemma inRange_clamp_add (lo hi x d : number) :
    (lo <=? hi) = true -> SFfinite (Prim2SF d) = true ->
    inRange lo hi x = true -> inRange lo hi (clamp (x + d) lo hi) = true.
Proof.
    intros Hlh Hd Hx. apply clamp_inRange; [assumption|].
    apply add_not_nan; [|assumption]. now apply inRange_not_nan in Hx.
Qed.

Lemma inRange_clamp_sub (lo hi x d : number) :
    (lo <=? hi) = true -> SFfinite (Prim2SF d) = true ->
    inRange lo hi x = true -> inRange lo hi (clamp (x - d) lo hi) = true.
Proof.
    intros Hlh Hd Hx. apply clamp_inRange; [assumption|].
    apply sub_not_nan; [|assumption]. now apply inRange_not_nan in Hx.
Qed.

Ltac weights_step :=
    unfold clampInvariant, updateWeight, set_weight; simpl;
    rewrite !weight_insert; simpl;
    intros (H1 & H2 & H3 & H4 & H5);
    repeat split; try assumption;
    first [ apply inRange_clamp_add; [reflexivity | reflexivity | assumption]
          | apply inRange_clamp_sub; [reflexivity | reflexivity | assumption] ].

Lemma clampInvariant_keywordMatch p :
    clampInvariant p ->
    clampInvariant (updateWeight p "keywordMatch" (fun x => clamp (x + 0.05) 0.6 2.2)).
Proof. weights_step. Qed.

Lemma clampInvariant_negativeKeyword p :
    clampInvariant p ->
    clampInvariant
      (updateWeight p "negativeKeyword" (fun x => clamp (x - 0.05) (-3) (-0.6))).
Proof. weights_step. Qed.

Lemma clampInvariant_salary p (liked : bool) :
    clampInvariant p ->
    clampInvariant
      (updateWeight p "salary"
         (fun x => clamp (x + (if liked then 0.15 else -0.12)) 0.2 2.4)).
Proof. destruct liked; weights_step. Qed.

Lemma clampInvariant_remote p (liked : bool) :
    clampInvariant p ->
    clampInvariant
      (updateWeight p "remote"
         (fun x => clamp (x + (if liked then 0.15 else -0.12)) 0 1.4)).
Proof. destruct liked; weights_step. Qed.

Lemma clampInvariant_seniority p (liked : bool) :
    clampInvariant p ->
    clampInvariant
      (updateWeight p "seniority"
         (fun x => clamp (x + (if liked then 0.15 else -0.12)) 0.2 2)).
Proof. destruct liked; weights_step. Qed.

Lemma clampInvariant_set_consulting p (b : bool) :
    clampInvariant p -> clampInvariant (Preferences.set_consulting p b).
Proof. now apply clampInvariant_weights. Qed.

Lemma clampInvariant_set_academia p (b : bool) :
    clampInvariant p -> clampInvariant (Preferences.set_academia p b).
Proof. now apply clampInvariant_weights. Qed.

Lemma clampInvariant_if (c : bool) (f : Preferences -> Preferences) p :
    (forall q, clampInvariant q -> clampInvariant (f q)) ->
    clampInvariant p -> clampInvariant (if c then f p else p).
Proof. destruct c; auto. Qed.

Lemma clampInvariant_learnNotes liked notes p :
    clampInvariant p -> clampInvariant (learnNotes liked notes p).
Proof.
    intros H. unfold learnNotes. cbv zeta.
    apply (clampInvariant_if _ (fun q => Preferences.set_academia q liked));
      [intros q Hq; now apply clampInvariant_set_academia|].
    apply (clampInvariant_if _ (fun q => Preferences.set_consulting q liked));
      [intros q Hq; now apply clampInvariant_set_consulting|].
    apply (clampInvariant_if _
             (fun q => updateWeight q "seniority"
                         (fun x => clamp (x + (if liked then 0.15 else -0.12)) 0.2 2)));
      [intros q Hq; exact (clampInvariant_seniority q liked Hq)|].
    apply (clampInvariant_if _
             (fun q => updateWeight q "remote"
                         (fun x => clamp (x + (if liked then 0.15 else -0.12)) 0 1.4)));
      [intros q Hq; exact (clampInvariant_remote q liked Hq)|].
    apply (clampInvariant_if _
             (fun q => updateWeight q "salary"
                         (fun x => clamp (x + (if liked then 0.15 else -0.12)) 0.2 2.4)));
      [intros q Hq; exact (clampInvariant_salary q liked Hq)|].
    exact H.
Qed.

Lemma clampInvariant_learnFromFeedback prefs job liked notes selectedTags :
    clampInvariant prefs ->
    clampInvariant (learnFromFeedback prefs job liked notes selectedTags).
Proof.
    intros H. rewrite learnFromFeedback_unfold.
    apply clampInvariant_learnNotes.
    eapply clampInvariant_weights; [symmetry; apply weights_learnTags|].
    destruct liked;
      [now apply clampInvariant_keywordMatch
      |now apply clampInvariant_negativeKeyword].
Qed.

End ClampInvariant.

(** C3, as the code has it. The clamp ranges are an invariant of the
    learner: starting from a profile whose five weights lie within
    [keywordMatch ∈ [0.6, 2.2]], [negativeKeyword ∈ [-3.0, -0.6]],
    [salary ∈ [0.2, 2.4]], [remote ∈ [0.0, 1.4]] and
    [seniority ∈ [0.2, 2.0]], every finite sequence of invocations ends in
    a profile whose five weights lie within them. At every invocation of
    the sequence, a weight that the invocation does not adjust keeps its
    entry, inside or outside its range; a weight that it adjusts and that
    is a number ends within its bounds: at its old value moved by the
    step when that lies within them, at the upper bound when that is
    above them and at the lower bound when it is below them, so that
    further pushes in one direction leave it at the bound. *)
Theorem learnAll_clampInvariant {host : JS.Host} :
  forall (prefs : Preferences) (events : list Feedback),
    (clampInvariant prefs -> clampInvariant (learnAll prefs events))
    /\ forall (before after : list Feedback) (ev : Feedback) (k : string),
         events = before ++ ev :: after ->
         let w := Preferences.weights (learnAll prefs before) in
         let w' := Preferences.weights (learnAll prefs (before ++ [ev])) in
         match adjustment (fb_liked ev) (fb_notes ev) k with
         | Some (move, lo, hi) =>
             PrimFloat.is_nan (weight w k) = false ->
             clampedTo lo hi (move (weight w k)) (weight w' k)
         | None => w' !! k = w !! k
         end.
Proof.
  intros prefs events. split.
  - revert prefs. unfold learnAll.
    induction events as [|ev events IH]; intros prefs Hinv; simpl; [assumption|].
    apply IH. now apply clampInvariant_learnFromFeedback.
  - intros before after ev k _ w w'. subst w w'. rewrite learnAll_snoc.
    exact (adjustment_clampedTo (learnAll prefs before) (fb_job ev) (fb_liked ev)
             (fb_notes ev) (fb_tags ev) k).
Qed.

(** Twenty likes in a row on the default profile: the five weights stay
    within their ranges, and the twentieth like, which finds the
    [keywordMatch] weight at 2.2 already, leaves it at 2.2. *)
Lemma learnAll_clampInvariant_witness :
  clampInvariant defaultPreferences
  /\ clampInvariant (learnAll defaultPreferences twentyLikes)
  /\ (weight (Preferences.weights (learnAll defaultPreferences twentyLikes))
        "keywordMatch" =? 2.2)%float = true.
Proof.
  assert (Hinv : clampInvariant defaultPreferences)
    by (unfold clampInvariant; vm_compute; tauto).
  destruct (learnAll_clampInvariant defaultPreferences twentyLikes) as [H1 H2].
  split; [exact Hinv|]. split; [exact (H1 Hinv)|].
  specialize (H2 (List.repeat plainLike 19) [] plainLike "keywordMatch" eq_refl).
  cbv zeta in H2.
  change (List.repeat plainLike 19 ++ [plainLike]) with twentyLikes in H2.
  change (adjustment (fb_liked plainLike) (fb_notes plainLike) "keywordMatch")
    with (Some (fun x => x + 0.05, 0.6, 2.2)%float) in H2.
  assert (Hnan : PrimFloat.is_nan
                   (weight (Preferences.weights
                              (learnAll defaultPreferences (List.repeat plainLike 19)))
                      "keywordMatch") = false)
    by (vm_compute; reflexivity).
  destruct (H2 Hnan) as (_ & _ & Habove & _).
  apply Habove. vm_compute. reflexivity.
Defined.

(** C3, as the specification states it, fails: a weight the learner does
    not touch keeps the value it had. With the [salary] weight at 2.5 (the
    upper end of its slider), a like without notes leaves it at 2.5,
    outside [0.2, 2.4]. *)
Lemma learnAll_clampInvariant_counterexample :
  ~ clampInvariant (learnAll sliderPrefs [plainLike]).
Proof.
  unfold clampInvariant. intros (_ & _ & H & _).
  vm_compute in H. discriminate.
Qed.

(** *** Learning from tags *)

Section TagLearning.

Context {host : JS.Host}.

Lemma firstOccurrences_spec (l seen : list string) :
    NoDup (firstOccurrences seen l)
    /\ (forall x, (x ∈ firstOccurrences seen l) <-> ((x ∉ seen) /\ (x ∈ l))).
Proof.
    revert seen. induction l as [|y l IH]; intros seen; simpl.
    - split; [constructor|]. intros x. rewrite !elem_of_nil. tauto.
    - destruct (bool_decide_reflect (y ∈ seen)) as [Hy|Hy].
      + destruct (IH seen) as [IH1 IH2]. split; [assumption|].
        intros x. rewrite IH2, elem_of_cons. split; [tauto|].
        intros [Hx [->|Hx']]; tauto.
      + destruct (IH (seen ++ [y])) as [IH1 IH2]. split.
        * constructor; [|assumption]. rewrite IH2, elem_of_app, list_elem_of_singleton.
          tauto.
        * intros x. rewrite !elem_of_cons, IH2, elem_of_app, list_elem_of_singleton.
          destruct (decide (x = y)) as [->|Hne]; tauto.
Qed.

Lemma learnTags_liked (ts : list string) (p : Preferences) :
    Preferences.keywords (fold_left (learnTag true) ts p)
      = Preferences.keywords p
        ++ firstOccurrences (Preferences.keywords p) (map JS.toLowerCase ts)
    /\ Preferences.blockedKeywords (fold_left (learnTag true) ts p)
       = Preferences.blockedKeywords p.
Proof.
    revert p. induction ts as [|t ts IH]; intros p;
      cbn [fold_left map fmap list_fmap firstOccurrences].
    - now rewrite app_nil_r.
    - destruct (IH (learnTag true p t)) as [IH1 IH2]. rewrite IH1, IH2.
      unfold learnTag, JS.Array_includes.
      destruct (bool_decide (JS.toLowerCase t ∈ Preferences.keywords p)); simpl.
      + now split.
      + now rewrite <- app_assoc.
Qed.

Lemma learnTags_disliked (ts : list string) (p : Preferences) :
    Preferences.blockedKeywords (fold_left (learnTag false) ts p)
      = Preferences.blockedKeywords p
        ++ firstOccurrences (Preferences.blockedKeywords p) (map JS.toLowerCase ts)
    /\ Preferences.keywords (fold_left (learnTag false) ts p)
       = Preferences.keywords p.
Proof.
    revert p. induction ts as [|t ts IH]; intros p;
      cbn [fold_left map fmap list_fmap firstOccurrences].
    - now rewrite app_nil_r.
    - destruct (IH (learnTag false p t)) as [IH1 IH2]. rewrite IH1, IH2.
      unfold learnTag, JS.Array_includes.
      destruct (bool_decide (JS.toLowerCase t ∈ Preferences.blockedKeywords p)); simpl.
      + now split.
      + now rewrite <- app_assoc.
Qed.

End TagLearning.

(** C6. The learner learns from the selected tags when there are any,
    otherwise from the posting's own tags. The list it learns into (the
    allow-list on a like, the block-list on a dislike) becomes the old list
    followed by the lowercased tags that were not yet present, each once,
    in the order they were met; afterwards it holds every lowercased tag.
    The other list is the input's, so no element leaves either list. *)
Theorem learnFromFeedback_tags {host : JS.Host} :
  forall (prefs : Preferences) (job : Job) (liked : bool) (notes : string)
         (selectedTags : list string),
    let ts :=
      match selectedTags with
      | _ :: _ => selectedTags
      | [] => match Job.tags job with Some own => own | None => [] end
      end in
    let prefs' := learnFromFeedback prefs job liked notes selectedTags in
    let old :=
      if liked then Preferences.keywords prefs else Preferences.blockedKeywords prefs in
    let new :=
      if liked then Preferences.keywords prefs' else Preferences.blockedKeywords prefs' in
    let added := firstOccurrences old (map JS.toLowerCase ts) in
    new = old ++ added
    /\ (if liked
        then Preferences.blockedKeywords prefs' = Preferences.blockedKeywords prefs
        else Preferences.keywords prefs' = Preferences.keywords prefs)
    /\ NoDup added
    /\ (forall x, (x ∈ added) <-> ((x ∉ old) /\ exists t, (t ∈ ts) /\ x = JS.toLowerCase t))
    /\ (forall t, t ∈ ts -> JS.toLowerCase t ∈ new)
    /\ (forall x, x ∈ old -> x ∈ new).
Proof.
  intros prefs job liked notes selectedTags ts prefs' old new added.
  assert (Hts : ts = tagsToLearn job selectedTags).
  { subst ts. unfold tagsToLearn. destruct selectedTags; [|reflexivity].
    now destruct (Job.tags job). }
  assert (Hnew : new = old ++ added
                 /\ (if liked
                     then Preferences.blockedKeywords prefs'
                          = Preferences.blockedKeywords prefs
                     else Preferences.keywords prefs' = Preferences.keywords prefs)).
  { subst new old added prefs'. rewrite learnFromFeedback_unfold, Hts.
    destruct (learnNotes_keywords liked notes
                (fold_left (learnTag liked) (tagsToLearn job selectedTags)
                   (if liked
                    then updateWeight prefs "keywordMatch"
                           (fun x => clamp (x + 0.05) 0.6 2.2)%float
                    else updateWeight prefs "negativeKeyword"
                           (fun x => clamp (x - 0.05) (-3) (-0.6))%float)))
      as [K B].
    rewrite K, B. destruct liked.
    - exact (learnTags_liked _ (updateWeight prefs "keywordMatch" _)).
    - exact (learnTags_disliked _ (updateWeight prefs "negativeKeyword" _)). }
  destruct Hnew as [Hnew Hother].
  destruct (firstOccurrences_spec (map JS.toLowerCase ts) old) as [Hnd Hin].
  fold added in Hnd, Hin.
  assert (Hmap : forall x, (x ∈ map JS.toLowerCase ts)
                           <-> (exists t, (t ∈ ts) /\ x = JS.toLowerCase t)).
  { intros x. rewrite list_elem_of_fmap. split; intros (t & H1 & H2); eauto. }
  split; [exact Hnew|]. split; [exact Hother|]. split; [exact Hnd|].
  split; [|split].
  - intros x. rewrite Hin. split; intros [Hx Ht]; (split; [assumption|]);
      now apply Hmap.
  - intros t Ht. rewrite Hnew, elem_of_app.
    destruct (decide (JS.toLowerCase t ∈ old)) as [Ho|Ho]; [now left|right].
    apply Hin. split; [assumption|]. apply Hmap. eauto.
  - intros x Hx. rewrite Hnew, elem_of_app. now left.
Qed.

(** A like with the selected tags [Leadership], [Culture], [DATA] and
    [leadership]: [leadership] and [data] are appended, in lower case and
    once; [culture] is in the allow-list already. *)
Lemma learnFromFeedback_tags_witness :
  Preferences.keywords
    (learnFromFeedback defaultPreferences demoJob1 true ""
       ["Leadership"; "Culture"; "DATA"; "leadership"])
  = Preferences.keywords defaultPreferences ++ ["leadership"; "data"].
Proof.
  exact (proj1 (learnFromFeedback_tags defaultPreferences demoJob1 true ""
                  ["Leadership"; "Culture"; "DATA"; "leadership"])).
Defined.

(** ** The feedback learner on the store: nothing the caller holds is
    written *)

Module StoreFacts.

Section WithHost.

Context {host : JS.Host}.

Lemma arrayAt_Some (h : Store.heap) (l : Store.loc) (a : list string) :
    Store.arrayAt h l = Some a <-> h !! l = Some (Store.OArray a).
Proof.
    unfold Store.arrayAt. destruct (h !! l) as [[| |]|]; split; congruence.
Qed.

Lemma weightsAt_Some (h : Store.heap) (l : Store.loc) (w : gmap string number) :
    Store.weightsAt h l = Some w <-> h !! l = Some (Store.OWeights w).
Proof.
    unfold Store.weightsAt. destruct (h !! l) as [[| |]|]; split; congruence.
Qed.

  (** What [deref h o = Some v] says, field by field. *)
Record denotes (h : Store.heap) (o : Store.PrefsObj) (v : Preferences) : Prop := {
    d_keywords : h !! Store.keywords o = Some (Store.OArray (Preferences.keywords v));
    d_blockedKeywords :
      h !! Store.blockedKeywords o = Some (Store.OArray (Preferences.blockedKeywords v));
    d_preferredLocations :
      h !! Store.preferredLocations o = Some (Store.OArray (Preferences.preferredLocations v));
    d_excludedLocations :
      h !! Store.excludedLocations o = Some (Store.OArray (Preferences.excludedLocations v));
    d_workTypes : h !! Store.workTypes o = Some (Store.OArray (Preferences.workTypes v));
    d_industries : h !! Store.industries o = Some (Store.OArray (Preferences.industries v));
    d_seniority : h !! Store.seniority o = Some (Store.OArray (Preferences.seniority v));
    d_weights : h !! Store.weights o = Some (Store.OWeights (Preferences.weights v));
    d_minSalary : Store.minSalary o = Preferences.minSalary v;
    d_remoteOnly : Store.remoteOnly o = Preferences.remoteOnly v;
    d_academia : Store.academia o = Preferences.academia v;
    d_consulting : Store.consulting o = Preferences.consulting v;
    d_publicSector : Store.publicSector o = Preferences.publicSector v;
    d_privateSector : Store.privateSector o = Preferences.privateSector v
  }.

Lemma deref_denotes (h : Store.heap) (o : Store.PrefsObj) (v : Preferences) :
    Store.deref h o = Some v <-> denotes h o v.
Proof.
    unfold Store.deref. split.
    - intros H.
      destruct (Store.arrayAt h (Store.keywords o)) as [a1|] eqn:E1; [|discriminate H].
      destruct (Store.arrayAt h (Store.blockedKeywords o)) as [a2|] eqn:E2; [|discriminate H].
      destruct (Store.arrayAt h (Store.preferredLocations o)) as [a3|] eqn:E3; [|discriminate H].
      destruct (Store.arrayAt h (Store.excludedLocations o)) as [a4|] eqn:E4; [|discriminate H].
      destruct (Store.arrayAt h (Store.workTypes o)) as [a5|] eqn:E5; [|discriminate H].
      destruct (Store.arrayAt h (Store.industries o)) as [a6|] eqn:E6; [|discriminate H].
      destruct (Store.arrayAt h (Store.seniority o)) as [a7|] eqn:E7; [|discriminate H].
      destruct (Store.weightsAt h (Store.weights o)) as [w|] eqn:E8; [|discriminate H].
      apply arrayAt_Some in E1, E2, E3, E4, E5, E6, E7. apply weightsAt_Some in E8.
      cbn in H. injection H as <-. now constructor.
    - intros [].
      apply arrayAt_Some in d_keywords0, d_blockedKeywords0, d_preferredLocations0,
        d_excludedLocations0, d_workTypes0, d_industries0, d_seniority0.
      apply weightsAt_Some in d_weights0.
      rewrite d_keywords0, d_blockedKeywords0, d_preferredLocations0,
        d_excludedLocations0, d_workTypes0, d_industries0, d_seniority0, d_weights0.
      cbn. destruct v; simpl in *. congruence.
Qed.

  (** A store that keeps the arrays and the weight object of [o] keeps
      what [o] denotes. *)
Lemma denotes_ext (h h' : Store.heap) (o : Store.PrefsObj) (v : Preferences) :
    (forall l a, h !! l = Some (Store.OArray a) -> h' !! l = Some (Store.OArray a)) ->
    (forall l w, h !! l = Some (Store.OWeights w) -> h' !! l = Some (Store.OWeights w)) ->
    denotes h o v -> denotes h' o v.
Proof. intros Ha Hw []. constructor; auto. Qed.

Lemma denotes_app (h k : Store.heap) (o : Store.PrefsObj) (v : Preferences) :
    denotes h o v -> denotes (h ++ k) o v.
Proof.
    apply denotes_ext; intros l x H; now apply lookup_app_l_Some.
Qed.

  (** Writing a profile object leaves what arrays and weight objects
      hold. *)
Lemma denotes_insert_prefs (h : Store.heap) (np : Store.loc) (o1 o2 o : Store.PrefsObj)
    (v : Preferences) :
    h !! np = Some (Store.OPrefs o1) ->
    denotes h o v -> denotes (<[np := Store.OPrefs o2]> h) o v.
Proof.
    intros Hnp. apply denotes_ext; intros l x H;
      (rewrite list_lookup_insert_ne; [assumption|congruence]).
Qed.

  (** Writing a weight object where the profile's weight object is. *)
Lemma denotes_insert_weights (h : Store.heap) (o : Store.PrefsObj) (v : Preferences)
    (w' : gmap string number) :
    denotes h o v ->
    denotes (<[Store.weights o := Store.OWeights w']> h) o (Preferences.set_weights v w').
Proof.
    intros [].
    assert (Hne : forall l a, h !! l = Some (Store.OArray a) ->
                    <[Store.weights o := Store.OWeights w']> h !! l = Some (Store.OArray a)).
    { intros l a H. rewrite list_lookup_insert_ne; [assumption|congruence]. }
    constructor; simpl; auto.
    apply list_lookup_insert_eq. eapply lookup_lt_Some; eassumption.
Qed.

Lemma denotes_set_keywords (h : Store.heap) (o : Store.PrefsObj) (v : Preferences)
    (a : Store.loc) (ks : list string) :
    denotes h o v -> h !! a = Some (Store.OArray ks) ->
    denotes h (Store.set_keywords o a) (Preferences.set_keywords v ks).
Proof. intros [] Ha. now constructor. Qed.

Lemma denotes_set_blockedKeywords (h : Store.heap) (o : Store.PrefsObj) (v : Preferences)
    (a : Store.loc) (ks : list string) :
    denotes h o v -> h !! a = Some (Store.OArray ks) ->
    denotes h (Store.set_blockedKeywords o a) (Preferences.set_blockedKeywords v ks).
Proof. intros [] Ha. now constructor. Qed.

Lemma denotes_set_consulting (h : Store.heap) (o : Store.PrefsObj) (v : Preferences) (b : bool) :
    denotes h o v -> denotes h (Store.set_consulting o b) (Preferences.set_consulting v b).
Proof. intros []. now constructor. Qed.

Lemma denotes_set_academia (h : Store.heap) (o : Store.PrefsObj) (v : Preferences) (b : bool) :
    denotes h o v -> denotes h (Store.set_academia o b) (Preferences.set_academia v b).
Proof. intros []. now constructor. Qed.

Lemma denotes_set_weights (h : Store.heap) (o : Store.PrefsObj) (v : Preferences)
    (l : Store.loc) (w : gmap string number) :
    denotes h o v -> h !! l = Some (Store.OWeights w) ->
    denotes h (Store.set_weights o l) (Preferences.set_weights v w).
Proof. intros [] Ha. now constructor. Qed.

Lemma snapshot_prefix (h0 h : Store.heap) (p : Store.loc) (v : Preferences) :
    h0 `prefix_of` h -> Store.snapshot h0 p = Some v -> Store.snapshot h p = Some v.
Proof.
    intros [k ->] H. unfold Store.snapshot in *.
    destruct (h0 !! p) as [[o| |]|] eqn:E; try discriminate.
    rewrite (lookup_app_l_Some _ k _ _ E).
    apply deref_denotes. apply denotes_app. now apply deref_denotes.
Qed.

  (** *** Running the monad *)

Lemma run_bind {A B} (m : Store.M A) (f : A -> Store.M B) (h : Store.heap) :
    (m ≫= f) h = match m h with Some (x, h') => f x h' | None => None end.
Proof. reflexivity. Qed.

Lemma run_readPrefs (h : Store.heap) (l : Store.loc) (o : Store.PrefsObj) :
    h !! l = Some (Store.OPrefs o) -> Store.readPrefs l h = Some (o, h).
Proof. intros H. unfold Store.readPrefs. rewrite run_bind. unfold Store.read. now rewrite H. Qed.

Lemma run_readArray (h : Store.heap) (l : Store.loc) (a : list string) :
    h !! l = Some (Store.OArray a) -> Store.readArray l h = Some (a, h).
Proof. intros H. unfold Store.readArray. rewrite run_bind. unfold Store.read. now rewrite H. Qed.

Lemma run_readWeights (h : Store.heap) (l : Store.loc) (w : gmap string number) :
    h !! l = Some (Store.OWeights w) -> Store.readWeights l h = Some (w, h).
Proof. intros H. unfold Store.readWeights. rewrite run_bind. unfold Store.read. now rewrite H. Qed.

Lemma run_write (h : Store.heap) (l : Store.loc) (x x' : Store.object) :
    h !! l = Some x -> Store.write l x' h = Some (tt, <[l := x']> h).
Proof.
    intros H. unfold Store.write. apply lookup_lt_Some in H.
    now destruct (decide (l < length h)).
Qed.

  (** *** The simulation *)

  (** During a call whose initial store is [h0], the new profile object
      sits at [np], above [h0], and so does its weight object; [h0] is a
      prefix of the current store [h], and the object at [np] denotes the
      profile value [v]. *)
Definition sim (h0 : Store.heap) (np : Store.loc) (h : Store.heap) (v : Preferences) : Prop :=
    h0 `prefix_of` h
    /\ length h0 <= np
    /\ exists o, h !! np = Some (Store.OPrefs o)
                 /\ length h0 <= Store.weights o
                 /\ denotes h o v.

  (** A computation on the store returns [x] and does to the new profile
      what [f] does to its value. *)
Definition refines {A} (h0 : Store.heap) (np : Store.loc) (m : Store.M A) (x : A)
    (f : Preferences -> Preferences) : Prop :=
    forall h v, sim h0 np h v -> exists h', m h = Some (x, h') /\ sim h0 np h' (f v).

Lemma prefix_insert_above (h0 h : Store.heap) (l : Store.loc) (x : Store.object) :
    h0 `prefix_of` h -> length h0 <= l -> h0 `prefix_of` <[l := x]> h.
Proof.
    intros [k ->] Hl. exists (<[l - length h0 := x]> k).
    now apply insert_app_r_alt.
Qed.

Lemma prefix_snoc (h0 h : Store.heap) (x : Store.object) :
    h0 `prefix_of` h -> h0 `prefix_of` h ++ [x].
Proof. intros H. now apply prefix_app_r. Qed.

Lemma refines_ret {A} h0 np (x : A) : refines h0 np (mret x) x (fun v => v).
Proof. intros h v H. now exists h. Qed.

Lemma refines_seq {A} h0 np (m1 : Store.M unit) (m2 : Store.M A) (x : A) f1 f2 :
    refines h0 np m1 tt f1 -> refines h0 np m2 x f2 ->
    refines h0 np (m1 ≫= fun _ => m2) x (fun v => f2 (f1 v)).
Proof.
    intros H1 H2 h v Hs. destruct (H1 h v Hs) as (h1 & E1 & Hs1).
    destruct (H2 h1 _ Hs1) as (h2 & E2 & Hs2).
    exists h2. rewrite run_bind, E1. now split.
Qed.

Lemma refines_when h0 np (c : bool) (m : Store.M unit) f :
    refines h0 np m tt f ->
    refines h0 np (Store.when c m) tt (fun v => if c then f v else v).
Proof. destruct c; [easy|]. intros _. apply refines_ret. Qed.

Lemma refines_updateWeight h0 np (k : string) (f : number -> number) :
    refines h0 np (Store.updateWeight np k f) tt (fun v => updateWeight v k f).
Proof.
    intros h v (Hpre & Hnp & o & Ho & Hw & Hd).
    pose proof (d_weights _ _ _ Hd) as Hwo.
    eexists. split.
    - unfold Store.updateWeight.
      rewrite run_bind, (run_readPrefs _ _ _ Ho).
      rewrite run_bind, (run_readWeights _ _ _ Hwo).
      apply (run_write _ _ _ _ Hwo).
    - split; [now apply prefix_insert_above|]. split; [assumption|].
      exists o. split.
      + rewrite list_lookup_insert_ne; [assumption|congruence].
      + split; [assumption|]. now apply denotes_insert_weights.
Qed.

Lemma refines_learnTag h0 np (liked : bool) (t : string) :
    refines h0 np (Store.learnTag liked np t) tt (fun v => learnTag liked v t).
Proof.
    intros h v (Hpre & Hnp & o & Ho & Hw & Hd).
    destruct (d_keywords _ _ _ Hd, d_blockedKeywords _ _ _ Hd) as [Hk Hb].
    assert (Hfresh : forall x : Store.object, (h ++ [x]) !! length h = Some x).
    { intros x. now rewrite lookup_app_r, Nat.sub_diag by lia. }
    assert (Hpre' : forall x y, h0 `prefix_of` <[np := y]> (h ++ [x])).
    { intros x y. apply prefix_insert_above; [now apply prefix_snoc|assumption]. }
    assert (Hnp' : forall x y, <[np := Store.OPrefs y]> (h ++ [x]) !! np = Some (Store.OPrefs y)).
    { intros x y. apply list_lookup_insert_eq. rewrite length_app. simpl.
      apply lookup_lt_Some in Ho. lia. }
    assert (Hne : np <> length h).
    { apply lookup_lt_Some in Ho. lia. }
    unfold Store.learnTag, learnTag. destruct liked.
    - rewrite run_bind, (run_readPrefs _ _ _ Ho).
      rewrite run_bind, (run_readArray _ _ _ Hk).
      destruct (JS.Array_includes (Preferences.keywords v) (JS.toLowerCase t)); simpl.
      + exists h. split; [reflexivity|]. split; [assumption|]. split; [assumption|].
        now exists o.
      + eexists. split.
        * rewrite run_bind. unfold Store.alloc at 1.
          rewrite run_bind,
            (run_readPrefs _ _ _ (lookup_app_l_Some _ [_] _ _ Ho)).
          apply (run_write _ _ _ _ (lookup_app_l_Some _ [_] _ _ Ho)).
        * split; [apply Hpre'|]. split; [assumption|].
          eexists. split; [apply Hnp'|]. split; [assumption|].
          eapply denotes_insert_prefs; [exact (lookup_app_l_Some _ _ _ _ Ho)|].
          apply denotes_set_keywords; [now apply denotes_app|apply Hfresh].
    - rewrite run_bind, (run_readPrefs _ _ _ Ho).
      rewrite run_bind, (run_readArray _ _ _ Hb).
      destruct (JS.Array_includes (Preferences.blockedKeywords v) (JS.toLowerCase t));
        simpl.
      + exists h. split; [reflexivity|]. split; [assumption|]. split; [assumption|].
        now exists o.
      + eexists. split.
        * rewrite run_bind. unfold Store.alloc at 1.
          rewrite run_bind,
            (run_readPrefs _ _ _ (lookup_app_l_Some _ [_] _ _ Ho)).
          apply (run_write _ _ _ _ (lookup_app_l_Some _ [_] _ _ Ho)).
        * split; [apply Hpre'|]. split; [assumption|].
          eexists. split; [apply Hnp'|]. split; [assumption|].
          eapply denotes_insert_prefs; [exact (lookup_app_l_Some _ _ _ _ Ho)|].
          apply denotes_set_blockedKeywords; [now apply denotes_app|apply Hfresh].
Qed.

Lemma refines_forEach h0 np (liked : bool) (ts : list string) :
    refines h0 np (Store.forEach ts (Store.learnTag liked np)) tt
      (fun v => fold_left (learnTag liked) ts v).
Proof.
    induction ts as [|t ts IH]; simpl.
    - apply refines_ret.
    - apply (refines_seq _ _ _ _ _ (fun v => learnTag liked v t)
               (fun v => fold_left (learnTag liked) ts v));
        [apply refines_learnTag|exact IH].
Qed.

Lemma refines_set_consulting h0 np (b : bool) :
    refines h0 np
      (o ← Store.readPrefs np; Store.write np (Store.OPrefs (Store.set_consulting o b)))
      tt (fun v => Preferences.set_consulting v b).
Proof.
    intros h v (Hpre & Hnp & o & Ho & Hw & Hd).
    eexists. split.
    - rewrite run_bind, (run_readPrefs _ _ _ Ho). apply (run_write _ _ _ _ Ho).
    - split; [now apply prefix_insert_above|]. split; [assumption|].
      eexists. split; [apply list_lookup_insert_eq; now apply lookup_lt_Some in Ho|].
      split; [assumption|].
      eapply denotes_insert_prefs; [eassumption|]. now apply denotes_set_consulting.
Qed.

Lemma refines_set_academia h0 np (b : bool) :
    refines h0 np
      (o ← Store.readPrefs np; Store.write np (Store.OPrefs (Store.set_academia o b)))
      tt (fun v => Preferences.set_academia v b).
Proof.
    intros h v (Hpre & Hnp & o & Ho & Hw & Hd).
    eexists. split.
    - rewrite run_bind, (run_readPrefs _ _ _ Ho). apply (run_write _ _ _ _ Ho).
    - split; [now apply prefix_insert_above|]. split; [assumption|].
      eexists. split; [apply list_lookup_insert_eq; now apply lookup_lt_Some in Ho|].
      split; [assumption|].
      eapply denotes_insert_prefs; [eassumption|]. now apply denotes_set_academia.
Qed.

Lemma refines_ext {A} h0 np (m : Store.M A) (x : A) f g :
    refines h0 np m x f -> (forall v, f v = g v) -> refines h0 np m x g.
Proof.
    intros H E h v Hs. destruct (H h v Hs) as (h' & E1 & Hs1).
    exists h'. split; [assumption|]. now rewrite <- E.
Qed.

Lemma set_weights_same (v : Preferences) :
    Preferences.set_weights v (Preferences.weights v) = v.
Proof. now destruct v. Qed.

  (** The statements after the two copies. *)
Lemma refines_body h0 np (job : Job) (liked : bool) (notes : string)
    (selectedTags : list string) :
    exists m,
      (forall prefs,
         Store.learnFromFeedback prefs job liked notes selectedTags
         = (o ← Store.readPrefs prefs;
            w ← Store.readWeights (Store.weights o);
            wcopy ← Store.alloc (Store.OWeights w);
            newPrefs ← Store.alloc (Store.OPrefs (Store.set_weights o wcopy));
            m newPrefs))
      /\ refines h0 np (m np) np
           (fun v => learnFromFeedback v job liked notes selectedTags).
Proof.
    eexists. split; [intros prefs; reflexivity|].
    cbv beta. eapply refines_ext.
    eapply (refines_seq _ _ _ _ _ _ _);
      [apply refines_when, refines_updateWeight|].
    eapply (refines_seq _ _ _ _ _ _ _);
      [apply refines_when, refines_updateWeight|].
    eapply (refines_seq _ _ _ _ _ _ _); [apply refines_forEach|].
    eapply (refines_seq _ _ _ _ _ _ _);
      [apply refines_when, refines_updateWeight|].
    eapply (refines_seq _ _ _ _ _ _ _);
      [apply refines_when, refines_updateWeight|].
    eapply (refines_seq _ _ _ _ _ _ _);
      [apply refines_when, refines_updateWeight|].
    eapply (refines_seq _ _ _ _ _ _ _);
      [apply refines_when, refines_set_consulting|].
    eapply (refines_seq _ _ _ _ _ _ _);
      [apply refines_when, refines_set_academia|].
    apply refines_ret.
    intros v. reflexivity.
Qed.

End WithHost.

End StoreFacts.

(** C4. Called on a store [h] in which [prefs] is a profile object
    denoting the value [v], the learner returns a reference [newPrefs] to
    an object that did not exist in [h]; every object of [h] is in the
    final store as it was, so the input profile, its keyword lists and its
    weight map included, still denotes [v]; and the new object denotes
    what the learner computes on values. *)
Theorem learnFromFeedback_leaves_input {host : JS.Host} :
  forall (h : list Store.object) (prefs : nat) (v : Preferences) (job : Job)
         (liked : bool) (notes : string) (selectedTags : list string),
    Store.snapshot h prefs = Some v ->
    exists (newPrefs : nat) (h' : list Store.object),
      Store.learnFromFeedback prefs job liked notes selectedTags h
        = Some (newPrefs, h')
      /\ h !! newPrefs = None
      /\ (forall l o, h !! l = Some o -> h' !! l = Some o)
      /\ Store.snapshot h' prefs = Some v
      /\ Store.snapshot h' newPrefs
         = Some (learnFromFeedback v job liked notes selectedTags).
Proof.
  intros h prefs v job liked notes selectedTags Hsnap.
  pose proof Hsnap as Hsnap0.
  unfold Store.snapshot in Hsnap.
  destruct (h !! prefs) as [[o| |]|] eqn:Ho; try discriminate.
  apply StoreFacts.deref_denotes in Hsnap.
  pose proof (StoreFacts.d_weights _ _ _ Hsnap) as Hw.
  destruct (StoreFacts.refines_body h (S (length h)) job liked notes selectedTags)
    as (m & Hm & Hbody).
  set (h1 := h ++ [Store.OWeights (Preferences.weights v)]).
  set (h2 := h1 ++ [Store.OPrefs (Store.set_weights o (length h))]).
  assert (Hsim : StoreFacts.sim h (S (length h)) h2 v).
  { split; [|split; [lia|]].
    - subst h2 h1. apply prefix_app_r, prefix_app_r. reflexivity.
    - exists (Store.set_weights o (length h)). split; [|split; [simpl; lia|]].
      + subst h2. rewrite lookup_app_r; subst h1; rewrite length_app; simpl;
          [|lia]. now replace (S (length h) - (length h + 1)) with 0 by lia.
      + assert (Hd : StoreFacts.denotes h2 o v)
          by (subst h2 h1; now apply StoreFacts.denotes_app, StoreFacts.denotes_app).
        assert (Hl : h2 !! length h = Some (Store.OWeights (Preferences.weights v))).
        { subst h2 h1. apply lookup_app_l_Some.
          now rewrite lookup_app_r, Nat.sub_diag by lia. }
        pose proof (StoreFacts.denotes_set_weights _ _ _ _ _ Hd Hl) as Hd'.
        now rewrite StoreFacts.set_weights_same in Hd'. }
  destruct (Hbody h2 v Hsim) as (h' & Hrun & Hpre & _ & o' & Ho' & _ & Hd').
  exists (S (length h)), h'. split; [|split; [|split; [|split]]].
  - rewrite Hm.
    rewrite StoreFacts.run_bind, (StoreFacts.run_readPrefs _ _ _ Ho).
    rewrite StoreFacts.run_bind, (StoreFacts.run_readWeights _ _ _ Hw).
    rewrite StoreFacts.run_bind. unfold Store.alloc at 1.
    rewrite StoreFacts.run_bind. unfold Store.alloc at 1.
    fold h1. replace (length h1) with (S (length h))
      by (subst h1; rewrite length_app; simpl; lia).
    fold h2. exact Hrun.
  - apply lookup_ge_None. lia.
  - intros l x Hl. destruct Hpre as [k ->]. now apply lookup_app_l_Some.
  - now apply (StoreFacts.snapshot_prefix h).
  - unfold Store.snapshot. rewrite Ho'. now apply StoreFacts.deref_denotes.
Qed.

Lemma learnFromFeedback_leaves_input_witness :
  Store.snapshot defaultStore 8 = Some defaultPreferences
  /\ exists newPrefs h',
       Store.learnFromFeedback 8 demoJob1 true "great leadership focus" ["leadership"]
         defaultStore = Some (newPrefs, h')
       /\ defaultStore !! newPrefs = None
       /\ (forall l o, defaultStore !! l = Some o -> h' !! l = Some o)
       /\ Store.snapshot h' 8 = Some defaultPreferences
       /\ Store.snapshot h' newPrefs
          = Some (learnFromFeedback defaultPreferences demoJob1 true
                    "great leadership focus" ["leadership"]).
Proof.
  split; [reflexivity|].
  exact (learnFromFeedback_leaves_input defaultStore 8 defaultPreferences demoJob1
           true "great leadership focus" ["leadership"] eq_refl).
Defined.

(** ** The scoring function *)

Section Scoring.

Context {host : JS.Host}.

Variable Date_parse : string -> number.

Local Open Scope float_scope.




End Scoring.





(** ** Source aggregation *)

Section MapFacts.

Context {V : Type}.

Lemma keys_set (m : JSMap.t V) (k : string) (v : V) :
    JSMap.keys (JSMap.set m k v)
    = if bool_decide (k ∈ JSMap.keys m) then JSMap.keys m else JSMap.keys m ++ [k].
Proof.
    unfold JSMap.keys. induction m as [|[k' v'] m IH]; simpl; [reflexivity|].
    destruct (String.eqb_spec k' k) as [->|Hne]; simpl.
    - rewrite bool_decide_eq_true_2; [reflexivity|]. apply elem_of_cons. now left.
    - rewrite IH. destruct (bool_decide_reflect (k ∈ map fst m)) as [Hin|Hin].
      + rewrite bool_decide_eq_true_2; [reflexivity|]. apply elem_of_cons. now right.
      + rewrite bool_decide_eq_false_2; [reflexivity|].
        rewrite elem_of_cons. intros [->|?]; congruence.
Qed.

Lemma get_set (m : JSMap.t V) (k k' : string) (v : V) :
    JSMap.get (JSMap.set m k v) k'
    = if String.eqb k k' then Some v else JSMap.get m k'.
Proof.
    induction m as [|[k0 v0] m IH]; simpl; [reflexivity|].
    destruct (String.eqb_spec k0 k) as [->|Hne]; simpl.
    - now destruct (String.eqb k k').
    - rewrite IH. destruct (String.eqb_spec k0 k') as [->|Hne'].
      + destruct (String.eqb_spec k k') as [->|]; congruence.
      + reflexivity.
Qed.

Lemma get_elem_of (m : JSMap.t V) (k : string) (v : V) :
    NoDup (JSMap.keys m) -> (k, v) ∈ m -> JSMap.get m k = Some v.
Proof.
    unfold JSMap.keys. induction m as [|[k0 v0] m IH]; simpl; intros Hnd Hin.
    - now apply elem_of_nil in Hin.
    - apply NoDup_cons in Hnd as [Hk0 Hnd]. apply elem_of_cons in Hin as [E|Hin].
      + injection E as -> ->. now rewrite String.eqb_refl.
      + destruct (String.eqb_spec k0 k) as [->|Hne]; [|now apply IH].
        exfalso. apply Hk0. apply list_elem_of_fmap. now exists (k, v).
Qed.

End MapFacts.

Section DedupFacts.

  (** The map [fetchJobs] builds, starting from [m]. *)
Let build (m : JSMap.t Job) (jobs : list Job) : JSMap.t Job :=
    fold_left (fun m j => JSMap.set m (dedupKey j) j) jobs m.

Lemma build_keys (jobs : list Job) (m : JSMap.t Job) :
    JSMap.keys (build m jobs)
    = JSMap.keys m ++ firstOccurrences (JSMap.keys m) (map dedupKey jobs).
Proof.
    revert m. induction jobs as [|j jobs IH]; intros m;
      cbn [build fold_left map fmap list_fmap firstOccurrences].
    - now rewrite app_nil_r.
    - fold (build (JSMap.set m (dedupKey j) j) jobs). rewrite IH, keys_set.
      destruct (bool_decide (dedupKey j ∈ JSMap.keys m)); [reflexivity|].
      now rewrite <- app_assoc.
Qed.

Lemma build_get (jobs : list Job) (m : JSMap.t Job) (k : string) :
    JSMap.get (build m jobs) k
    = match lastWithKey k jobs with
      | Some j => Some j
      | None => JSMap.get m k
      end.
Proof.
    revert m. unfold lastWithKey.
    induction jobs as [|j jobs IH]; intros m; cbn [build fold_left List.filter].
    - reflexivity.
    - fold (build (JSMap.set m (dedupKey j) j) jobs). rewrite IH, get_set.
      destruct (String.eqb (dedupKey j) k); [|reflexivity].
      destruct (List.filter (fun j0 => String.eqb (dedupKey j0) k) jobs)
        as [|x l] eqn:E; [reflexivity|].
      rewrite (last_cons j (x :: l)). now destruct (last (x :: l)).
Qed.

Lemma build_entries (jobs : list Job) (m : JSMap.t Job) :
    (forall k j, (k, j) ∈ m -> k = dedupKey j) ->
    forall k j, (k, j) ∈ build m jobs -> k = dedupKey j.
Proof.
    revert m. induction jobs as [|x jobs IH]; intros m Hm; cbn [build fold_left].
    - exact Hm.
    - apply IH. clear IH. intros k j.
      induction m as [|[k0 v0] m IHm]; simpl.
      + intros [E|H]%elem_of_cons; [now injection E as -> ->|].
        now apply elem_of_nil in H.
      + destruct (String.eqb_spec k0 (dedupKey x)) as [E|Hne].
        * intros [E'|H]%elem_of_cons; [now injection E' as -> ->|].
          apply (Hm k j). apply elem_of_cons. now right.
        * intros [E'|H]%elem_of_cons.
          -- injection E' as -> ->. apply (Hm k0 v0). apply elem_of_cons. now left.
          -- apply IHm; [|assumption]. intros k' j' H'. apply (Hm k' j').
             apply elem_of_cons. now right.
Qed.

Lemma values_keys (m : JSMap.t Job) :
    (forall k j, (k, j) ∈ m -> k = dedupKey j) ->
    map dedupKey (JSMap.values m) = JSMap.keys m.
Proof.
    unfold JSMap.values, JSMap.keys.
    induction m as [|[k j] m IH]; intros He; simpl; [reflexivity|].
    rewrite IH.
    - f_equal. symmetry. apply He. apply elem_of_cons. now left.
    - intros k' j' H. apply He. apply elem_of_cons. now right.
Qed.

Lemma build_entries_nil (jobs : list Job) :
    forall k j, (k, j) ∈ build [] jobs -> k = dedupKey j.
Proof.
    apply build_entries. intros k j H. now apply elem_of_nil in H.
Qed.

  (** The keys of the output: the keys of the input, each once, in the
      order of their first occurrence. *)
Lemma dedup_keys (jobs : list Job) :
    map dedupKey (dedup jobs) = firstOccurrences [] (map dedupKey jobs).
Proof.
    unfold dedup. fold (build [] jobs).
    rewrite values_keys by apply build_entries_nil.
    now rewrite build_keys.
Qed.

Lemma dedup_NoDup (jobs : list Job) : NoDup (map dedupKey (dedup jobs)).
Proof. rewrite dedup_keys. apply firstOccurrences_spec. Qed.

  (** Last write wins: a posting of the output is the last posting of the
      input with its key. *)
Lemma dedup_last (jobs : list Job) (j : Job) :
    j ∈ dedup jobs -> lastWithKey (dedupKey j) jobs = Some j.
Proof.
    unfold dedup. fold (build [] jobs). intros Hin.
    apply list_elem_of_fmap in Hin as ([k j'] & -> & Hin). simpl.
    pose proof (build_entries_nil jobs k j' Hin) as ->.
    assert (Hnd : NoDup (JSMap.keys (build [] jobs))).
    { rewrite build_keys. simpl. apply firstOccurrences_spec. }
    pose proof (get_elem_of _ _ _ Hnd Hin) as Hg.
    rewrite build_get in Hg. simpl in Hg.
    now destruct (lastWithKey (dedupKey j') jobs).
Qed.

Lemma firstOccurrences_NoDup (l seen : list string) :
    NoDup l -> (forall x, x ∈ l -> x ∉ seen) -> firstOccurrences seen l = l.
Proof.
    revert seen. induction l as [|x l IH]; intros seen Hnd Hs; simpl; [reflexivity|].
    apply NoDup_cons in Hnd as [Hx Hnd].
    rewrite bool_decide_eq_false_2 by (apply Hs, elem_of_cons; now left).
    f_equal. apply IH; [assumption|].
    intros y Hy. rewrite elem_of_app, list_elem_of_singleton.
    intros [H| ->]; [|contradiction].
    apply (Hs y); [apply elem_of_cons; now right|assumption].
Qed.

  (** Postings with pairwise distinct keys pass unchanged. *)
Lemma dedup_distinct (jobs : list Job) :
    NoDup (map dedupKey jobs) -> dedup jobs = jobs.
Proof.
    intros Hnd.
    assert (Hk : map dedupKey (dedup jobs) = map dedupKey jobs).
    { rewrite dedup_keys. apply firstOccurrences_NoDup; [assumption|].
      intros x _. apply not_elem_of_nil. }
    assert (Hl : forall j, j ∈ dedup jobs -> j ∈ jobs).
    { intros j Hj. apply dedup_last in Hj. unfold lastWithKey in Hj.
      apply last_Some_elem_of in Hj. apply list_elem_of_In in Hj.
      apply filter_In in Hj as [Hj _]. now apply list_elem_of_In. }
    revert Hk Hl. generalize (dedup jobs) as out.
    induction jobs as [|j jobs IH]; intros [|o out] Hk Hl; try discriminate;
      [reflexivity|].
    change (dedupKey o :: map dedupKey out = dedupKey j :: map dedupKey jobs) in Hk.
    injection Hk as Hko Hk.
    change (NoDup (dedupKey j :: map dedupKey jobs)) in Hnd.
    apply NoDup_cons in Hnd as [Hj Hnd].
    assert (o = j) as ->.
    { destruct (proj1 (elem_of_cons _ _ _) (Hl o (proj2 (elem_of_cons _ _ _) (or_introl eq_refl))))
        as [E|Hin]; [assumption|].
      exfalso. apply Hj. rewrite <- Hko. apply list_elem_of_fmap. now exists o. }
    f_equal. apply IH; [assumption|assumption|].
    intros x Hx.
    destruct (proj1 (elem_of_cons _ _ _) (Hl x (proj2 (elem_of_cons _ _ _) (or_intror Hx))))
      as [->|Hin]; [|assumption].
    exfalso. apply Hj. rewrite <- Hk. apply list_elem_of_fmap. now exists j.
Qed.

End DedupFacts.

Section FetchFacts.

Context {host : JS.Host}.

  (** The loop over the batches: when every batch can be pushed it ends
      normally with the postings of the fulfilled adapters and a warning
      for each rejected one; otherwise the first batch that cannot be
      pushed throws, after the warnings of the adapters before it. *)
Lemma collect_outcome (q l : string) (adapters : list Adapter)
    (jobs : list Job) (console : list string) :
    collect (combine (map (fun a => fetcher a q l) adapters) adapters) jobs console
    = if forallb (batchFits q l) adapters
      then (JS.normal (jobs ++ fulfilledJobs adapters q l),
            console ++ rejections adapters q l)
      else (JS.throw "RangeError",
            console ++ rejections (beforeOverflow q l adapters) q l).
Proof.
    revert jobs console. unfold fulfilledJobs, rejections.
    induction adapters as [|a adapters IH]; intros jobs console;
      cbn [map combine collect forallb beforeOverflow concat flat_map].
    - now rewrite !app_nil_r.
    - unfold batchFits at 1 3, JS.Array_push_spread.
      destruct (fetcher a q l) as [value|reason] eqn:E.
      + destruct (JS.canSpread (length value)); cbn [andb].
        * rewrite IH. cbn [flat_map]. rewrite E. cbn [app].
          destruct (forallb (batchFits q l) adapters); now rewrite <- ?app_assoc.
        * now rewrite app_nil_r.
      + cbn [andb]. rewrite IH. cbn [flat_map]. rewrite E. cbn [app].
        destruct (forallb (batchFits q l) adapters); now rewrite <- ?app_assoc.
Qed.

  (** The outcome of [fetchJobs] and the warnings it writes. *)
Lemma fetchJobs_outcome (jobAdapters : list Adapter) (q l : string) (enabledOnly : bool) :
    let adapters :=
      List.filter (fun a => if enabledOnly then enabled a else true) jobAdapters in
    fetchJobs jobAdapters q l enabledOnly
    = if forallb (batchFits q l) adapters
      then (JS.fulfilled (dedup (fulfilledJobs adapters q l)), rejections adapters q l)
      else (JS.rejected "RangeError", rejections (beforeOverflow q l adapters) q l).
Proof.
    intros adapters. unfold fetchJobs, Promise_allSettled. fold adapters.
    rewrite collect_outcome. now destruct (forallb (batchFits q l) adapters).
Qed.

Lemma dedup_subset (jobs : list Job) (j : Job) : j ∈ dedup jobs -> j ∈ jobs.
Proof.
    intros Hj. apply dedup_last in Hj. unfold lastWithKey in Hj.
    apply last_Some_elem_of in Hj. apply list_elem_of_In in Hj.
    apply filter_In in Hj as [Hj _]. now apply list_elem_of_In.
Qed.

End FetchFacts.




(** C8 on the code: the key is the string [source-id], and two postings
    with different (source, identifier) pairs can have the same string.
    The postings of [collidingPostings] carry the pairs
    [("uni", "sydney-42")] (twice) and [("uni-sydney", "42")]; the
    aggregation keeps the last of the three only, so no posting with the
    pair [("uni", "sydney-42")] is left. *)
Lemma dedup_key_collision :
  dedup collidingPostings = [posting "uni-sydney" "42" "People Analytics Lead"]
  /\ Forall (fun j => (Job.source j, Job.id j) <> ("uni", "sydney-42"))
       (dedup collidingPostings).
Proof.
  split; [reflexivity|].
  constructor; [|constructor]. simpl. discriminate.
Qed.

(** ** The ranker *)

Section SortFacts.

Context {A : Type}.
Variable key : A -> number.

Local Open Scope float_scope.

Let comparefn (a b : A) : number := key b - key a.
Let ordered (a b : A) : Prop := (key b <=? key a) = true.
Let number_key (a : A) : Prop := PrimFloat.is_nan (key a) = false.

Lemma sort_test (x y : A) :
    number_key x -> number_key y ->
    (SortCompare comparefn y x <? 0) = (key x <? key y).
Proof. apply SortCompare_difference. Qed.

Lemma sort_insert_Permutation (x : A) (sorted : list A) :
    Permutation (sort_insert comparefn x sorted) (x :: sorted).
Proof.
    induction sorted as [|y rest IH]; simpl; [reflexivity|].
    destruct (SortCompare comparefn y x <? 0); [|reflexivity].
    rewrite IH. apply perm_swap.
Qed.

Lemma Array_sort_Permutation (arr : list A) :
    Permutation (Array_sort comparefn arr) arr.
Proof.
    induction arr as [|x arr IH]; simpl; [reflexivity|].
    rewrite sort_insert_Permutation. now constructor.
Qed.

Lemma sort_insert_sorted (x : A) (sorted : list A) :
    number_key x -> Forall number_key sorted ->
    StronglySorted ordered sorted ->
    StronglySorted ordered (sort_insert comparefn x sorted).
Proof.
    intros Hx. induction sorted as [|y rest IH]; intros Hn Hs; simpl.
    - constructor; constructor.
    - apply Forall_cons in Hn as [Hy Hn].
      apply StronglySorted_inv in Hs as [Hs Hall].
      rewrite sort_test by assumption.
      destruct (key x <? key y) eqn:E.
      + constructor; [now apply IH|].
        apply (Permutation_Forall (Permutation_sym (sort_insert_Permutation x rest))).
        constructor; [|assumption]. now apply ltb_leb.
      + assert (Hyx : ordered x y) by now apply ltb_false_leb.
        constructor; [now constructor|].
        constructor; [assumption|].
        eapply Forall_impl; [exact Hall|]. intros z Hz.
        unfold ordered in *. now apply (leb_trans (key z) (key y) (key x)).
Qed.

Lemma Array_sort_sorted (arr : list A) :
    Forall number_key arr -> StronglySorted ordered (Array_sort comparefn arr).
Proof.
    induction arr as [|x arr IH]; intros Hn; simpl; [constructor|].
    apply Forall_cons in Hn as [Hx Hn].
    apply sort_insert_sorted; [assumption| |now apply IH].
    now apply (Permutation_Forall (Permutation_sym (Array_sort_Permutation arr))).
Qed.

Lemma filter_cons_if (P : A -> bool) (x : A) (l : list A) :
    List.filter P (x :: l) = if P x then x :: List.filter P l else List.filter P l.
Proof. reflexivity. Qed.

  (** Stability: the elements whose key equals [v] keep their order. *)
Lemma sort_insert_stable (v : number) (x : A) (sorted : list A) :
    number_key x -> Forall number_key sorted ->
    List.filter (fun a => key a =? v) (sort_insert comparefn x sorted)
    = List.filter (fun a => key a =? v) (x :: sorted).
Proof.
    intros Hx. induction sorted as [|y rest IH]; intros Hn; [reflexivity|].
    apply Forall_cons in Hn as [Hy Hn]. cbn [sort_insert].
    rewrite sort_test by assumption.
    destruct (key x <? key y) eqn:E; [|reflexivity].
    rewrite (filter_cons_if _ y), (IH Hn), !filter_cons_if.
    destruct (key y =? v) eqn:Ey, (key x =? v) eqn:Ex; try reflexivity.
    rewrite (eqb_ltb_false _ _ _ Ex Ey) in E. discriminate.
Qed.

Lemma Array_sort_stable (v : number) (arr : list A) :
    Forall number_key arr ->
    List.filter (fun a => key a =? v) (Array_sort comparefn arr)
    = List.filter (fun a => key a =? v) arr.
Proof.
    induction arr as [|x arr IH]; intros Hn; [reflexivity|].
    apply Forall_cons in Hn as [Hx Hn]. cbn [Array_sort].
    rewrite sort_insert_stable; [|assumption|].
    - rewrite !filter_cons_if. now rewrite (IH Hn).
    - now apply (Permutation_Forall (Permutation_sym (Array_sort_Permutation arr))).
Qed.

End SortFacts.

Section SortMap.

Context {A B : Type}.

  (** Sorting records that carry a key beside a payload, then dropping the
      key, is sorting the payloads by the key. *)
Lemma Array_sort_map (f : A -> B) (g : B -> A) (cmpA : A -> A -> number)
    (cmpB : B -> B -> number) (arr : list B) :
    (forall a b, cmpA (g a) (g b) = cmpB a b) -> (forall b, f (g b) = b) ->
    map f (Array_sort cmpA (map g arr)) = Array_sort cmpB arr.
Proof.
    intros Hc Hf.
    assert (Hid : forall l : list B, map (fun x => f (g x)) l = l).
    { induction l as [|x l IH]; simpl; [reflexivity|]. now rewrite Hf, IH. }
    assert (Hi : forall x l, map f (sort_insert cmpA (g x) (map g l))
                             = sort_insert cmpB x l
                             /\ sort_insert cmpA (g x) (map g l)
                                = map g (sort_insert cmpB x l)).
    { intros x l. induction l as [|y l [IH1 IH2]]; simpl.
      - now rewrite Hf.
      - unfold SortCompare. rewrite Hc.
        destruct ((if PrimFloat.is_nan (cmpB y x) then 0 else cmpB y x) <? 0)%float;
          simpl.
        + now rewrite IH1, IH2, Hf.
        + rewrite !Hf. split; [|reflexivity]. f_equal. f_equal.
          rewrite map_map. apply Hid. }
    assert (Hs : Array_sort cmpA (map g arr) = map g (Array_sort cmpB arr)).
    { induction arr as [|x arr IH]; simpl; [reflexivity|].
      rewrite IH. apply Hi. }
    rewrite Hs, map_map. apply Hid.
Qed.

End SortMap.

Section Ranking.

Context {host : JS.Host}.

Variable Date_parse : string -> number.

Local Open Scope float_scope.

Lemma reRank_sort (now : number) (jobs : list Job) (prefs : Preferences) :
    reRank Date_parse now jobs prefs
    = Array_sort
        (fun a b => scoreJob Date_parse now b prefs - scoreJob Date_parse now a prefs)
        (map enrich jobs).
Proof.
    unfold reRank.
    apply (Array_sort_map job
             (fun j => {| job := j; score := scoreJob Date_parse now j prefs |})).
    - reflexivity.
    - reflexivity.
Qed.

  (** C2, as the code has it. When the score of every (tag-enriched)
      posting is a number, the ranker returns the enriched postings, each
      as often as it was given, ordered by non-increasing score: a posting
      placed before another never has the lower score. The sort is stable:
      for every score value, the postings with that score come out in the
      order they came in. *)
Theorem reRank_sorted_stable :
    forall (now : number) (jobs : list Job) (prefs : Preferences),
      let score := fun j => scoreJob Date_parse now j prefs in
      let enriched := map enrich jobs in
      let ranked := reRank Date_parse now jobs prefs in
      Forall (fun j => PrimFloat.is_nan (score j) = false) enriched ->
      Permutation ranked enriched
      /\ StronglySorted (fun a b => (score b <=? score a) = true) ranked
      /\ forall v : number,
           List.filter (fun j => score j =? v) ranked
           = List.filter (fun j => score j =? v) enriched.
Proof.
    intros now jobs prefs score enriched ranked Hn.
    subst ranked. rewrite reRank_sort. fold enriched.
    split; [apply (Array_sort_Permutation score)|].
    split; [now apply (Array_sort_sorted score)|].
    intros v. now apply (Array_sort_stable score).
Qed.

End Ranking.

Lemma reRank_sorted_stable_witness :
  reRank ISO.Date_parse threeDaysLater rankSample defaultPreferences
  = map enrich [ demoJob1; posting "DEMO" "7" "Policy Officer";
                 posting "DEMO" "9" "Risk Analyst" ]
  /\ StronglySorted
       (fun a b =>
          (scoreJob ISO.Date_parse threeDaysLater b defaultPreferences
           <=? scoreJob ISO.Date_parse threeDaysLater a defaultPreferences)%float = true)
       (reRank ISO.Date_parse threeDaysLater rankSample defaultPreferences).
Proof.
  split; [vm_compute; reflexivity|].
  refine (proj1 (proj2 (reRank_sorted_stable ISO.Date_parse threeDaysLater rankSample
                          defaultPreferences _))).
  repeat constructor.
Defined.

(** C2, as the specification states it, fails when a score is NaN. With a
    weight object that lacks the [recency] key, a recent posting scores
    NaN; every comparison with it yields NaN, which the sort takes as
    "equal", so the input order is kept, and the posting behind the NaN
    one does not have a score below or equal to it. *)
Lemma reRank_sorted_counterexample :
  ~ StronglySorted
      (fun a b =>
         (scoreJob ISO.Date_parse threeDaysLater b staleWeightsPrefs
          <=? scoreJob ISO.Date_parse threeDaysLater a staleWeightsPrefs)%float = true)
      (reRank ISO.Date_parse threeDaysLater [demoJob1; undatedJob] staleWeightsPrefs).
Proof.
  assert (Hr : reRank ISO.Date_parse threeDaysLater [demoJob1; undatedJob]
                 staleWeightsPrefs = [enrich demoJob1; enrich undatedJob])
    by (vm_compute; reflexivity).
  assert (Hs : (scoreJob ISO.Date_parse threeDaysLater (enrich undatedJob)
                  staleWeightsPrefs
                <=? scoreJob ISO.Date_parse threeDaysLater (enrich demoJob1)
                      staleWeightsPrefs)%float = false)
    by (vm_compute; reflexivity).
  rewrite Hr. intros H.
  apply StronglySorted_inv in H as [_ H].
  apply Forall_cons in H as [H _].
  rewrite Hs in H. discriminate.
Qed.

(** * Further properties of the code *)

(** ** [clamp] *)

(** X1. For bounds [min <= max], [clamp] of a number lies between the
    bounds. *)
Theorem clamp_within_bounds :
  forall n min max : number,
    (min <=? max)%float = true -> PrimFloat.is_nan n = false ->
    (min <=? clamp n min max)%float = true
    /\ (clamp n min max <=? max)%float = true.
Proof.
  intros n lo hi Hb Hn.
  pose proof (clamp_inRange n lo hi Hb Hn) as H. unfold inRange in H.
  now apply andb_true_iff in H.
Qed.

Lemma clamp_within_bounds_witness :
  (0.2 <=? clamp 7.5 0.2 2.4)%float = true /\ (clamp 7.5 0.2 2.4 <=? 2.4)%float = true.
Proof.
  exact (clamp_within_bounds 7.5%float 0.2%float 2.4%float eq_refl eq_refl).
Defined.

(** X2. [clamp] does not absorb NaN: the result is NaN exactly when one
    of its three arguments is NaN. *)
Theorem clamp_nan_iff :
  forall n min max : number,
    PrimFloat.is_nan (clamp n min max)
    = PrimFloat.is_nan n || PrimFloat.is_nan min || PrimFloat.is_nan max.
Proof.
  intros n lo hi. unfold clamp.
  destruct (PrimFloat.is_nan n) eqn:Hn; simpl.
  - rewrite (is_nan_Math_min hi n) by (rewrite Hn; apply orb_true_r).
    now rewrite (is_nan_Math_max lo nan) by apply orb_true_r.
  - destruct (PrimFloat.is_nan hi) eqn:Hh.
    + rewrite (is_nan_Math_min hi n) by (now rewrite Hh).
      rewrite (is_nan_Math_max lo nan) by apply orb_true_r.
      now rewrite orb_true_r.
    + rewrite (Math_min_not_nan hi n Hh Hn). rewrite orb_false_r.
      pose proof (min_step_not_nan hi n Hh Hn) as Hm.
      destruct (PrimFloat.is_nan lo) eqn:Hl.
      * now rewrite (is_nan_Math_max lo _) by (now rewrite Hl).
      * rewrite (Math_max_not_nan lo _ Hl Hm). now apply max_step_not_nan.
Qed.

(** X3. [clamp] leaves a number that is within the bounds as it is: the
    result is equal to it as a number (a zero may change its sign, as in
    [clamp(-0, 0, 1.4)], which is [+0]). *)
Theorem clamp_in_range_unchanged :
  forall n min max : number,
    (min <=? n)%float = true -> (n <=? max)%float = true ->
    (clamp n min max =? n)%float = true.
Proof.
  intros n lo hi Hl Hh.
  destruct (leb_not_nan _ _ Hl) as [Hlo Hn]. destruct (leb_not_nan _ _ Hh) as [_ Hhi].
  unfold clamp. rewrite (Math_min_not_nan hi n Hhi Hn).
  assert (Hm : (JS.min_step hi n =? n)%float = true).
  { unfold JS.min_step. destruct (JS.is_neg_zero n && JS.is_pos_zero hi).
    - now apply eqb_refl_number.
    - destruct (n <? hi)%float eqn:E; [now apply eqb_refl_number|].
      apply eqb_sym. now apply leb_ltb_false_eqb. }
  pose proof (min_step_not_nan hi n Hhi Hn) as Hmn.
  set (m := JS.min_step hi n) in *.
  rewrite (Math_max_not_nan lo m Hlo Hmn). unfold JS.max_step.
  destruct (JS.is_pos_zero m && JS.is_neg_zero lo); [assumption|].
  destruct (lo <? m)%float eqn:E; [assumption|].
  apply (eqb_trans lo m n); [|assumption].
  apply leb_ltb_false_eqb; [|assumption].
  destruct (eqb_leb _ _ Hm) as [_ Hnm]. now apply (leb_trans lo n m).
Qed.

Lemma clamp_in_range_unchanged_witness :
  (clamp 1.45 0.6 2.2 =? 1.45)%float = true /\ (clamp (-0) 0 1.4 =? -0)%float = true.
Proof.
  split.
  - exact (clamp_in_range_unchanged 1.45%float 0.6%float 2.2%float eq_refl eq_refl).
  - exact (clamp_in_range_unchanged (-0)%float 0%float 1.4%float eq_refl eq_refl).
Defined.

(** ** [learnFromFeedback] *)

Section LearnerMore.

Context {host : JS.Host}.

Local Open Scope float_scope.

Lemma keywords_learnFromFeedback prefs job liked notes selectedTags :
    let ts := map JS.toLowerCase (tagsToLearn job selectedTags) in
    let prefs' := learnFromFeedback prefs job liked notes selectedTags in
    Preferences.keywords prefs'
      = (if liked
         then Preferences.keywords prefs
              ++ firstOccurrences (Preferences.keywords prefs) ts
         else Preferences.keywords prefs)
    /\ Preferences.blockedKeywords prefs'
       = (if liked
          then Preferences.blockedKeywords prefs
          else Preferences.blockedKeywords prefs
               ++ firstOccurrences (Preferences.blockedKeywords prefs) ts).
Proof.
    intros ts prefs'. subst prefs' ts. rewrite learnFromFeedback_unfold.
    destruct (learnNotes_keywords liked notes
                (fold_left (learnTag liked) (tagsToLearn job selectedTags)
                   (if liked
                    then updateWeight prefs "keywordMatch"
                           (fun x => clamp (x + 0.05) 0.6 2.2)
                    else updateWeight prefs "negativeKeyword"
                           (fun x => clamp (x - 0.05) (-3) (-0.6)))))
      as [K B].
    rewrite K, B. destruct liked.
    - destruct (learnTags_liked (tagsToLearn job selectedTags)
                  (updateWeight prefs "keywordMatch"
                     (fun x => clamp (x + 0.05) 0.6 2.2))) as [H1 H2].
      now rewrite H1, H2.
    - destruct (learnTags_disliked (tagsToLearn job selectedTags)
                  (updateWeight prefs "negativeKeyword"
                     (fun x => clamp (x - 0.05) (-3) (-0.6)))) as [H1 H2].
      now rewrite H1, H2.
Qed.

Lemma firstOccurrences_all_seen (l seen : list string) :
    (forall x, x ∈ l -> x ∈ seen) -> firstOccurrences seen l = [].
Proof.
    induction l as [|x l IH]; intros H; simpl; [reflexivity|].
    rewrite bool_decide_eq_true_2 by (apply H, elem_of_cons; now left).
    apply IH. intros y Hy. apply H, elem_of_cons. now right.
Qed.

Lemma NoDup_app_firstOccurrences (old l : list string) :
    NoDup old -> NoDup (old ++ firstOccurrences old l).
Proof.
    intros H. destruct (firstOccurrences_spec l old) as [Hnd Hin].
    apply NoDup_app. split; [assumption|]. split; [|assumption].
    intros x Hx Hx'. apply Hin in Hx'. tauto.
Qed.

Lemma sameSettings_refl p : sameSettings p p.
Proof. repeat split. Qed.

Lemma sameSettings_trans p q r :
    sameSettings p q -> sameSettings q r -> sameSettings p r.
Proof. unfold sameSettings. intuition congruence. Qed.

Lemma sameSettings_learnTag liked p t : sameSettings p (learnTag liked p t).
Proof.
    unfold learnTag.
    destruct liked;
      [destruct (JS.Array_includes (Preferences.keywords p) _)
      |destruct (JS.Array_includes (Preferences.blockedKeywords p) _)];
      repeat split.
Qed.

Lemma sameSettings_learnTags liked ts p :
    sameSettings p (fold_left (learnTag liked) ts p).
Proof.
    revert p. induction ts as [|t ts IH]; intros p; simpl.
    - apply sameSettings_refl.
    - eapply sameSettings_trans; [apply (sameSettings_learnTag liked p t)|apply IH].
Qed.

Lemma sameSettings_learnNotes liked notes p :
    sameSettings p (learnNotes liked notes p).
Proof.
    unfold learnNotes. cbv zeta. set (n := JS.toLowerCase notes).
    destruct (JS.includes n "salary" || JS.includes n "pay");
      destruct (JS.includes n "remote" || JS.includes n "hybrid");
      destruct (JS.includes n "leadership" || JS.includes n "manager"
                || JS.includes n "director");
      destruct (JS.includes n "consult");
      destruct (JS.includes n "university" || JS.includes n "academic");
      repeat split.
Qed.

Lemma flags_learnNotes liked notes p :
    let n := JS.toLowerCase notes in
    Preferences.consulting (learnNotes liked notes p)
      = (if JS.includes n "consult" then liked else Preferences.consulting p)
    /\ Preferences.academia (learnNotes liked notes p)
       = (if JS.includes n "university" || JS.includes n "academic"
          then liked else Preferences.academia p).
Proof.
    unfold learnNotes. cbv zeta. set (n := JS.toLowerCase notes).
    destruct (JS.includes n "salary" || JS.includes n "pay");
      destruct (JS.includes n "remote" || JS.includes n "hybrid");
      destruct (JS.includes n "leadership" || JS.includes n "manager"
                || JS.includes n "director");
      destruct (JS.includes n "consult");
      destruct (JS.includes n "university" || JS.includes n "academic");
      split; reflexivity.
Qed.

Lemma flags_learnTags liked ts p :
    Preferences.consulting (fold_left (learnTag liked) ts p) = Preferences.consulting p
    /\ Preferences.academia (fold_left (learnTag liked) ts p) = Preferences.academia p.
Proof.
    revert p. induction ts as [|t ts IH]; intros p; simpl; [now split|].
    destruct (IH (learnTag liked p t)) as [H1 H2]. rewrite H1, H2.
    unfold learnTag.
    destruct liked;
      [destruct (JS.Array_includes (Preferences.keywords p) _)
      |destruct (JS.Array_includes (Preferences.blockedKeywords p) _)];
      now split.
Qed.

End LearnerMore.

(** X4. Whatever the event, the learner leaves the location lists, the
    minimum salary, the work types, industries and seniority labels, the
    remote-only flag and the public and private sector flags as they
    were, and it leaves every weight other than [keywordMatch],
    [negativeKeyword], [salary], [remote] and [seniority] as it was (the
    [locationMatch], [workType], [industry] and [recency] weights are
    never learned). The [consulting] flag becomes the liked flag when the
    lowercased notes contain "consult" and is unchanged otherwise; the
    [academia] flag likewise for "university" or "academic". *)
Theorem learnFromFeedback_frame {host : JS.Host} :
  forall (prefs : Preferences) (job : Job) (liked : bool) (notes : string)
         (selectedTags : list string),
    let prefs' := learnFromFeedback prefs job liked notes selectedTags in
    let n := JS.toLowerCase notes in
    sameSettings prefs prefs'
    /\ (forall k, k ∉ learnedKeys ->
          Preferences.weights prefs' !! k = Preferences.weights prefs !! k)
    /\ Preferences.consulting prefs'
       = (if JS.includes n "consult" then liked else Preferences.consulting prefs)
    /\ Preferences.academia prefs'
       = (if JS.includes n "university" || JS.includes n "academic"
          then liked else Preferences.academia prefs).
Proof.
  intros prefs job liked notes selectedTags prefs' n. subst prefs' n.
  rewrite learnFromFeedback_unfold.
  set (p0 := if liked then _ else _).
  set (p1 := fold_left (learnTag liked) (tagsToLearn job selectedTags) p0).
  assert (H0 : sameSettings prefs p0 /\ Preferences.consulting p0 = Preferences.consulting prefs
               /\ Preferences.academia p0 = Preferences.academia prefs)
    by (subst p0; destruct liked; repeat split).
  destruct H0 as (H0 & C0 & A0).
  split; [|split; [|split]].
  - eapply sameSettings_trans; [exact H0|].
    eapply sameSettings_trans;
      [apply (sameSettings_learnTags liked (tagsToLearn job selectedTags) p0)|].
    apply sameSettings_learnNotes.
  - intros k Hk. unfold learnedKeys in Hk.
    rewrite !not_elem_of_cons in Hk. destruct Hk as (K1 & K2 & K3 & K4 & K5 & _).
    rewrite learnNotes_weights_other by congruence.
    subst p1. rewrite weights_learnTags. subst p0.
    destruct liked; unfold updateWeight, set_weight; simpl;
      now rewrite lookup_insert_ne by congruence.
  - destruct (flags_learnNotes liked notes p1) as [H _]. rewrite H.
    destruct (flags_learnTags liked (tagsToLearn job selectedTags) p0) as [H' _].
    subst p1. now rewrite H', C0.
  - destruct (flags_learnNotes liked notes p1) as [_ H]. rewrite H.
    destruct (flags_learnTags liked (tagsToLearn job selectedTags) p0) as [_ H'].
    subst p1. now rewrite H', A0.
Qed.

(** X5. A weight the learner assigns ends within its clamp range whatever
    value it had, unless it was NaN (or absent): after a like the
    [keywordMatch] weight lies in [0.6, 2.2], after a dislike the
    [negativeKeyword] weight lies in [-3, -0.6], and after notes that
    mention salary or pay the [salary] weight lies in [0.2, 2.4]; so a
    weight moved out of its range with the slider is pulled back by the
    next event that touches it. *)
Theorem learnFromFeedback_touched_in_range {host : JS.Host} :
  forall (prefs : Preferences) (job : Job) (liked : bool) (notes : string)
         (selectedTags : list string),
    let w := Preferences.weights prefs in
    let w' := Preferences.weights (learnFromFeedback prefs job liked notes selectedTags) in
    let n := JS.toLowerCase notes in
    (if liked
     then PrimFloat.is_nan (weight w "keywordMatch") = false ->
          inRange 0.6 2.2 (weight w' "keywordMatch") = true
     else PrimFloat.is_nan (weight w "negativeKeyword") = false ->
          inRange (-3) (-0.6) (weight w' "negativeKeyword") = true)
    /\ (JS.includes n "salary" || JS.includes n "pay" = true ->
        PrimFloat.is_nan (weight w "salary") = false ->
        inRange 0.2 2.4 (weight w' "salary") = true)
    /\ (JS.includes n "remote" || JS.includes n "hybrid" = true ->
        PrimFloat.is_nan (weight w "remote") = false ->
        inRange 0 1.4 (weight w' "remote") = true)
    /\ (JS.includes n "leadership" || JS.includes n "manager"
        || JS.includes n "director" = true ->
        PrimFloat.is_nan (weight w "seniority") = false ->
        inRange 0.2 2 (weight w' "seniority") = true).
Proof.
  intros prefs job liked notes selectedTags w w' n. subst w' n.
  rewrite learnFromFeedback_unfold.
  set (p0 := if liked
             then updateWeight prefs "keywordMatch" _
             else updateWeight prefs "negativeKeyword" _).
  set (p1 := fold_left (learnTag liked) (tagsToLearn job selectedTags) p0).
  assert (Hw1 : Preferences.weights p1 = Preferences.weights p0)
    by (subst p1; apply weights_learnTags).
  assert (Hother : forall k, k <> "keywordMatch" -> k <> "negativeKeyword" ->
                     weight (Preferences.weights p1) k = weight w k).
  { intros k K1 K2. rewrite Hw1. subst p0 w. unfold weight.
    destruct liked; unfold updateWeight, set_weight; simpl;
      now rewrite lookup_insert_ne by congruence. }
  destruct (learnNotes_weights liked notes p1) as (Hs & Hr & Hn).
  assert (Hd : SFfinite (Prim2SF (noteDelta liked)) = true) by now destruct liked.
  split; [|split; [|split]].
  - assert (Hk : forall k, k <> "salary" -> k <> "remote" -> k <> "seniority" ->
                   weight (Preferences.weights (learnNotes liked notes p1)) k
                   = weight (Preferences.weights p0) k).
    { intros k K1 K2 K3. unfold weight.
      now rewrite learnNotes_weights_other, Hw1 by assumption. }
    subst p0. destruct liked; intros Hnan; rewrite Hk by discriminate;
      unfold updateWeight, set_weight, weight; simpl;
      rewrite lookup_insert_eq; simpl; apply clamp_inRange; try reflexivity.
    + now apply add_not_nan.
    + now apply sub_not_nan.
  - intros Hc Hnan. unfold weight at 1. rewrite Hs, Hc. simpl.
    apply clamp_inRange; [reflexivity|]. apply add_not_nan; [|assumption].
    now rewrite Hother by discriminate.
  - intros Hc Hnan. unfold weight at 1. rewrite Hr, Hc. simpl.
    apply clamp_inRange; [reflexivity|]. apply add_not_nan; [|assumption].
    now rewrite Hother by discriminate.
  - intros Hc Hnan. unfold weight at 1. rewrite Hn, Hc. simpl.
    apply clamp_inRange; [reflexivity|]. apply add_not_nan; [|assumption].
    now rewrite Hother by discriminate.
Qed.

Lemma learnFromFeedback_touched_in_range_witness :
  inRange 0.2 2.4
    (weight (Preferences.weights
               (learnFromFeedback sliderPrefs demoJob1 false "salary too low" []))
       "salary") = true.
Proof.
  exact (proj1 (proj2 (learnFromFeedback_touched_in_range sliderPrefs demoJob1 false
                         "salary too low" []))
           eq_refl eq_refl).
Defined.

(** X6. The allow-list and the block-list stay free of duplicates: if
    neither has a repeated entry before a sequence of feedback events,
    neither has one after it. *)
Theorem learnAll_NoDup {host : JS.Host} :
  forall (prefs : Preferences) (events : list Feedback),
    NoDup (Preferences.keywords prefs) ->
    NoDup (Preferences.blockedKeywords prefs) ->
    NoDup (Preferences.keywords (learnAll prefs events))
    /\ NoDup (Preferences.blockedKeywords (learnAll prefs events)).
Proof.
  intros prefs events. revert prefs. unfold learnAll.
  induction events as [|ev events IH]; intros prefs Hk Hb; simpl; [now split|].
  destruct (keywords_learnFromFeedback prefs (fb_job ev) (fb_liked ev) (fb_notes ev)
              (fb_tags ev)) as [K B].
  apply IH.
  - rewrite K. destruct (fb_liked ev); [now apply NoDup_app_firstOccurrences|assumption].
  - rewrite B. destruct (fb_liked ev); [assumption|now apply NoDup_app_firstOccurrences].
Qed.

Lemma learnAll_NoDup_witness :
  NoDup (Preferences.keywords (learnAll defaultPreferences [plainLike; plainLike])).
Proof.
  refine (proj1 (learnAll_NoDup defaultPreferences [plainLike; plainLike] _ _)).
  - vm_compute. repeat (constructor; [rewrite ?elem_of_cons, ?elem_of_nil;
                                      intuition discriminate|]). constructor.
  - vm_compute. repeat (constructor; [rewrite ?elem_of_cons, ?elem_of_nil;
                                      intuition discriminate|]). constructor.
Defined.

(** X7. Giving the same feedback a second time teaches no further tag:
    the allow-list and the block-list after the second event are the
    lists after the first. *)
Theorem learnFromFeedback_tags_once {host : JS.Host} :
  forall (prefs : Preferences) (job : Job) (liked : bool) (notes : string)
         (selectedTags : list string),
    let once := learnFromFeedback prefs job liked notes selectedTags in
    let twice := learnFromFeedback once job liked notes selectedTags in
    Preferences.keywords twice = Preferences.keywords once
    /\ Preferences.blockedKeywords twice = Preferences.blockedKeywords once.
Proof.
  intros prefs job liked notes selectedTags once twice. subst twice.
  destruct (keywords_learnFromFeedback once job liked notes selectedTags) as [K2 B2].
  destruct (keywords_learnFromFeedback prefs job liked notes selectedTags) as [K1 B1].
  fold once in K1, B1. rewrite K2, B2.
  set (ts := map JS.toLowerCase (tagsToLearn job selectedTags)) in *.
  assert (Hall : forall old x, x ∈ ts -> x ∈ old ++ firstOccurrences old ts).
  { intros old x Hx. rewrite elem_of_app.
    destruct (decide (x ∈ old)) as [Ho|Ho]; [now left|right].
    now apply firstOccurrences_spec. }
  destruct liked; (split; [|]); try reflexivity.
  - rewrite firstOccurrences_all_seen; [apply app_nil_r|].
    intros x Hx. rewrite K1. now apply Hall.
  - rewrite firstOccurrences_all_seen; [apply app_nil_r|].
    intros x Hx. rewrite B1. now apply Hall.
Qed.

(** X8. The learner reads its notes and tags without regard to case, and
    reads nothing of the posting but its tags: two events on the same
    profile with the same liked flag, whose notes agree after lowercasing
    and whose tags to learn from agree after lowercasing, give the same
    profile. What it appends to a keyword list is the lowercase form of a
    tag it learned from. *)
Theorem learnFromFeedback_case_insensitive {host : JS.Host} :
  forall (prefs : Preferences) (job job' : Job) (liked : bool) (notes notes' : string)
         (selectedTags selectedTags' : list string),
    JS.toLowerCase notes = JS.toLowerCase notes' ->
    map JS.toLowerCase (tagsToLearn job selectedTags)
      = map JS.toLowerCase (tagsToLearn job' selectedTags') ->
    learnFromFeedback prefs job liked notes selectedTags
      = learnFromFeedback prefs job' liked notes' selectedTags'
    /\ forall x,
         x ∈ Preferences.keywords (learnFromFeedback prefs job liked notes selectedTags)
             ++ Preferences.blockedKeywords
                  (learnFromFeedback prefs job liked notes selectedTags) ->
         x ∈ Preferences.keywords prefs ++ Preferences.blockedKeywords prefs
         \/ exists t, (t ∈ tagsToLearn job selectedTags) /\ x = JS.toLowerCase t.
Proof.
  intros prefs job job' liked notes notes' selectedTags selectedTags' Hn Ht.
  assert (Hfold : forall ts p,
             fold_left (learnTag liked) ts p
             = fold_left
                 (fun q x =>
                    if liked
                    then if negb (JS.Array_includes (Preferences.keywords q) x)
                         then Preferences.set_keywords q (Preferences.keywords q ++ [x])
                         else q
                    else if negb (JS.Array_includes (Preferences.blockedKeywords q) x)
                         then Preferences.set_blockedKeywords q
                                (Preferences.blockedKeywords q ++ [x])
                         else q)
                 (map JS.toLowerCase ts) p).
  { induction ts as [|t ts IH]; intros p; simpl; [reflexivity|]. now rewrite IH. }
  split.
  - rewrite !learnFromFeedback_unfold. unfold learnNotes.
    now rewrite !Hfold, Hn, Ht.
  - intros x Hx.
    destruct (keywords_learnFromFeedback prefs job liked notes selectedTags) as [K B].
    rewrite K, B in Hx. rewrite !elem_of_app in *.
    assert (Hlow : forall old y,
               y ∈ firstOccurrences old
                     (map JS.toLowerCase (tagsToLearn job selectedTags)) ->
               exists t, (t ∈ tagsToLearn job selectedTags) /\ y = JS.toLowerCase t).
    { intros old y Hy. apply firstOccurrences_spec in Hy as [_ Hy].
      apply list_elem_of_fmap in Hy as (t & -> & Hin). now exists t. }
    destruct liked.
    + destruct Hx as [Hx|Hx]; [|now left; right].
      apply elem_of_app in Hx as [Hx|Hx]; [now left; left|right; eauto].
    + destruct Hx as [Hx|Hx]; [now left; left|].
      apply elem_of_app in Hx as [Hx|Hx]; [now left; right|right; eauto].
Qed.

Lemma learnFromFeedback_case_insensitive_witness :
  learnFromFeedback defaultPreferences demoJob1 false "SALARY too low" ["Leadership"]
  = learnFromFeedback defaultPreferences undatedJob false "salary TOO LOW" ["leadership"].
Proof.
  exact (proj1 (learnFromFeedback_case_insensitive defaultPreferences demoJob1
                  undatedJob false "SALARY too low" "salary TOO LOW"
                  ["Leadership"] ["leadership"] eq_refl eq_refl)).
Defined.

(** ** [extractTags] *)

Section ExtractFacts.

Context {host : JS.Host}.

Lemma filter_sublist {A} (f : A -> bool) (l : list A) : List.filter f l `sublist_of` l.
Proof.
    induction l as [|x l IH]; simpl; [constructor|].
    destruct (f x); now constructor.
Qed.

Lemma filter_elem_of {A} (f : A -> bool) (l : list A) (x : A) :
    x ∈ List.filter f l <-> (x ∈ l) /\ f x = true.
Proof. rewrite !list_elem_of_In. apply filter_In. Qed.

Lemma picks_NoDup : NoDup picks.
Proof.
    apply (bool_decide_unpack _). vm_compute. exact I.
Qed.

End ExtractFacts.

(** X9. [extractTags] returns at most twelve tags; they are terms of the
    vocabulary, in the vocabulary's order and without repetition, and each
    occurs in the lowercased title-and-description text. Every vocabulary
    term that occurs there is returned, unless twelve terms were found
    already. *)
Theorem extractTags_vocabulary {host : JS.Host} :
  forall job : Job,
    let blob :=
      JS.toLowerCase (Job.title job +:+ " " +:+ default "" (Job.description job)) in
    let tags := extractTags job in
    length tags <= 12
    /\ tags `sublist_of` picks
    /\ NoDup tags
    /\ (forall t, t ∈ tags -> JS.includes blob t = true)
    /\ (forall t, t ∈ picks -> JS.includes blob t = true ->
          (t ∈ tags) \/ length tags = 12).
Proof.
  intros job blob tags. subst tags. unfold extractTags. fold blob.
  set (found := List.filter (fun p => JS.includes blob p) picks).
  assert (Hsub : take 12 found `sublist_of` picks).
  { etransitivity; [apply sublist_take|apply filter_sublist]. }
  split; [rewrite length_take; lia|]. split; [exact Hsub|].
  split; [eapply sublist_NoDup; [exact picks_NoDup|exact Hsub]|]. split.
  - intros t Ht.
    assert (Hf : t ∈ found)
      by (eapply elem_of_sublist; [exact Ht|apply sublist_take]).
    now apply filter_elem_of in Hf.
  - intros t Ht Hin.
    destruct (le_lt_dec (length found) 12) as [Hle|Hgt].
    + left. rewrite take_ge by assumption. now apply filter_elem_of.
    + right. rewrite length_take. lia.
Qed.

(** X10. Tag extraction is case-insensitive and reads the title and the
    description only: two postings whose titles agree after lowercasing
    and whose descriptions (an absent one counting as empty) agree after
    lowercasing get the same tags. *)
Theorem extractTags_case_insensitive {host : JS.Host} :
  forall job job' : Job,
    JS.toLowerCase (Job.title job) = JS.toLowerCase (Job.title job') ->
    JS.toLowerCase (default "" (Job.description job))
      = JS.toLowerCase (default "" (Job.description job')) ->
    extractTags job = extractTags job'.
Proof.
  intros job job' Ht Hd. unfold extractTags.
  now rewrite !JS.toLowerCase_space, Ht, Hd.
Qed.

Lemma extractTags_case_insensitive_witness :
  extractTags (posting "DEMO" "1" "Senior POLICY Analyst")
  = extractTags (posting "SEEK" "77" "senior policy analyst").
Proof.
  exact (extractTags_case_insensitive (posting "DEMO" "1" "Senior POLICY Analyst")
           (posting "SEEK" "77" "senior policy analyst") eq_refl eq_refl).
Defined.

(** ** [scoreJob] and [daysSince] *)

Section NaNFacts.

Local Open Scope float_scope.

Lemma mul_nan_r (x y : float) :
    PrimFloat.is_nan y = true -> PrimFloat.is_nan (x * y) = true.
Proof.
    rewrite !is_nan_spec, mul_spec. intros ->. unfold SF64mul.
    now destruct (Prim2SF x).
Qed.

Lemma add_nan_l (x y : float) :
    PrimFloat.is_nan x = true -> PrimFloat.is_nan (x + y) = true.
Proof. rewrite !is_nan_spec, add_spec. now intros ->. Qed.

Lemma add_nan_r (x y : float) :
    PrimFloat.is_nan y = true -> PrimFloat.is_nan (x + y) = true.
Proof.
    rewrite !is_nan_spec, add_spec. intros ->. unfold SF64add.
    now destruct (Prim2SF x).
Qed.

Lemma sub_nan_l (x y : float) :
    PrimFloat.is_nan x = true -> PrimFloat.is_nan (x - y) = true.
Proof. rewrite !is_nan_spec, sub_spec. now intros ->. Qed.

Lemma sub_nan_r (x y : float) :
    PrimFloat.is_nan y = true -> PrimFloat.is_nan (x - y) = true.
Proof.
    rewrite !is_nan_spec, sub_spec. intros ->. unfold SF64sub.
    now destruct (Prim2SF x).
Qed.

Lemma div_nan_l (x y : float) :
    PrimFloat.is_nan x = true -> PrimFloat.is_nan (x / y) = true.
Proof. rewrite !is_nan_spec, div_spec. now intros ->. Qed.

Lemma Math_floor_nan (x : float) :
    PrimFloat.is_nan x = true -> JS.Math_floor x = x.
Proof. rewrite is_nan_spec. unfold JS.Math_floor. now intros ->. Qed.

Lemma ltb_nan_false (x y : float) :
    PrimFloat.is_nan x = true -> (x <? y) = false.
Proof. rewrite is_nan_spec, FloatAxioms.ltb_spec. now intros ->. Qed.

End NaNFacts.

Section ScoringMore.

Context {host : JS.Host}.

Variable Date_parse : string -> number.

Local Open Scope float_scope.





  (** X11. The score of a posting does not depend on the profile's
      excluded locations, its remote-only flag or its four sector flags,
      nor on the posting's identifier, company, URL and source. *)
Theorem scoreJob_ignored_fields :
    forall (now : number) (job : Job) (prefs : Preferences)
           (id' company' url' source' : string) (excludedLocations' : list string)
           (remoteOnly' academia' consulting' publicSector' privateSector' : bool),
      scoreJob Date_parse now
        (Job.mk id' (Job.title job) company' (Job.location job) url'
           (Job.postedAt job) (Job.description job) source' (Job.tags job)
           (Job.salaryMin job) (Job.salaryMax job) (Job.workType job)
           (Job.seniority job) (Job.remote job) (Job.hybrid job))
        (Preferences.mk (Preferences.keywords prefs) (Preferences.blockedKeywords prefs)
           (Preferences.preferredLocations prefs) excludedLocations'
           (Preferences.minSalary prefs) (Preferences.workTypes prefs)
           (Preferences.industries prefs) (Preferences.seniority prefs)
           remoteOnly' academia' consulting' publicSector' privateSector'
           (Preferences.weights prefs))
      = scoreJob Date_parse now job prefs.
Proof. reflexivity. Qed.


Lemma scoreJob_is_nan (now : number) (job : Job) (prefs : Preferences) :
    PrimFloat.is_nan (weight (Preferences.weights prefs) "keywordMatch")
    || PrimFloat.is_nan (weight (Preferences.weights prefs) "negativeKeyword") = true ->
    PrimFloat.is_nan (scoreJob Date_parse now job prefs) = true.
Proof.
    intros H. unfold scoreJob.
    do 7 apply add_nan_l.
    apply orb_true_iff in H as [H|H].
    - apply add_nan_l. unfold kwScore. now apply mul_nan_r.
    - apply add_nan_r. unfold negScore. now apply mul_nan_r.
Qed.

  (** X13. A profile whose [keywordMatch] or [negativeKeyword] weight is
      absent from the weight object (or is NaN) gives every posting the
      score NaN. *)
Theorem scoreJob_nan_weight :
    forall (now : number) (job : Job) (prefs : Preferences),
      PrimFloat.is_nan (weight (Preferences.weights prefs) "keywordMatch")
      || PrimFloat.is_nan (weight (Preferences.weights prefs) "negativeKeyword") = true ->
      PrimFloat.is_nan (scoreJob Date_parse now job prefs) = true.
Proof. intros now job prefs. apply scoreJob_is_nan. Qed.

  (** X14. A posting date that the platform cannot parse gives the age
      NaN, and the recency factor is then 0: such a posting scores as one
      without a date. *)
Theorem recencyScore_unparsable_date :
    forall (now : number) (job : Job) (prefs : Preferences) (s : string),
      Job.postedAt job = Some s -> s <> EmptyString ->
      PrimFloat.is_nan (Date_parse s) = true ->
      PrimFloat.is_nan (daysSince Date_parse now (Job.postedAt job)) = true
      /\ recencyScore Date_parse now job prefs = 0.
Proof.
    intros now job prefs s Hs Hne Hnan.
    assert (Hd : PrimFloat.is_nan (daysSince Date_parse now (Job.postedAt job)) = true).
    { rewrite Hs. unfold daysSince. destruct s as [|c s]; [congruence|].
      set (q := (now - Date_parse (String c s)) / (1000 * 60 * 60 * 24)).
      assert (Hq : PrimFloat.is_nan q = true) by now apply div_nan_l, sub_nan_r.
      now rewrite (Math_floor_nan q Hq). }
    split; [exact Hd|]. unfold recencyScore. now rewrite (ltb_nan_false _ 21 Hd).
Qed.

End ScoringMore.

Lemma scoreJob_nan_weight_witness :
  PrimFloat.is_nan
    (scoreJob ISO.Date_parse threeDaysLater demoJob1
       (Preferences.set_weights defaultPreferences
          (delete "keywordMatch" (Preferences.weights defaultPreferences)))) = true.
Proof.
  exact (scoreJob_nan_weight ISO.Date_parse threeDaysLater demoJob1
           (Preferences.set_weights defaultPreferences
              (delete "keywordMatch" (Preferences.weights defaultPreferences)))
           eq_refl).
Defined.

Lemma recencyScore_unparsable_date_witness :
  recencyScore ISO.Date_parse threeDaysLater
    (Job.mk "1" "Analyst" "" "" "" (Some "last Tuesday") None "DEMO" None None None
       None None None None)
    defaultPreferences = 0%float.
Proof.
  refine (proj2 (recencyScore_unparsable_date ISO.Date_parse threeDaysLater
                   (Job.mk "1" "Analyst" "" "" "" (Some "last Tuesday") None "DEMO"
                      None None None None None None None)
                   defaultPreferences "last Tuesday" eq_refl _ eq_refl)).
  discriminate.
Defined.


(** ** [reRank] *)

Section RankingMore.

Context {host : JS.Host}.

Variable Date_parse : string -> number.

Local Open Scope float_scope.

Lemma Array_sort_all_nan {A} (key : A -> number) (arr : list A) :
    Forall (fun a => PrimFloat.is_nan (key a) = true) arr ->
    Array_sort (fun a b => key b - key a) arr = arr.
Proof.
    induction arr as [|x arr IH]; intros H; simpl; [reflexivity|].
    apply Forall_cons in H as [Hx H]. rewrite (IH H).
    destruct arr as [|y arr]; simpl; [reflexivity|].
    unfold SortCompare. now rewrite (sub_nan_l (key x) (key y) Hx).
Qed.

Lemma Array_sort_sorted_id {A} (key : A -> number) (arr : list A) :
    Forall (fun a => PrimFloat.is_nan (key a) = false) arr ->
    StronglySorted (fun a b => (key b <=? key a) = true) arr ->
    Array_sort (fun a b => key b - key a) arr = arr.
Proof.
    induction arr as [|x arr IH]; intros Hn Hs; simpl; [reflexivity|].
    apply Forall_cons in Hn as [Hx Hn].
    apply StronglySorted_inv in Hs as [Hs Hall]. rewrite (IH Hn Hs).
    destruct arr as [|y arr]; simpl; [reflexivity|].
    apply Forall_cons in Hn as [Hy _]. apply Forall_cons in Hall as [Hxy _].
    rewrite (SortCompare_difference key y x Hx Hy).
    now rewrite (leb_ltb_false _ _ Hxy).
Qed.

Lemma extractTags_with_tags (j : Job) (ts : list string) :
    extractTags (Job.with_tags j ts) = extractTags j.
Proof. unfold extractTags. reflexivity. Qed.

Lemma enrich_with_tags (j : Job) (ts : list string) :
    enrich (Job.with_tags j ts)
    = Job.with_tags j (match ts with _ :: _ => ts | [] => extractTags j end).
Proof.
    unfold enrich. cbn [Job.tags Job.with_tags].
    rewrite extractTags_with_tags. now destruct ts.
Qed.

Lemma enrich_idempotent (j : Job) : enrich (enrich j) = enrich j.
Proof.
    unfold enrich at 2 3.
    destruct (Job.tags j) as [[|t ts]|]; rewrite enrich_with_tags.
    - now destruct (extractTags j).
    - reflexivity.
    - now destruct (extractTags j).
Qed.

Lemma map_fixed {A} (f : A -> A) (l : list A) :
    (forall x, x ∈ l -> f x = x) -> map f l = l.
Proof.
    induction l as [|x l IH]; intros H; simpl; [reflexivity|].
    rewrite H by (apply elem_of_cons; now left).
    rewrite IH; [reflexivity|]. intros y Hy. apply H, elem_of_cons. now right.
Qed.

  (** X15. Whatever the scores, NaN included, ranking neither drops nor
      repeats a posting: the result is a rearrangement of the tag-enriched
      input and has the length of the input. *)
Theorem reRank_Permutation :
    forall (now : number) (jobs : list Job) (prefs : Preferences),
      Permutation (reRank Date_parse now jobs prefs) (map enrich jobs)
      /\ length (reRank Date_parse now jobs prefs) = length jobs.
Proof.
    intros now jobs prefs. rewrite reRank_sort.
    pose proof (Array_sort_Permutation
                  (fun j => scoreJob Date_parse now j prefs) (map enrich jobs)) as H.
    split; [exact H|].
    rewrite (Permutation_length H). apply length_map.
Qed.

  (** X16. With a profile whose [keywordMatch] or [negativeKeyword] weight
      is absent (or NaN), ranking does nothing but enrich the tags: the
      postings come back in the order they were given. *)
Theorem reRank_nan_weight_keeps_order :
    forall (now : number) (jobs : list Job) (prefs : Preferences),
      PrimFloat.is_nan (weight (Preferences.weights prefs) "keywordMatch")
      || PrimFloat.is_nan (weight (Preferences.weights prefs) "negativeKeyword") = true ->
      reRank Date_parse now jobs prefs = map enrich jobs.
Proof.
    intros now jobs prefs H. rewrite reRank_sort.
    apply (Array_sort_all_nan (fun j => scoreJob Date_parse now j prefs)).
    apply Forall_forall. intros j _. now apply scoreJob_is_nan.
Qed.

  (** X17. Ranking a ranked list again, at the same clock reading and with
      the same profile, returns it as it is (when no score is NaN). *)
Theorem reRank_idempotent :
    forall (now : number) (jobs : list Job) (prefs : Preferences),
      Forall (fun j => PrimFloat.is_nan (scoreJob Date_parse now j prefs) = false)
        (map enrich jobs) ->
      reRank Date_parse now (reRank Date_parse now jobs prefs) prefs
      = reRank Date_parse now jobs prefs.
Proof.
    intros now jobs prefs Hn.
    pose (score := fun j => scoreJob Date_parse now j prefs).
    pose (ranked := Array_sort (fun a b => score b - score a) (map enrich jobs)).
    assert (Hr : reRank Date_parse now jobs prefs = ranked) by apply reRank_sort.
    pose proof (Array_sort_Permutation score (map enrich jobs)) as Hp.
    change (ranked ≡ₚ map enrich jobs) in Hp.
    rewrite Hr, (reRank_sort Date_parse now ranked prefs).
    change (Array_sort (fun a b => score b - score a) (map enrich ranked) = ranked).
    assert (He : map enrich ranked = ranked).
    { apply map_fixed. intros x Hx.
      rewrite Hp in Hx. apply list_elem_of_fmap in Hx as (j & -> & _).
      apply enrich_idempotent. }
    rewrite He. apply (Array_sort_sorted_id score).
    - now apply (Permutation_Forall (Permutation_sym Hp)).
    - now apply (Array_sort_sorted score).
Qed.

Lemma enrich_tagged (j : Job) (t : string) (ts : list string) :
    Job.tags j = Some (t :: ts) -> enrich j = j.
Proof.
    intros H. unfold enrich. rewrite H. destruct j. cbn in H. now subst.
Qed.

  (** X18. Tags that come with a posting are authoritative: when every
      posting carries a non-empty tag list, ranking returns the postings
      themselves, rearranged, with no field changed. *)
Theorem reRank_keeps_given_tags :
    forall (now : number) (jobs : list Job) (prefs : Preferences),
      Forall (fun j => exists t ts, Job.tags j = Some (t :: ts)) jobs ->
      Permutation (reRank Date_parse now jobs prefs) jobs.
Proof.
    intros now jobs prefs H. rewrite reRank_sort.
    assert (He : map enrich jobs = jobs).
    { apply map_fixed. intros j Hj. rewrite Forall_forall in H.
      destruct (H j Hj) as (t & ts & Ht). exact (enrich_tagged j t ts Ht). }
    rewrite He.
    apply (Array_sort_Permutation (fun j => scoreJob Date_parse now j prefs)).
Qed.

End RankingMore.

Lemma reRank_nan_weight_keeps_order_witness :
  reRank ISO.Date_parse threeDaysLater rankSample
    (Preferences.set_weights defaultPreferences
       (delete "keywordMatch" (Preferences.weights defaultPreferences)))
  = map enrich rankSample.
Proof.
  exact (reRank_nan_weight_keeps_order ISO.Date_parse threeDaysLater rankSample
           (Preferences.set_weights defaultPreferences
              (delete "keywordMatch" (Preferences.weights defaultPreferences)))
           eq_refl).
Defined.

Lemma reRank_idempotent_witness :
  reRank ISO.Date_parse threeDaysLater
    (reRank ISO.Date_parse threeDaysLater rankSample defaultPreferences)
    defaultPreferences
  = reRank ISO.Date_parse threeDaysLater rankSample defaultPreferences.
Proof.
  refine (reRank_idempotent ISO.Date_parse threeDaysLater rankSample
            defaultPreferences _).
  repeat constructor.
Defined.

Lemma reRank_keeps_given_tags_witness :
  Permutation
    (reRank ISO.Date_parse threeDaysLater
       [Job.with_tags undatedJob ["leadership"]; Job.with_tags demoJob1 ["policy"; "data"]]
       defaultPreferences)
    [Job.with_tags undatedJob ["leadership"]; Job.with_tags demoJob1 ["policy"; "data"]].
Proof.
  apply (reRank_keeps_given_tags ISO.Date_parse threeDaysLater).
  repeat constructor; cbn; eauto.
Defined.

(** ** [fetchJobs] *)

Section FetchMore.

Context {host : JS.Host}.


Lemma all_rejected (q l : string) (adapters : list Adapter) :
    (forall a, a ∈ adapters -> exists reason, fetcher a q l = JS.rejected reason) ->
    forallb (batchFits q l) adapters = true /\ fulfilledJobs adapters q l = [].
Proof.
    unfold fulfilledJobs.
    induction adapters as [|a adapters IH]; intros H; cbn [forallb map concat];
      [now split|].
    destruct (H a) as [r E]; [apply elem_of_cons; now left|].
    destruct IH as [IH1 IH2]; [intros b Hb; apply H, elem_of_cons; now right|].
    unfold batchFits at 1. now rewrite E, IH1, IH2.
Qed.

Lemma firstOccurrences_length (l seen : list string) :
    length (firstOccurrences seen l) <= length l.
Proof.
    revert seen. induction l as [|x l IH]; intros seen; simpl; [lia|].
    destruct (bool_decide (x ∈ seen)); simpl.
    - specialize (IH seen). lia.
    - specialize (IH (seen ++ [x])). lia.
Qed.

Lemma key_injective (s1 s2 i1 i2 : string) :
    noHyphen s1 = true -> noHyphen s2 = true ->
    s1 +:+ "-" +:+ i1 = s2 +:+ "-" +:+ i2 -> s1 = s2 /\ i1 = i2.
Proof.
    revert s2. induction s1 as [|c s1 IH]; intros [|c' s2] H1 H2 E.
    - change (String "-" i1 = String "-" i2) in E. injection E as ->. now split.
    - change (String "-" i1 = String c' (s2 +:+ "-" +:+ i2)) in E.
      injection E as <- _. discriminate.
    - change (String c (s1 +:+ "-" +:+ i1) = String "-" i2) in E.
      injection E as -> _. discriminate.
    - change (String c (s1 +:+ "-" +:+ i1) = String c' (s2 +:+ "-" +:+ i2)) in E.
      injection E as -> E. simpl in H1, H2.
      apply andb_true_iff in H1 as [_ H1]. apply andb_true_iff in H2 as [_ H2].
      destruct (IH s2 H1 H2 E) as [-> ->]. now split.
Qed.

Lemma samePair_key (a b : Job) :
    noHyphen (Job.source a) = true -> noHyphen (Job.source b) = true ->
    samePair a b = String.eqb (dedupKey b) (dedupKey a).
Proof.
    intros Ha Hb. unfold samePair, dedupKey.
    destruct (String.eqb_spec (Job.source b +:+ "-" +:+ Job.id b)
                (Job.source a +:+ "-" +:+ Job.id a)) as [E|N].
    - destruct (key_injective _ _ _ _ Hb Ha E) as [-> ->].
      now rewrite !String.eqb_refl.
    - destruct (String.eqb_spec (Job.source a) (Job.source b)) as [Es|]; [|reflexivity].
      destruct (String.eqb_spec (Job.id a) (Job.id b)) as [Ei|]; [|reflexivity].
      exfalso. apply N. now rewrite Es, Ei.
Qed.

Lemma filter_key_NoDup (l : list Job) (x : Job) :
    NoDup (map dedupKey l) -> x ∈ l ->
    List.filter (fun y => String.eqb (dedupKey y) (dedupKey x)) l = [x].
Proof.
    induction l as [|y l IH]; intros Hnd Hx; [now apply elem_of_nil in Hx|].
    change (NoDup (dedupKey y :: map dedupKey l)) in Hnd.
    apply NoDup_cons in Hnd as [Hy Hnd]. simpl.
    assert (Hnone : forall z, dedupKey z ∉ map dedupKey l ->
                      List.filter (fun y => String.eqb (dedupKey y) (dedupKey z)) l = []).
    { intros z Hz. clear -Hz. induction l as [|u l IH]; simpl; [reflexivity|].
      change (dedupKey z ∉ dedupKey u :: map dedupKey l) in Hz.
      apply not_elem_of_cons in Hz as [Hne Hz].
      destruct (String.eqb_spec (dedupKey u) (dedupKey z)); [congruence|]. now apply IH. }
    apply elem_of_cons in Hx as [->|Hx].
    - rewrite String.eqb_refl. f_equal. now apply Hnone.
    - destruct (String.eqb_spec (dedupKey y) (dedupKey x)) as [E|N].
      + exfalso. apply Hy. rewrite E. apply list_elem_of_fmap. now exists x.
      + now apply IH.
Qed.

End FetchMore.



(** X20. When every enabled adapter is rejected, and also when no adapter
    is enabled, [fetchJobs] is fulfilled with the empty list: a total
    failure is not an error either. *)
Theorem fetchJobs_all_rejected {host : JS.Host} :
  forall (jobAdapters : list Adapter) (query location : string),
    (forall a, a ∈ jobAdapters -> enabled a = true ->
               exists reason, fetcher a query location = JS.rejected reason) ->
    fst (fetchJobs jobAdapters query location true) = JS.fulfilled [].
Proof.
  intros jobAdapters query location H.
  pose proof (fetchJobs_outcome jobAdapters query location true) as E.
  cbv zeta in E.
  change (List.filter (fun a => if true then enabled a else true) jobAdapters)
    with (List.filter enabled jobAdapters) in E.
  destruct (all_rejected query location (List.filter enabled jobAdapters))
    as [Hfits Hnone].
  { intros a Ha. apply list_elem_of_In, filter_In in Ha as [Ha He].
    apply H; [now apply list_elem_of_In|assumption]. }
  now rewrite E, Hfits, Hnone.
Qed.

Lemma fetchJobs_all_rejected_witness :
  fst (fetchJobs [failingAdapter] "data" "Sydney" true) = JS.fulfilled [].
Proof.
  apply (fetchJobs_all_rejected [failingAdapter] "data" "Sydney").
  intros a Ha _. apply list_elem_of_singleton in Ha as ->. now eexists.
Defined.

(** X21. De-duplicating twice is de-duplicating once; the result is never
    longer than the input, holds postings of the input only, and has no
    two postings with the same key. *)
Theorem dedup_idempotent :
  forall jobs : list Job,
    dedup (dedup jobs) = dedup jobs
    /\ length (dedup jobs) <= length jobs
    /\ (forall j, j ∈ dedup jobs -> j ∈ jobs)
    /\ NoDup (map dedupKey (dedup jobs)).
Proof.
  intros jobs. split; [apply dedup_distinct, dedup_NoDup|].
  split; [|split; [apply dedup_subset|apply dedup_NoDup]].
  rewrite <- (length_map dedupKey (dedup jobs)), dedup_keys.
  rewrite <- (length_map dedupKey jobs). apply firstOccurrences_length.
Qed.

(** X22. When no source name contains a hyphen, the key string stands for
    the (source, identifier) pair, and the de-duplication is by that pair
    with last-write-wins: for every posting of the input, the output
    holds exactly one posting with its source and identifier, the last
    such posting of the input. *)
Theorem dedup_by_source_and_id :
  forall (jobs : list Job) (j : Job),
    Forall (fun x => noHyphen (Job.source x) = true) jobs ->
    j ∈ jobs ->
    exists j',
      last (List.filter (samePair j) jobs) = Some j'
      /\ List.filter (samePair j) (dedup jobs) = [j'].
Proof.
  intros jobs j Hh Hj.
  assert (Hsrc : forall x, x ∈ jobs -> noHyphen (Job.source x) = true).
  { intros x Hx. rewrite Forall_forall in Hh. now apply Hh. }
  assert (E1 : List.filter (samePair j) jobs
               = List.filter (fun y => String.eqb (dedupKey y) (dedupKey j)) jobs).
  { apply filter_ext_in. intros x Hx. apply list_elem_of_In in Hx.
    apply samePair_key; auto. }
  assert (E2 : List.filter (samePair j) (dedup jobs)
               = List.filter (fun y => String.eqb (dedupKey y) (dedupKey j)) (dedup jobs)).
  { apply filter_ext_in. intros x Hx. apply list_elem_of_In, dedup_subset in Hx.
    apply samePair_key; auto. }
  assert (Hk : dedupKey j ∈ map dedupKey (dedup jobs)).
  { rewrite dedup_keys. apply firstOccurrences_spec. split; [apply not_elem_of_nil|].
    apply list_elem_of_fmap. now exists j. }
  apply list_elem_of_fmap in Hk as (j' & Ek & Hj').
  exists j'. rewrite E1, E2, Ek. split.
  - apply (dedup_last jobs j' Hj').
  - apply filter_key_NoDup; [apply dedup_NoDup|assumption].
Qed.

Lemma dedup_by_source_and_id_witness :
  List.filter (samePair (posting "DEMO" "1" "Senior People Analytics Consultant"))
    (dedup repostedPostings)
  = [posting "DEMO" "1" "Senior People Analytics Consultant (updated)"].
Proof.
  destruct (dedup_by_source_and_id repostedPostings
              (posting "DEMO" "1" "Senior People Analytics Consultant"))
    as (j' & Hl & Hf).
  - repeat constructor.
  - apply elem_of_cons. now left.
  - rewrite Hf. f_equal. vm_compute in Hl. now injection Hl as <-.
Defined.

(** ** Saved roles and the tag badges *)

Section Page.

Lemma saved_find (saved : list Job) (job : Job) :
    existsb (fun j => String.eqb (Job.id j) (Job.id job)) saved = true
    <-> (Job.id job ∈ map Job.id saved).
Proof.
    rewrite existsb_exists, list_elem_of_fmap. split.
    - intros (j & Hj & E). apply String.eqb_eq in E. exists j.
      split; [now symmetry|now apply list_elem_of_In].
    - intros (j & E & Hj). exists j.
      split; [now apply list_elem_of_In|]. apply String.eqb_eq. now symmetry.
Qed.

Lemma handleSave_ids (saved : list Job) (job : Job) :
    map Job.id (handleSave saved job)
    = map Job.id saved ++ firstOccurrences (map Job.id saved) [Job.id job].
Proof.
    unfold handleSave. simpl.
    destruct (existsb _ saved) eqn:E.
    - apply saved_find in E. rewrite bool_decide_eq_true_2 by assumption.
      now rewrite app_nil_r.
    - rewrite bool_decide_eq_false_2.
      + now rewrite map_app.
      + intros H. apply saved_find in H. congruence.
Qed.

Lemma firstOccurrences_app (seen l1 l2 : list string) :
    firstOccurrences seen (l1 ++ l2)
    = firstOccurrences seen l1
        ++ firstOccurrences (seen ++ firstOccurrences seen l1) l2.
Proof.
    revert seen. induction l1 as [|x l1 IH]; intros seen; simpl.
    - now rewrite app_nil_r.
    - destruct (bool_decide (x ∈ seen)); [apply IH|].
      rewrite IH. simpl. now rewrite <- app_assoc.
Qed.

Lemma toggleSelected_elem_of (s : list string) (t x : string) :
    (x ∈ toggleSelected s t) <-> ((x = t /\ t ∉ s) \/ (x <> t /\ x ∈ s)).
Proof.
    unfold toggleSelected, JS.Array_includes.
    destruct (bool_decide_reflect (t ∈ s)) as [Ht|Ht].
    - rewrite list_elem_of_In, filter_In, <- list_elem_of_In. split.
      + intros [Hx Hne]. right. split; [|assumption].
        intros ->. now rewrite String.eqb_refl in Hne.
      + intros [[_ Hn]|[Hne Hx]]; [contradiction|]. split; [assumption|].
        destruct (String.eqb_spec x t); [contradiction|reflexivity].
    - rewrite elem_of_app, list_elem_of_singleton. split.
      + intros [Hx| ->]; [|now left]. right. split; [|assumption]. now intros ->.
      + intros [[-> _]|[_ Hx]]; [now right|now left].
Qed.

Lemma toggleSelected_NoDup (s : list string) (t : string) :
    NoDup s -> NoDup (toggleSelected s t).
Proof.
    intros Hs. unfold toggleSelected, JS.Array_includes.
    destruct (bool_decide_reflect (t ∈ s)) as [Ht|Ht].
    - apply NoDup_ListNoDup, List.NoDup_filter, NoDup_ListNoDup, Hs.
    - apply NoDup_app. split; [assumption|]. split; [|apply NoDup_singleton].
      intros x Hx Hx'. apply list_elem_of_singleton in Hx' as ->. contradiction.
Qed.

Lemma find_app' {A} (f : A -> bool) (l1 l2 : list A) :
    find f (l1 ++ l2) = match find f l1 with Some x => Some x | None => find f l2 end.
Proof.
    induction l1 as [|x l1 IH]; simpl; [reflexivity|]. now destruct (f x).
Qed.

Lemma fold_left_snoc {A B} (f : A -> B -> A) (l : list B) (x : B) (a : A) :
    fold_left f (l ++ [x]) a = f (fold_left f l a) x.
Proof. now rewrite fold_left_app. Qed.

End Page.

(** X23. Saving a role appends at most that role: the list read is a
    prefix of the list written and the role's identifier is in the list
    written, whatever the list read was; and if no identifier was in the
    list twice, none is afterwards. *)
Theorem handleSave_distinct_ids :
  forall (saved : list Job) (job : Job),
    let next := handleSave saved job in
    saved `prefix_of` next
    /\ (Job.id job ∈ map Job.id next)
    /\ (NoDup (map Job.id saved) -> NoDup (map Job.id next)).
Proof.
  intros saved job next. subst next. split; [|split].
  - unfold handleSave. destruct (existsb _ saved).
    + reflexivity.
    + now exists [job].
  - rewrite handleSave_ids, elem_of_app.
    destruct (decide (Job.id job ∈ map Job.id saved)) as [H|H]; [now left|right].
    apply firstOccurrences_spec. split; [assumption|]. now apply list_elem_of_singleton.
  - intros Hnd. rewrite handleSave_ids.
    destruct (firstOccurrences_spec [Job.id job] (map Job.id saved)) as [H1 H2].
    apply NoDup_app. split; [assumption|]. split; [|assumption].
    intros x Hx Hx'. apply H2 in Hx'. tauto.
Qed.

Lemma handleSave_distinct_ids_witness :
  NoDup (map Job.id (handleSave threePostings (posting "OTHER" "2" "Another role"))).
Proof.
  apply (handleSave_distinct_ids threePostings (posting "OTHER" "2" "Another role")).
  apply (bool_decide_unpack _). vm_compute. exact I.
Defined.

(** X24. Saving a run of roles, each call reading the list the previous
    one wrote, is first-write-wins by identifier alone: the identifiers
    saved are those of the list at the start followed by the new ones in
    the order of their first save, and the role found under an
    identifier is the first role with that identifier in the start list
    followed by the run; a later role with the same identifier neither
    replaces it nor is added. *)
Theorem handleSave_first_wins :
  forall (saved jobs : list Job),
    let final := fold_left handleSave jobs saved in
    map Job.id final
    = map Job.id saved ++ firstOccurrences (map Job.id saved) (map Job.id jobs)
    /\ forall i : string,
         find (fun j => String.eqb (Job.id j) i) final
         = find (fun j => String.eqb (Job.id j) i) (saved ++ jobs).
Proof.
  intros saved jobs final. subst final. split.
  - revert saved. induction jobs as [|job jobs IH]; intros saved.
    + simpl. now rewrite app_nil_r.
    + change (fold_left handleSave (job :: jobs) saved)
        with (fold_left handleSave jobs (handleSave saved job)).
      rewrite IH, handleSave_ids.
      change (map Job.id (job :: jobs)) with ([Job.id job] ++ map Job.id jobs).
      now rewrite firstOccurrences_app, app_assoc.
  - intros i. revert saved. induction jobs as [|job jobs IH]; intros saved.
    + simpl. now rewrite app_nil_r.
    + change (fold_left handleSave (job :: jobs) saved)
        with (fold_left handleSave jobs (handleSave saved job)).
      rewrite IH. unfold handleSave.
      destruct (existsb (fun j => String.eqb (Job.id j) (Job.id job)) saved) eqn:E.
      * rewrite !find_app'.
        destruct (find (fun j => String.eqb (Job.id j) i) saved) eqn:F; [reflexivity|].
        cbn [find]. destruct (String.eqb_spec (Job.id job) i) as [Hi|Hi]; [|reflexivity].
        exfalso. apply existsb_exists in E as (j & Hj & Ej).
        apply String.eqb_eq in Ej.
        pose proof (find_none _ _ F j Hj) as Hn. cbv beta in Hn.
        rewrite Ej, Hi, String.eqb_refl in Hn. discriminate.
      * now rewrite <- app_assoc.
Qed.

Lemma handleSave_first_wins_witness :
  find (fun j => String.eqb (Job.id j) "1")
    (fold_left handleSave
       [posting "DEMO" "1" "Senior People Analytics Consultant";
        posting "SEEK" "1" "Head of Organisational Development"] [])
  = Some (posting "DEMO" "1" "Senior People Analytics Consultant").
Proof.
  exact (proj2 (handleSave_first_wins []
                  [posting "DEMO" "1" "Senior People Analytics Consultant";
                   posting "SEEK" "1" "Head of Organisational Development"]) "1").
Defined.

(** X25. A click on a tag badge selects the tag when it was not selected
    and deselects it when it was; every other tag stays as it was. *)
Theorem toggleSelected_membership :
  forall (s : list string) (t x : string),
    (x ∈ toggleSelected s t) <-> ((x = t /\ t ∉ s) \/ (x <> t /\ x ∈ s)).
Proof. exact toggleSelected_elem_of. Qed.

(** X26. After any run of clicks on the badges of a fresh feedback form,
    a tag is selected exactly when it was clicked an odd number of times,
    and no tag is selected twice. *)
Theorem selected_after_clicks :
  forall (clicks : list string),
    let selected := fold_left toggleSelected clicks [] in
    NoDup selected
    /\ forall t, (t ∈ selected) <-> Nat.odd (count_occ string_dec clicks t) = true.
Proof.
  intros clicks. simpl.
  induction clicks as [|c clicks IH] using rev_ind.
  - split; [constructor|]. intros t. simpl. rewrite elem_of_nil. split; [tauto|discriminate].
  - destruct IH as [IHn IHm]. rewrite fold_left_snoc. split.
    + now apply toggleSelected_NoDup.
    + intros t. rewrite toggleSelected_elem_of, count_occ_app. simpl.
      destruct (string_dec c t) as [->|Hne].
      * rewrite Nat.add_1_r, Nat.odd_succ, <- Nat.negb_odd, IHm.
        destruct (Nat.odd (count_occ string_dec clicks t)); simpl; split.
        -- intros [[_ H]|[H _]]; [now exfalso; apply H|congruence].
        -- discriminate.
        -- reflexivity.
        -- intros _. left. split; [reflexivity|]. discriminate.
      * rewrite Nat.add_0_r, <- IHm. split.
        -- intros [[-> _]|[_ H]]; [congruence|assumption].
        -- intros H. right. split; [congruence|assumption].
Qed.
